(** * Portento Core: the scoped dependency-resolution engine

    A shallow embedding of [DependencyManagement] (the registry and resolver
    of the library) together with the part of the tsyringe container it
    drives, and the properties of scope isolation, fallback order, singleton
    identity and reset that the specification states about it. *)

From Stdlib Require Import String Ascii List Bool Arith Lia.
Import ListNotations.

Local Open Scope string_scope.
Local Open Scope list_scope.

(** ** Keys with a decidable equality *)

Class EqKey (K : Type) := { key_eqb : K -> K -> bool }.

Class EqKeyLaws (K : Type) `{EqKey K} := {
  key_eqb_eq : forall a b : K, key_eqb a b = true <-> a = b
}.

#[export] Instance EqKey_string : EqKey string := {| key_eqb := String.eqb |}.

(** ** The JavaScript [Map]

    A [Map] keeps its entries in insertion order; [set] on a key that is
    present replaces the value where the entry stands, and [entries()]
    iterates in that order.  [reregisterAll] replays the scope tables through
    [entries()], so the order is part of the model. *)

Module JsMap.

Definition t (K V : Type) : Type := list (K * V).

Definition empty {K V : Type} : t K V := [].

Fixpoint get {K V : Type} `{EqKey K} (k : K) (m : t K V) : option V :=
  match m with
  | [] => None
  | (k', v) :: m' => if key_eqb k k' then Some v else get k m'
  end.

Definition has {K V : Type} `{EqKey K} (k : K) (m : t K V) : bool :=
  match get k m with Some _ => true | None => false end.

Fixpoint set {K V : Type} `{EqKey K} (k : K) (v : V) (m : t K V) : t K V :=
  match m with
  | [] => [(k, v)]
  | (k', v') :: m' =>
      if key_eqb k k' then (k', v) :: m' else (k', v') :: set k v m'
  end.

Definition entries {K V : Type} (m : t K V) : list (K * V) := m.

Definition keys {K V : Type} (m : t K V) : list K := map fst m.

End JsMap.

(** ** Values of the object world *)

(** A class (constructor function): [name] is [Function.name]; two unrelated
    classes may share a name, [ctor_id] tells them apart. *)
Record Ctor : Type := { name : string; ctor_id : nat }.

(** An object reference.  [VEngine] is the [DependencyManagement] instance
    itself ([this]); [VObject r C] is the object allocated at address [r] by
    [new C(...)].  Reference equality of JavaScript is equality here. *)
Inductive value : Type :=
| VEngine
| VObject (ref : nat) (cls : Ctor).

(** [Symbol.for(key)]: the symbol of the global symbol registry for [key];
    two such symbols are the same symbol exactly when the keys are equal. *)
Inductive symbol : Type := SymbolFor (key : string).

(** tsyringe's [InjectionToken], as far as the engine uses it. *)
Inductive InjectionToken : Type :=
| TString (s : string)
| TSymbol (s : symbol).

Definition symbol_eqb (a b : symbol) : bool :=
  match a, b with SymbolFor x, SymbolFor y => String.eqb x y end.

Definition token_eqb (a b : InjectionToken) : bool :=
  match a, b with
  | TString x, TString y => String.eqb x y
  | TSymbol x, TSymbol y => symbol_eqb x y
  | _, _ => false
  end.

#[export] Instance EqKey_token : EqKey InjectionToken := {| key_eqb := token_eqb |}.

(** What a call does: it returns a value ([None] is [undefined]) or throws. *)
Inductive outcome : Type :=
| Returned (v : option value)
| Thrown (msg : string).

(** ** The tsyringe container

    The engine keeps one child container of tsyringe's global container and
    uses [register], [isRegistered], [resolve], [reset], [clearInstances] and
    [createChildContainer] of it.  The library is not part of the repository;
    the definitions below follow its [DependencyContainer]: a registry from
    tokens to the list of their registrations, the last one being current. *)

Inductive Lifecycle : Type := Transient | Singleton.

Inductive Provider : Type :=
| UseValue (v : value)
| UseClass (c : Ctor).

Record Registration : Type := {
  provider : Provider;
  lifecycle : Lifecycle;
  instance : option value
}.

Definition Registry : Type := JsMap.t InjectionToken (list Registration).

Record DependencyContainer : Type := { registry : Registry }.

Definition isValueProvider (p : Provider) : bool :=
  match p with UseValue _ => true | UseClass _ => false end.

Definition registrationsOf (c : DependencyContainer) (token : InjectionToken)
  : list Registration :=
  match JsMap.get token (registry c) with Some regs => regs | None => [] end.

(** [tsyringe.createChildContainer()] on the global container: nothing in the
    library registers on the global container, so the child starts empty and
    finds nothing in its parent. *)
Definition createChildContainer : DependencyContainer := {| registry := JsMap.empty |}.

Definition newRegistration (p : Provider) (l : Lifecycle) : Registration :=
  {| provider := p; lifecycle := l; instance := None |}.

Definition withInstance (v : value) (r : Registration) : Registration :=
  {| provider := provider r; lifecycle := lifecycle r; instance := Some v |}.

(** [container.register(token, provider, {lifecycle})]: the registration is
    appended to those of the token.  The engine registers a value with the
    default lifecycle and classes as singletons. *)
Definition register (c : DependencyContainer) (token : InjectionToken)
    (p : Provider) (l : Lifecycle) : DependencyContainer :=
  {| registry :=
       JsMap.set token
         (registrationsOf c token ++ [newRegistration p l])
         (registry c) |}.

(** [container.isRegistered(token)] (not recursive). *)
Definition isRegistered (c : DependencyContainer) (token : InjectionToken) : bool :=
  match registrationsOf c token with [] => false | _ :: _ => true end.

(** The current registration of a token: the last one registered. *)
Definition getRegistration (c : DependencyContainer) (token : InjectionToken)
  : option Registration :=
  last (map Some (registrationsOf c token)) None.

Fixpoint setLastInstance (v : value) (regs : list Registration) : list Registration :=
  match regs with
  | [] => []
  | [r] => [withInstance v r]
  | r :: regs' => r :: setLastInstance v regs'
  end.

(** [registration.instance = v] on the current registration of [token]. *)
Definition cacheInstance (c : DependencyContainer) (token : InjectionToken) (v : value)
  : DependencyContainer :=
  {| registry := JsMap.set token (setLastInstance v (registrationsOf c token)) (registry c) |}.

(** [token.toString()] *)
Definition tokenToString (token : InjectionToken) : string :=
  match token with
  | TString s => s
  | TSymbol (SymbolFor key) => "Symbol(" ++ key ++ ")"
  end.

Definition doubleQuote : string := String (ascii_of_nat 34) EmptyString.

(** The error of [resolve] for a string or symbol token without registration. *)
Definition unregisteredMessage (token : InjectionToken) : string :=
  "Attempted to resolve unregistered dependency token: "
  ++ doubleQuote ++ tokenToString token ++ doubleQuote.

(** [container.resolve(token)]: without a registration for a string or
    symbol token it throws; a value provider answers its value; a class
    provider is constructed, and with the singleton lifecycle the instance
    is cached on the registration ([registration.instance ||
    (registration.instance = construct(useClass))]).  [next] is the next
    free object address: constructing a class allocates one object there.
    The constructor itself is taken to run to completion and not to call
    back into the engine. *)
Definition containerResolve (c : DependencyContainer) (next : nat) (token : InjectionToken)
  : DependencyContainer * nat * outcome :=
  match getRegistration c token with
  | None => (c, next, Thrown (unregisteredMessage token))
  | Some reg =>
      match provider reg with
      | UseValue v => (c, next, Returned (Some v))
      | UseClass cls =>
          match lifecycle reg with
          | Singleton =>
              match instance reg with
              | Some v => (c, next, Returned (Some v))
              | None =>
                  let v := VObject next cls in
                  (cacheInstance c token v, S next, Returned (Some v))
              end
          | Transient => (c, S next, Returned (Some (VObject next cls)))
          end
      end
  end.

Definition clearRegistration (r : Registration) : Registration :=
  {| provider := provider r; lifecycle := lifecycle r; instance := None |}.

(** [container.clearInstances()]: for every [token, registrations] entry of
    the registry the library stores back the registrations that are not
    value providers ([filter(r => !isValueProvider(r.provider))], a
    registered value being itself an instance), each with
    [instance = undefined]. *)
Definition clearInstances (c : DependencyContainer) : DependencyContainer :=
  {| registry :=
       map (fun e : InjectionToken * list Registration =>
              (fst e,
               map clearRegistration
                 (filter (fun r => negb (isValueProvider (provider r))) (snd e))))
           (registry c) |}.

(** [container.reset()]: the registry is emptied. *)
Definition containerReset (c : DependencyContainer) : DependencyContainer :=
  {| registry := JsMap.empty |}.


(** ** The engine: [class DependencyManagement] *)

Record DependencyManagement : Type := {
  container : DependencyContainer;
  rootScope : JsMap.t string symbol;
  routerScopes : JsMap.t string (JsMap.t string symbol);
  componentScopes : JsMap.t string (JsMap.t string symbol);
  currentSelector : option string;
  currentRouterSelector : option string;
  componentToRouter : JsMap.t string string;
  rootClasses : JsMap.t string Ctor;
  routerClasses : JsMap.t string (JsMap.t string Ctor);
  componentClasses : JsMap.t string (JsMap.t string Ctor)
}.

(** The engine and the allocator of the object world it runs in: [nextRef]
    is the address the next constructed object gets. *)
Record World : Type := { engine : DependencyManagement; nextRef : nat }.

Definition with_container (c : DependencyContainer) (this : DependencyManagement)
  : DependencyManagement :=
  {| container := c;
     rootScope := rootScope this;
     routerScopes := routerScopes this;
     componentScopes := componentScopes this;
     currentSelector := currentSelector this;
     currentRouterSelector := currentRouterSelector this;
     componentToRouter := componentToRouter this;
     rootClasses := rootClasses this;
     routerClasses := routerClasses this;
     componentClasses := componentClasses this |}.

Definition with_root (scope : JsMap.t string symbol) (classes : JsMap.t string Ctor)
    (this : DependencyManagement) : DependencyManagement :=
  {| container := container this;
     rootScope := scope;
     routerScopes := routerScopes this;
     componentScopes := componentScopes this;
     currentSelector := currentSelector this;
     currentRouterSelector := currentRouterSelector this;
     componentToRouter := componentToRouter this;
     rootClasses := classes;
     routerClasses := routerClasses this;
     componentClasses := componentClasses this |}.

Definition with_router (scopes : JsMap.t string (JsMap.t string symbol))
    (classes : JsMap.t string (JsMap.t string Ctor))
    (this : DependencyManagement) : DependencyManagement :=
  {| container := container this;
     rootScope := rootScope this;
     routerScopes := scopes;
     componentScopes := componentScopes this;
     currentSelector := currentSelector this;
     currentRouterSelector := currentRouterSelector this;
     componentToRouter := componentToRouter this;
     rootClasses := rootClasses this;
     routerClasses := classes;
     componentClasses := componentClasses this |}.

Definition with_component (scopes : JsMap.t string (JsMap.t string symbol))
    (classes : JsMap.t string (JsMap.t string Ctor))
    (this : DependencyManagement) : DependencyManagement :=
  {| container := container this;
     rootScope := rootScope this;
     routerScopes := routerScopes this;
     componentScopes := scopes;
     currentSelector := currentSelector this;
     currentRouterSelector := currentRouterSelector this;
     componentToRouter := componentToRouter this;
     rootClasses := rootClasses this;
     routerClasses := routerClasses this;
     componentClasses := classes |}.

Definition with_context (selector routerSelector : option string)
    (this : DependencyManagement) : DependencyManagement :=
  {| container := container this;
     rootScope := rootScope this;
     routerScopes := routerScopes this;
     componentScopes := componentScopes this;
     currentSelector := selector;
     currentRouterSelector := routerSelector;
     componentToRouter := componentToRouter this;
     rootClasses := rootClasses this;
     routerClasses := routerClasses this;
     componentClasses := componentClasses this |}.

Definition with_membership (m : JsMap.t string string)
    (this : DependencyManagement) : DependencyManagement :=
  {| container := container this;
     rootScope := rootScope this;
     routerScopes := routerScopes this;
     componentScopes := componentScopes this;
     currentSelector := currentSelector this;
     currentRouterSelector := currentRouterSelector this;
     componentToRouter := m;
     rootClasses := rootClasses this;
     routerClasses := routerClasses this;
     componentClasses := componentClasses this |}.

(** The reserved name under which the engine registers itself. *)
Definition reservedName : string := "DependencyManagement".

(** [new DependencyManagement()]: a fresh child container, empty tables, and
    the engine registered as a value under the string token
    ['DependencyManagement']. *)
Definition newDependencyManagement : DependencyManagement :=
  {| container :=
       register createChildContainer (TString reservedName) (UseValue VEngine) Transient;
     rootScope := JsMap.empty;
     routerScopes := JsMap.empty;
     componentScopes := JsMap.empty;
     currentSelector := None;
     currentRouterSelector := None;
     componentToRouter := JsMap.empty;
     rootClasses := JsMap.empty;
     routerClasses := JsMap.empty;
     componentClasses := JsMap.empty |}.

(** [DependencyManagement.getInstance()] in a fresh process. *)
Definition getInstance : World := {| engine := newDependencyManagement; nextRef := 0 |}.

Definition setContext (this : DependencyManagement)
    (selector routerSelector : option string) : DependencyManagement :=
  with_context selector routerSelector this.

Definition clearContext (this : DependencyManagement) : DependencyManagement :=
  with_context None None this.

(** [Symbol.for(`${scope}:${className}`)] *)
Definition getToken (className scope : string) : symbol :=
  SymbolFor (scope ++ ":" ++ className).

(** [container.register(scopedToken, {useClass: Provider}, {lifecycle:
    Lifecycle.Singleton})] behind the guard [!container.isRegistered(scopedToken)]. *)
Definition registerIfAbsent (c : DependencyContainer) (scopedToken : symbol) (P : Ctor)
  : DependencyContainer :=
  if isRegistered c (TSymbol scopedToken) then c
  else register c (TSymbol scopedToken) (UseClass P) Singleton.

Definition setupRootContainer (this : DependencyManagement) (Entity : Ctor)
  : DependencyManagement :=
  let className := name Entity in
  if JsMap.has className (rootScope this) then this
  else
    let scopedToken := getToken className "root" in
    with_container (registerIfAbsent (container this) scopedToken Entity)
      (with_root (JsMap.set className scopedToken (rootScope this))
                 (JsMap.set className Entity (rootClasses this)) this).

(** The state the provider loop of a setup works on: the scope's name table,
    its class table, and the container. *)
Definition ScopeState : Type :=
  (JsMap.t string symbol * JsMap.t string Ctor * DependencyContainer)%type.

(** One turn of [for (const Provider of Providers)]. *)
Definition registerProvider (scopeKey : string) (st : ScopeState) (P : Ctor) : ScopeState :=
  let '(scopeMap, classMap, c) := st in
  let className := name P in
  if JsMap.has className scopeMap then st
  else
    let scopedToken := getToken className scopeKey in
    (JsMap.set className scopedToken scopeMap,
     JsMap.set className P classMap,
     registerIfAbsent c scopedToken P).

Definition registerProviders (scopeKey : string) (Providers : list Ctor) (st : ScopeState)
  : ScopeState :=
  fold_left (registerProvider scopeKey) Providers st.

Definition ensureComponentScope (this : DependencyManagement) (selector : string)
  : DependencyManagement :=
  if JsMap.has selector (componentScopes this) then this
  else with_component (JsMap.set selector JsMap.empty (componentScopes this))
                      (JsMap.set selector JsMap.empty (componentClasses this)) this.

Definition setupComponentContainer (this : DependencyManagement) (selector : string)
    (Providers : list Ctor) : DependencyManagement * outcome :=
  let this1 := ensureComponentScope this selector in
  match JsMap.get selector (componentScopes this1),
        JsMap.get selector (componentClasses this1) with
  | Some scopeMap, Some classMap =>
      let '(scopeMap', classMap', c') :=
        registerProviders ("component:" ++ selector) Providers
          (scopeMap, classMap, container this1) in
      (with_container c'
         (with_component (JsMap.set selector scopeMap' (componentScopes this1))
                         (JsMap.set selector classMap' (componentClasses this1)) this1),
       Returned None)
  | _, _ =>
      (this1, Thrown ("Failed to create component scope for selector: " ++ selector))
  end.

(** An element of the [Components] argument of [setupRouterContainer]: a
    class name or a class. *)
Inductive ComponentRef : Type :=
| ByName (componentName : string)
| ByClass (Component : Ctor).

Definition componentNameOf (Component : ComponentRef) : string :=
  match Component with
  | ByName s => s
  | ByClass C => name C
  end.

Definition trackMembership (selector : string) (Components : list ComponentRef)
    (m : JsMap.t string string) : JsMap.t string string :=
  fold_left (fun m Component => JsMap.set (componentNameOf Component) selector m)
            Components m.

Definition ensureRouterScope (this : DependencyManagement) (selector : string)
  : DependencyManagement :=
  if JsMap.has selector (routerScopes this) then this
  else with_router (JsMap.set selector JsMap.empty (routerScopes this))
                   (JsMap.set selector JsMap.empty (routerClasses this)) this.

Definition setupRouterContainer (this : DependencyManagement)
    (Components : list ComponentRef) (Providers : list Ctor) (selector : string)
  : DependencyManagement * outcome :=
  let this1 := ensureRouterScope this selector in
  match JsMap.get selector (routerScopes this1),
        JsMap.get selector (routerClasses this1) with
  | Some scopeMap, Some classMap =>
      let this2 :=
        with_membership (trackMembership selector Components (componentToRouter this1)) this1 in
      let '(scopeMap', classMap', c') :=
        registerProviders ("router:" ++ selector) Providers
          (scopeMap, classMap, container this2) in
      (with_container c'
         (with_router (JsMap.set selector scopeMap' (routerScopes this2))
                      (JsMap.set selector classMap' (routerClasses this2)) this2),
       Returned None)
  | _, _ =>
      (this1, Thrown ("Failed to create router scope for selector: " ++ selector))
  end.

Definition getRouterForComponent (this : DependencyManagement) (componentName : string)
  : option string :=
  JsMap.get componentName (componentToRouter this).

(** JavaScript truthiness of a [string | undefined]: [undefined] and the
    empty string are falsy.  The result is the string when it is truthy. *)
Definition truthy (s : option string) : option string :=
  match s with
  | Some x => if x =? "" then None else Some x
  | None => None
  end.

(** [scopes.get(selector)?.get(className)] *)
Definition scopedToken (scopes : JsMap.t string (JsMap.t string symbol))
    (selector className : string) : option symbol :=
  match JsMap.get selector scopes with
  | Some scope => JsMap.get className scope
  | None => None
  end.

(** The test [token && this.container.isRegistered(token)]: a symbol is
    always truthy. *)
Definition registered (this : DependencyManagement) (token : option symbol)
  : option symbol :=
  match token with
  | Some t => if isRegistered (container this) (TSymbol t) then Some t else None
  | None => None
  end.

(** [return this.container.resolve<T>(token)] *)
Definition resolveToken (w : World) (token : InjectionToken) : World * outcome :=
  let '(c, next, r) := containerResolve (container (engine w)) (nextRef w) token in
  ({| engine := with_container c (engine w); nextRef := next |}, r).

Definition option_string_eqb (a b : option string) : bool :=
  match a, b with
  | Some x, Some y => x =? y
  | None, None => true
  | _, _ => false
  end.

Definition resolve (w : World) (className : string)
    (componentSelector routerSelector componentClassName : option string)
  : World * outcome :=
  let this := engine w in
  if className =? reservedName then resolveToken w (TString reservedName)
  else
    match
      match truthy componentSelector with
      | Some sel => registered this (scopedToken (componentScopes this) sel className)
      | None => None
      end
    with
    | Some componentToken => resolveToken w (TSymbol componentToken)
    | None =>
    match
      match truthy routerSelector with
      | Some sel => registered this (scopedToken (routerScopes this) sel className)
      | None => None
      end
    with
    | Some routerToken => resolveToken w (TSymbol routerToken)
    | None =>
    let parentRouterSelector :=
      match truthy componentClassName with
      | Some n => getRouterForComponent this n
      | None => None
      end in
    match
      match truthy parentRouterSelector with
      | Some sel =>
          if option_string_eqb parentRouterSelector routerSelector then None
          else registered this (scopedToken (routerScopes this) sel className)
      | None => None
      end
    with
    | Some parentRouterToken => resolveToken w (TSymbol parentRouterToken)
    | None =>
    match registered this (JsMap.get className (rootScope this)) with
    | Some rootToken => resolveToken w (TSymbol rootToken)
    | None => (w, Returned None)
    end end end end.

Definition get (w : World) (className : string) : World * outcome :=
  resolve w className (currentSelector (engine w)) (currentRouterSelector (engine w)) None.

(** The first key of [scopes.entries()], when a container was passed. *)
Definition firstSelector {V : Type} (given : bool) (scopes : JsMap.t string V)
  : option string :=
  if given then
    match JsMap.entries scopes with
    | (selector, _) :: _ => Some selector
    | [] => None
    end
  else None.

(** [resolveFromScopes]: the two container arguments only count as given or
    not given. *)
Definition resolveFromScopes (w : World) (EntityName : string)
    (componentContainer routerContainer : bool) : World * outcome :=
  resolve w EntityName
    (firstSelector componentContainer (componentScopes (engine w)))
    (firstSelector routerContainer (routerScopes (engine w)))
    None.

(** One scope table replayed into the container:
    [for (const [className, token] of scope.entries())]. *)
Definition reregisterScope (scope : JsMap.t string symbol) (classes : JsMap.t string Ctor)
    (c : DependencyContainer) : DependencyContainer :=
  fold_left
    (fun c e =>
       match JsMap.get (fst e) classes with
       | Some P => register c (TSymbol (snd e)) (UseClass P) Singleton
       | None => c
       end)
    (JsMap.entries scope) c.

(** [for (const [selector, scope] of scopes.entries())] *)
Definition reregisterScopes (scopes : JsMap.t string (JsMap.t string symbol))
    (classes : JsMap.t string (JsMap.t string Ctor))
    (c : DependencyContainer) : DependencyContainer :=
  fold_left
    (fun c e =>
       match JsMap.get (fst e) classes with
       | Some classMap => reregisterScope (snd e) classMap c
       | None => c
       end)
    (JsMap.entries scopes) c.

Definition reregisterAll (this : DependencyManagement) : DependencyManagement :=
  let c1 := reregisterScope (rootScope this) (rootClasses this) (container this) in
  let c2 := reregisterScopes (routerScopes this) (routerClasses this) c1 in
  let c3 := reregisterScopes (componentScopes this) (componentClasses this) c2 in
  with_container c3 this.

Inductive ScopeKind : Type := ScopeRoot | ScopeRouter | ScopeComponent.

(** [this.container.reset(); this.container = tsyringe.createChildContainer();
    this.reregisterAll()] *)
Definition resetScope (this : DependencyManagement) (_scope : ScopeKind)
    (_selector : option string) : DependencyManagement :=
  let this1 := with_container (containerReset (container this)) this in
  let this2 := with_container createChildContainer this1 in
  reregisterAll this2.

Definition resetClass (this : DependencyManagement) (_className : string)
  : DependencyManagement :=
  let this1 := with_container (containerReset (container this)) this in
  let this2 := with_container createChildContainer this1 in
  reregisterAll this2.

Definition resetAll (this : DependencyManagement) : DependencyManagement :=
  with_container (clearInstances (container this)) this.

(** ** Calls on the engine and the states they reach *)

Inductive Call : Type :=
| CallSetContext (selector routerSelector : option string)
| CallClearContext
| CallSetupRoot (Entity : Ctor)
| CallSetupComponent (selector : string) (Providers : list Ctor)
| CallSetupRouter (Components : list ComponentRef) (Providers : list Ctor) (selector : string)
| CallResolve (className : string) (componentSelector routerSelector componentClassName : option string)
| CallGet (className : string)
| CallResolveFromScopes (EntityName : string) (componentContainer routerContainer : bool)
| CallResetScope (scope : ScopeKind) (selector : option string)
| CallResetClass (className : string)
| CallResetAll.

Definition onEngine (w : World) (this : DependencyManagement) : World :=
  {| engine := this; nextRef := nextRef w |}.

Definition call (w : World) (c : Call) : World * outcome :=
  match c with
  | CallSetContext s r => (onEngine w (setContext (engine w) s r), Returned None)
  | CallClearContext => (onEngine w (clearContext (engine w)), Returned None)
  | CallSetupRoot E => (onEngine w (setupRootContainer (engine w) E), Returned None)
  | CallSetupComponent s Ps =>
      let '(this, r) := setupComponentContainer (engine w) s Ps in (onEngine w this, r)
  | CallSetupRouter Cs Ps s =>
      let '(this, r) := setupRouterContainer (engine w) Cs Ps s in (onEngine w this, r)
  | CallResolve n cs rs o => resolve w n cs rs o
  | CallGet n => get w n
  | CallResolveFromScopes n cc rc => resolveFromScopes w n cc rc
  | CallResetScope k s => (onEngine w (resetScope (engine w) k s), Returned None)
  | CallResetClass n => (onEngine w (resetClass (engine w) n), Returned None)
  | CallResetAll => (onEngine w (resetAll (engine w)), Returned None)
  end.

(** Calls that invalidate cached instances. *)
Definition invalidates (c : Call) : bool :=
  match c with
  | CallResetScope _ _ | CallResetClass _ | CallResetAll => true
  | _ => false
  end.

Definition run (w : World) (calls : list Call) : World :=
  fold_left (fun w c => fst (call w c)) calls w.

(** The states of the engine: the one [getInstance] creates, and every state
    a call leads to from one of them. *)
Inductive reachable : World -> Prop :=
| reachable_getInstance : reachable getInstance
| reachable_call (w : World) (c : Call) : reachable w -> reachable (fst (call w c)).

(** ** Auxiliary notions for the statements *)

(** The token a [resolve] call hands to the container: the reserved string
    token, or the first registered token of the chain component, own router,
    parent router, root; [None] when the chain finds nothing. *)
Definition componentLookup (this : DependencyManagement) (className : string)
    (componentSelector : option string) : option symbol :=
  match truthy componentSelector with
  | Some sel => registered this (scopedToken (componentScopes this) sel className)
  | None => None
  end.

Definition routerLookup (this : DependencyManagement) (className : string)
    (routerSelector : option string) : option symbol :=
  match truthy routerSelector with
  | Some sel => registered this (scopedToken (routerScopes this) sel className)
  | None => None
  end.

Definition parentSelector (this : DependencyManagement)
    (componentClassName : option string) : option string :=
  match truthy componentClassName with
  | Some n => getRouterForComponent this n
  | None => None
  end.

Definition parentLookup (this : DependencyManagement) (className : string)
    (routerSelector componentClassName : option string) : option symbol :=
  match truthy (parentSelector this componentClassName) with
  | Some sel =>
      if option_string_eqb (parentSelector this componentClassName) routerSelector then None
      else registered this (scopedToken (routerScopes this) sel className)
  | None => None
  end.

Definition rootLookup (this : DependencyManagement) (className : string) : option symbol :=
  registered this (JsMap.get className (rootScope this)).

Definition firstSome {A : Type} (a b : option A) : option A :=
  match a with Some _ => a | None => b end.

Definition resolveTarget (this : DependencyManagement) (className : string)
    (componentSelector routerSelector componentClassName : option string)
  : option InjectionToken :=
  if className =? reservedName then Some (TString reservedName)
  else
    option_map TSymbol
      (firstSome (componentLookup this className componentSelector)
      (firstSome (routerLookup this className routerSelector)
      (firstSome (parentLookup this className routerSelector componentClassName)
                 (rootLookup this className)))).




(** [holds c token v]: the container answers [v] for [token] without
    constructing anything: the current registration is the value [v], or a
    singleton class whose cached instance is [v]. *)
Definition holds (c : DependencyContainer) (token : InjectionToken) (v : value) : Prop :=
  exists reg, getRegistration c token = Some reg /\
    match provider reg with
    | UseValue v' => v' = v
    | UseClass _ => lifecycle reg = Singleton /\ instance reg = Some v
    end.

(** [c'] knows every scope token [c] knows. *)
Definition extends (c c' : DependencyContainer) : Prop :=
  forall t : symbol,
    isRegistered c (TSymbol t) = true -> isRegistered c' (TSymbol t) = true.

(** ** The invariant of the engine *)

(** A cached instance is an object allocated before [next]. *)
Definition instanceBelow (next : nat) (o : option value) : Prop :=
  match o with
  | None => True
  | Some (VObject r _) => r < next
  | Some VEngine => False
  end.

(** Symbol tokens carry singleton class registrations; the only value ever
    registered is the engine, under a string token. *)
Definition regOk (next : nat) (token : InjectionToken) (reg : Registration) : Prop :=
  match token with
  | TSymbol _ => (exists cls, provider reg = UseClass cls) /\ lifecycle reg = Singleton
  | TString _ => provider reg = UseValue VEngine
  end /\ instanceBelow next (instance reg).

Definition regsOk (next : nat) (c : DependencyContainer) : Prop :=
  forall token, Forall (regOk next token) (registrationsOf c token).

(** Every entry of a scope table holds the token derived for its scope, the
    token is registered, and the class table remembers the class. *)
Definition tableOk (c : DependencyContainer) (scopeKey : string)
    (scope : JsMap.t string symbol) (classes : JsMap.t string Ctor) : Prop :=
  forall n t, JsMap.get n scope = Some t ->
    t = getToken n scopeKey /\ isRegistered c (TSymbol t) = true
    /\ JsMap.has n classes = true.

Definition scopesOk (c : DependencyContainer) (kind : string)
    (scopes : JsMap.t string (JsMap.t string symbol))
    (classesMap : JsMap.t string (JsMap.t string Ctor)) : Prop :=
  forall sel scope, JsMap.get sel scopes = Some scope ->
    exists classes, JsMap.get sel classesMap = Some classes
      /\ tableOk c (kind ++ sel) scope classes.

Record Inv (w : World) : Prop := {
  inv_regs : regsOk (nextRef w) (container (engine w));
  inv_root : tableOk (container (engine w)) "root"
               (rootScope (engine w)) (rootClasses (engine w));
  inv_router : scopesOk (container (engine w)) "router:"
                 (routerScopes (engine w)) (routerClasses (engine w));
  inv_component : scopesOk (container (engine w)) "component:"
                    (componentScopes (engine w)) (componentClasses (engine w))
}.

(** ** Sample programs *)

Definition Logger : Ctor := {| name := "Logger"; ctor_id := 1 |}.
Definition Config : Ctor := {| name := "Config"; ctor_id := 2 |}.
Definition Shared : Ctor := {| name := "Shared"; ctor_id := 3 |}.


(** [Logger] provided at root, by the router ["main-nav-router"] and by the
    component ["home-screen"]. *)
Definition threeScopes : World :=
  run getInstance
    [CallSetupRoot Logger;
     CallSetupRouter [ByName "HomeScreen"] [Logger] "main-nav-router";
     CallSetupComponent "home-screen" [Logger]].

(** Router ["R2"] is a member of router ["R1"]; only ["R1"] provides [Config]. *)
Definition nestedRouters : World :=
  run getInstance
    [CallSetupRouter [ByName "R2"] [Config] "R1";
     CallSetupRouter [] [] "R2"].

(** [provided scopes selector Providers]: the table of [selector] has an
    entry for the name of every provider of the list. *)
Definition provided (scopes : JsMap.t string (JsMap.t string symbol)) (selector : string)
    (Providers : list Ctor) : bool :=
  forallb (fun P => match scopedToken scopes selector (name P) with
                    | Some _ => true
                    | None => false
                    end) Providers.

(** ** The statements about the lookup order *)

(** [resolvesThrough w className cs rs ccn t]: the call does what resolving
    the scope token [t] in the container does, and that returns an instance
    the container then holds for [t]: the instance of the scope of [t]. *)
Definition resolvesThrough (w : World) (className : string)
    (cs rs ccn : option string) (t : symbol) : Prop :=
  resolve w className cs rs ccn = resolveToken w (TSymbol t)
  /\ exists w' v, resolveToken w (TSymbol t) = (w', Returned (Some v))
       /\ holds (container (engine w')) (TSymbol t) v.

(** Component over router over root, for a name present in the component
    table of [cs], the router table of [rs] and the root table. *)
Definition favorsInnerScopes (w : World) (className cs rs : string) : Prop :=
  forall tc tr t0,
    scopedToken (componentScopes (engine w)) cs className = Some tc ->
    scopedToken (routerScopes (engine w)) rs className = Some tr ->
    JsMap.get className (rootScope (engine w)) = Some t0 ->
    (forall ccn, resolvesThrough w className (Some cs) (Some rs) ccn tc)
    /\ (forall ccn, resolvesThrough w className None (Some rs) ccn tr)
    /\ resolvesThrough w className None None None t0.

(** The name is in no table the call can reach: the component table of a
    given component selector, the router table of a given router selector,
    the router table of the owner's router, the root table. *)
Definition unprovided (this : DependencyManagement) (className : string)
    (cs rs ccn : option string) : Prop :=
  (forall sel, truthy cs = Some sel ->
     scopedToken (componentScopes this) sel className = None)
  /\ (forall sel, truthy rs = Some sel ->
        scopedToken (routerScopes this) sel className = None)
  /\ (forall sel, truthy (parentSelector this ccn) = Some sel ->
        scopedToken (routerScopes this) sel className = None)
  /\ JsMap.get className (rootScope this) = None.




(** The engine after [resetScope('root')] in a fresh process. *)
Definition afterReset : World :=
  run getInstance [CallResetScope ScopeRoot None].

(** [Logger] provided by component ["A"] only. *)
Definition onlyInA : World := run getInstance [CallSetupComponent "A" [Logger]].

(** The token [resolve] reaches, computed from the tables alone (every table
    token being registered). *)
Definition tableTarget (root : JsMap.t string symbol)
    (routers components : JsMap.t string (JsMap.t string symbol))
    (membership : JsMap.t string string)
    (className : string) (cs rs ccn : option string) : option InjectionToken :=
  if className =? reservedName then Some (TString reservedName)
  else
    let parent :=
      match truthy ccn with
      | Some n => JsMap.get n membership
      | None => None
      end in
    option_map TSymbol
      (firstSome
         (match truthy cs with
          | Some sel => scopedToken components sel className
          | None => None
          end)
      (firstSome
         (match truthy rs with
          | Some sel => scopedToken routers sel className
          | None => None
          end)
      (firstSome
         (match truthy parent with
          | Some sel =>
              if option_string_eqb parent rs then None
              else scopedToken routers sel className
          | None => None
          end)
         (JsMap.get className root)))).

(** How a token is currently registered: provider and lifecycle. *)
Definition registeredAs (c : DependencyContainer) (token : InjectionToken)
  : option (Provider * Lifecycle) :=
  option_map (fun r => (provider r, lifecycle r)) (getRegistration c token).


(** [Logger] provided at root, by router ["r"] and by the component whose
    selector is the empty string. *)
Definition emptySelector : World :=
  run getInstance
    [CallSetupRoot Logger;
     CallSetupRouter [] [Logger] "r";
     CallSetupComponent "" [Logger]].

(** ** The remaining accessors of the engine *)

Definition getCurrentSelector (this : DependencyManagement) : option string :=
  currentSelector this.

Definition getCurrentRouterSelector (this : DependencyManagement) : option string :=
  currentRouterSelector this.

Definition getRootContainer (this : DependencyManagement) : DependencyContainer :=
  container this.

(** [get root()] *)
Definition root (this : DependencyManagement) : DependencyContainer := container this.

Definition getComponentContainer (this : DependencyManagement) (selector : string)
  : option DependencyContainer :=
  if negb (JsMap.has selector (componentScopes this)) then None
  else Some (container this).

(** The legacy map a getter builds: every key of [scopes] mapped to the one
    container. *)
Definition legacyMap {V : Type} (scopes : JsMap.t string V) (c : DependencyContainer)
  : JsMap.t string DependencyContainer :=
  fold_left (fun legacy selector => JsMap.set selector c legacy)
            (JsMap.keys scopes) JsMap.empty.

(** [get component()] *)
Definition component (this : DependencyManagement) : JsMap.t string DependencyContainer :=
  legacyMap (componentScopes this) (container this).

Definition fetchFromRouterContainer (this : DependencyManagement) (Entity : Ctor)
  : option DependencyContainer :=
  match truthy (getRouterForComponent this (name Entity)) with
  | Some routerSelector =>
      if JsMap.has routerSelector (routerScopes this) then Some (container this)
      else None
  | None => None
  end.

Definition getRouterContainer (this : DependencyManagement) (selector : string)
  : option DependencyContainer :=
  if negb (JsMap.has selector (routerScopes this)) then None
  else Some (container this).

(** [get router()] *)
Definition router (this : DependencyManagement) : JsMap.t string DependencyContainer :=
  legacyMap (routerScopes this) (container this).

(** ** The [Injectable] decorator *)



(** ** Further notions for the statements *)


(** Whether a component reference of the list carries the name [n]. *)
Definition listsComponent (Components : list ComponentRef) (n : string) : bool :=
  existsb (fun Component => componentNameOf Component =? n) Components.


(** A token whose current registration a setup call cannot change: it is
    registered already, or it is a string token. *)
Definition settled (c : DependencyContainer) (token : InjectionToken) : Prop :=
  isRegistered c token = true \/ exists s, token = TString s.

(** No two scope tokens have the same cached instance. *)
Definition distinctInstances (c : DependencyContainer) : Prop :=
  forall t1 t2 r1 r2 v,
    getRegistration c (TSymbol t1) = Some r1 ->
    getRegistration c (TSymbol t2) = Some r2 ->
    instance r1 = Some v -> instance r2 = Some v -> t1 = t2.

(** Registrations of classes without cached instance. *)
Definition freshList (regs : list Registration) : Prop :=
  Forall (fun r => isValueProvider (provider r) = false /\ instance r = None) regs.

Definition freshRegistry (c : DependencyContainer) : Prop :=
  Forall (fun e => freshList (snd e)) (registry c).

(** ** The decorators' registries

    [Component.ts] and [Router.ts] keep, per module, a map from class name
    to the wrapped React component and the reverse map.  A React component
    and a class are function objects: a name and an identity, as [Ctor]
    has them.  The wrapper class a decoration creates (what
    [observer(ComponentWrapper)] returns) is passed in as the function
    object it is; its rendering and life cycle are outside this
    development. *)

Definition ctor_eqb (a b : Ctor) : bool :=
  (name a =? name b) && (ctor_id a =? ctor_id b)%nat.

#[export] Instance EqKey_Ctor : EqKey Ctor := {| key_eqb := ctor_eqb |}.

Module Decorators.

Inductive result (A : Type) : Type :=
| Ok (a : A)
| Throws (msg : string).

Arguments Ok {A} a.
Arguments Throws {A} msg.

Record Registries : Type := {
  componentRegistry : JsMap.t string Ctor;
  componentReverseRegistry : JsMap.t Ctor string;
  routerRegistry : JsMap.t string Ctor;
  routerReverseRegistry : JsMap.t Ctor string
}.

(** The registries when the two modules are loaded. *)
Definition noRegistries : Registries :=
  {| componentRegistry := JsMap.empty;
     componentReverseRegistry := JsMap.empty;
     routerRegistry := JsMap.empty;
     routerReverseRegistry := JsMap.empty |}.

Record ComponentParams : Type := {
  componentSelector : string;
  componentProviders : option (list Ctor)
}.

Record RouterParams : Type := {
  selector : string;
  components : list Ctor;
  providers : option (list Ctor)
}.

(** [Component(params)(Entity)]: the decoration stores the wrapped component
    under the name of the class, and the name under the wrapped component,
    and returns the class. *)
Definition Component (params : ComponentParams) (reg : Registries)
    (wrappedComponent Entity : Ctor) : Registries * Ctor :=
  ({| componentRegistry := JsMap.set (name Entity) wrappedComponent (componentRegistry reg);
      componentReverseRegistry :=
        JsMap.set wrappedComponent (name Entity) (componentReverseRegistry reg);
      routerRegistry := routerRegistry reg;
      routerReverseRegistry := routerReverseRegistry reg |},
   Entity).

(** [Component.$provider(Entity)], also [Component(params).$provider(Entity)]. *)
Definition ComponentProvider (reg : Registries) (Entity : Ctor) : result Ctor :=
  match JsMap.get (name Entity) (componentRegistry reg) with
  | Some component => Ok component
  | None =>
      Throws ("Component " ++ name Entity
              ++ " not found. Make sure to apply @Component decorator first.")
  end.

Definition getComponentClassName (reg : Registries) (component : Ctor) : option string :=
  JsMap.get component (componentReverseRegistry reg).

Definition getRouterClassName (reg : Registries) (router : Ctor) : option string :=
  JsMap.get router (routerReverseRegistry reg).

(** The name [Router] tracks an element of [params.components] under: the
    class name of a registered component, else of a registered router, else
    the element's own name, unless that is empty. *)
Definition componentClassName (reg : Registries) (comp : Ctor) : option string :=
  match truthy (getComponentClassName reg comp) with
  | Some componentClassName => Some componentClassName
  | None =>
      match truthy (getRouterClassName reg comp) with
      | Some routerClassName => Some routerClassName
      | None => truthy (Some (name comp))
      end
  end.

(** [params.components.map(...).filter(name => name !== undefined)] *)
Definition componentClassNames (reg : Registries) (comps : list Ctor) : list string :=
  flat_map (fun comp => match componentClassName reg comp with
                        | Some n => [n]
                        | None => []
                        end) comps.

(** [params.providers || []] *)
Definition providersOf (params : RouterParams) : list Ctor :=
  match providers params with Some ps => ps | None => [] end.

(** [Router(params)(Entity)] on the engine [getInstance()] returns: the
    router scope is set up with the tracked names and with the providers
    followed by the router class itself, then the wrapped component is
    stored in the router registries.  An exception of the setup leaves the
    registries as they are. *)
Definition Router (params : RouterParams) (reg : Registries) (this : DependencyManagement)
    (wrappedComponent Entity : Ctor) : Registries * DependencyManagement * result Ctor :=
  let names := componentClassNames reg (components params) in
  let '(this', o) :=
    setupRouterContainer this (map ByName names) (providersOf params ++ [Entity])
      (selector params) in
  match o with
  | Thrown msg => (reg, this', Throws msg)
  | Returned _ =>
      ({| componentRegistry := componentRegistry reg;
          componentReverseRegistry := componentReverseRegistry reg;
          routerRegistry := JsMap.set (name Entity) wrappedComponent (routerRegistry reg);
          routerReverseRegistry :=
            JsMap.set wrappedComponent (name Entity) (routerReverseRegistry reg) |},
       this', Ok Entity)
  end.

(** [Router.$provider(Entity)] *)
Definition RouterProvider (reg : Registries) (Entity : Ctor) : result Ctor :=
  match JsMap.get (name Entity) (routerRegistry reg) with
  | Some component => Ok component
  | None =>
      Throws ("Router " ++ name Entity
              ++ " not found. Make sure to apply @Router decorator first.")
  end.

End Decorators.

(** A component class, the wrapper its decoration made, and a router class
    with its wrapper. *)
Definition HomeScreen : Ctor := {| name := "HomeScreen"; ctor_id := 10 |}.
Definition HomeScreenWrapper : Ctor := {| name := "ComponentWrapper"; ctor_id := 11 |}.
Definition MainNavRouter : Ctor := {| name := "MainNavRouter"; ctor_id := 12 |}.
Definition MainNavRouterWrapper : Ctor := {| name := "RouterWrapper"; ctor_id := 13 |}.

(** ** A second invariant: entries, classes and instances *)

(** Every entry of a scope table, as [entries()] lists them, holds the token
    derived for its name. *)
Definition entriesDerived (scopeKey : string) (scope : JsMap.t string symbol) : Prop :=
  forall n t, In (n, t) (JsMap.entries scope) -> t = getToken n scopeKey.

Definition scopesDerived (kind : string)
    (scopes : JsMap.t string (JsMap.t string symbol)) : Prop :=
  forall sel scope, In (sel, scope) (JsMap.entries scopes) ->
    entriesDerived (kind ++ sel) scope.

(** A cached instance is an object of the class of its registration. *)
Definition instancesMatch (c : DependencyContainer) : Prop :=
  forall token r v,
    In r (registrationsOf c token) -> instance r = Some v ->
    exists ref cls, provider r = UseClass cls /\ v = VObject ref cls.

(** The root class table has the names of the root table, and every
    registration of a root token is of the class that table has for the
    name. *)
Definition rootClassesOk (this : DependencyManagement) : Prop :=
  (forall n, JsMap.has n (rootClasses this) = JsMap.has n (rootScope this))
  /\ forall n r,
       In r (registrationsOf (container this) (TSymbol (getToken n "root"))) ->
       exists P, JsMap.get n (rootClasses this) = Some P /\ provider r = UseClass P.

Record ClassInv (this : DependencyManagement) : Prop := {
  cinv_root : entriesDerived "root" (rootScope this);
  cinv_router : scopesDerived "router:" (routerScopes this);
  cinv_component : scopesDerived "component:" (componentScopes this);
  cinv_instances : instancesMatch (container this);
  cinv_classes : rootClassesOk this
}.

(** Two classes of one name. *)
Definition AuthService : Ctor := {| name := "AuthService"; ctor_id := 20 |}.
Definition OtherAuthService : Ctor := {| name := "AuthService"; ctor_id := 21 |}.

Create HintDb engine.

(** * Properties *)

(** ** Keys *)

#[export] Instance EqKeyLaws_string : EqKeyLaws string.
Proof. constructor. exact String.eqb_eq. Qed.

Lemma token_eqb_eq (a b : InjectionToken) : token_eqb a b = true <-> a = b.
Proof.
  destruct a as [x|[x]], b as [y|[y]]; simpl; try (split; discriminate).
  - rewrite String.eqb_eq. split; congruence.
  - rewrite String.eqb_eq. split; congruence.
Qed.

#[export] Instance EqKeyLaws_token : EqKeyLaws InjectionToken.
Proof. constructor. exact token_eqb_eq. Qed.

Section KeyFacts.
Context {K : Type} `{EqKeyLaws K}.

Lemma key_eqb_refl (a : K) : key_eqb a a = true.
Proof. apply key_eqb_eq. reflexivity. Qed.

Lemma key_eqb_neq (a b : K) : a <> b -> key_eqb a b = false.
Proof.
  intros Hab. destruct (key_eqb a b) eqn:E; [|reflexivity].
  apply key_eqb_eq in E. contradiction.
Qed.

Lemma key_eqb_false (a b : K) : key_eqb a b = false -> a <> b.
Proof. intros E Hab. subst b. rewrite key_eqb_refl in E. discriminate. Qed.

Lemma key_eq_dec (a b : K) : {a = b} + {a <> b}.
Proof.
  destruct (key_eqb a b) eqn:E.
  - left. apply key_eqb_eq. exact E.
  - right. apply key_eqb_false. exact E.
Qed.

End KeyFacts.

(** ** The Map operations *)

Section JsMapFacts.
Context {K V : Type} `{EqKeyLaws K}.
Implicit Types (k : K) (v : V) (m : JsMap.t K V).

Lemma get_set_same k v m : JsMap.get k (JsMap.set k v m) = Some v.
Proof.
  induction m as [|[k' v'] m IH]; simpl.
  - rewrite key_eqb_refl. reflexivity.
  - destruct (key_eqb k k') eqn:E; simpl; rewrite E; [reflexivity | exact IH].
Qed.

Lemma get_set_other k k' v m : k <> k' -> JsMap.get k' (JsMap.set k v m) = JsMap.get k' m.
Proof.
  intros Hne. induction m as [|[k0 v0] m IH]; simpl.
  - rewrite (key_eqb_neq k' k) by congruence. reflexivity.
  - destruct (key_eqb k k0) eqn:E; simpl.
    + apply key_eqb_eq in E. subst k0.
      rewrite (key_eqb_neq k' k) by congruence. reflexivity.
    + rewrite IH. reflexivity.
Qed.

Lemma get_set k k' v m :
  JsMap.get k' (JsMap.set k v m) = if key_eqb k k' then Some v else JsMap.get k' m.
Proof.
  destruct (key_eqb k k') eqn:E.
  - apply key_eqb_eq in E. subst k'. apply get_set_same.
  - apply get_set_other. apply key_eqb_false. exact E.
Qed.

Lemma has_set_same k v m : JsMap.has k (JsMap.set k v m) = true.
Proof. unfold JsMap.has. rewrite get_set_same. reflexivity. Qed.

Lemma has_set_mono k k' v m : JsMap.has k' m = true -> JsMap.has k' (JsMap.set k v m) = true.
Proof.
  unfold JsMap.has. rewrite get_set. destruct (key_eqb k k'); [reflexivity | tauto].
Qed.

Lemma has_true_get k m : JsMap.has k m = true <-> exists v, JsMap.get k m = Some v.
Proof.
  unfold JsMap.has. destruct (JsMap.get k m) as [v|].
  - split; [eauto | reflexivity].
  - split; [discriminate | intros [v Hv]; discriminate].
Qed.



Lemma set_set k v v' m : JsMap.set k v (JsMap.set k v' m) = JsMap.set k v m.
Proof.
  induction m as [|[k' v0] m IH]; simpl.
  - rewrite key_eqb_refl. reflexivity.
  - destruct (key_eqb k k') eqn:E; simpl; rewrite E; [reflexivity|].
    rewrite IH. reflexivity.
Qed.

Lemma get_In k v m : JsMap.get k m = Some v -> In (k, v) (JsMap.entries m).
Proof.
  unfold JsMap.entries. induction m as [|[k' v'] m IH]; simpl; [discriminate|].
  destruct (key_eqb k k') eqn:E.
  - intros [= ->]. apply key_eqb_eq in E. subst k'. left. reflexivity.
  - intros Hg. right. apply IH. exact Hg.
Qed.

Lemma get_map_values {W : Type} (f : V -> W) k m :
  JsMap.get k (map (fun e => (fst e, f (snd e))) m) = option_map f (JsMap.get k m).
Proof.
  induction m as [|[k' v'] m IH]; simpl; [reflexivity|].
  destruct (key_eqb k k'); [reflexivity | exact IH].
Qed.

End JsMapFacts.

(** ** Strings *)

Lemma list_ascii_of_string_append (a b : string) :
  list_ascii_of_string (a ++ b)%string = list_ascii_of_string a ++ list_ascii_of_string b.
Proof. induction a as [|c a IH]; simpl; [reflexivity | rewrite IH; reflexivity]. Qed.

Lemma string_append_inv_tail (a b c : string) :
  (a ++ c)%string = (b ++ c)%string -> a = b.
Proof.
  intros Heq. apply (f_equal list_ascii_of_string) in Heq.
  rewrite !list_ascii_of_string_append in Heq.
  apply app_inv_tail in Heq.
  apply (f_equal string_of_list_ascii) in Heq.
  rewrite !string_of_list_ascii_of_string in Heq. exact Heq.
Qed.

Lemma string_append_inv_head (a b c : string) :
  (a ++ b)%string = (a ++ c)%string -> b = c.
Proof. induction a as [|x a IH]; simpl; [tauto | intros [= Heq]; auto]. Qed.

Lemma getToken_scope_injective (className scope1 scope2 : string) :
  getToken className scope1 = getToken className scope2 -> scope1 = scope2.
Proof.
  unfold getToken. intros [= Heq].
  apply string_append_inv_tail in Heq. exact Heq.
Qed.

(** ** The container, seen through the registrations of each token *)

Lemma registrationsOf_createChildContainer token :
  registrationsOf createChildContainer token = [].
Proof. reflexivity. Qed.

Lemma registrationsOf_register c token p l token' :
  registrationsOf (register c token p l) token' =
  if key_eqb token token' then registrationsOf c token ++ [newRegistration p l]
  else registrationsOf c token'.
Proof.
  unfold registrationsOf at 1. unfold register. cbn [registry].
  rewrite get_set. destruct (key_eqb token token'); reflexivity.
Qed.

Lemma registrationsOf_cacheInstance c token v token' :
  registrationsOf (cacheInstance c token v) token' =
  if key_eqb token token' then setLastInstance v (registrationsOf c token)
  else registrationsOf c token'.
Proof.
  unfold registrationsOf at 1. unfold cacheInstance. cbn [registry].
  rewrite get_set. destruct (key_eqb token token'); reflexivity.
Qed.

Lemma registrationsOf_clearInstances c token :
  registrationsOf (clearInstances c) token =
  map clearRegistration
    (filter (fun r => negb (isValueProvider (provider r))) (registrationsOf c token)).
Proof.
  unfold registrationsOf, clearInstances. cbn [registry].
  rewrite (get_map_values
             (fun regs => map clearRegistration
                (filter (fun r => negb (isValueProvider (provider r))) regs))).
  destruct (JsMap.get token (registry c)); reflexivity.
Qed.

Lemma last_map_Some_app {A : Type} (l : list A) (x : A) :
  last (map Some (l ++ [x])) None = Some x.
Proof.
  rewrite map_app. simpl. apply last_last.
Qed.

Lemma last_map_Some_nil {A : Type} (l : list A) :
  last (map Some l) None = None <-> l = [].
Proof.
  split; [|intros ->; reflexivity].
  destruct l as [|a l] using rev_ind; [reflexivity|].
  rewrite last_map_Some_app. discriminate.
Qed.

Lemma last_map_Some_In {A : Type} (l : list A) (x : A) :
  last (map Some l) None = Some x -> In x l.
Proof.
  destruct l as [|a l _] using rev_ind; [discriminate|].
  rewrite last_map_Some_app. intros [= ->]. apply in_or_app. right. left. reflexivity.
Qed.

Lemma isRegistered_getRegistration c token :
  isRegistered c token = true <-> exists reg, getRegistration c token = Some reg.
Proof.
  unfold isRegistered, getRegistration.
  destruct (registrationsOf c token) as [|r regs] eqn:E.
  - split; [discriminate | intros [reg Hreg]; discriminate].
  - split; [|reflexivity]. intros _.
    destruct (last (map Some (r :: regs)) None) as [reg|] eqn:L; [eauto|].
    apply last_map_Some_nil in L. discriminate.
Qed.

Lemma isRegistered_false_getRegistration c token :
  isRegistered c token = false <-> getRegistration c token = None.
Proof.
  unfold isRegistered, getRegistration.
  destruct (registrationsOf c token) as [|r regs] eqn:E.
  - split; reflexivity.
  - split; [discriminate|]. intros L. apply last_map_Some_nil in L. discriminate.
Qed.

Lemma setLastInstance_app v regs r :
  setLastInstance v (regs ++ [r]) = regs ++ [withInstance v r].
Proof.
  induction regs as [|a regs IH]; [reflexivity|].
  simpl app. simpl setLastInstance. rewrite IH.
  destruct (regs ++ [r]) eqn:E; [|reflexivity].
  destruct regs; discriminate.
Qed.

Lemma setLastInstance_nil v regs : setLastInstance v regs = [] <-> regs = [].
Proof.
  destruct regs as [|a regs _] using rev_ind; [tauto|].
  rewrite setLastInstance_app. split; intros E; destruct regs; discriminate.
Qed.

Lemma getRegistration_register c token p l token' :
  getRegistration (register c token p l) token' =
  if key_eqb token token' then Some (newRegistration p l) else getRegistration c token'.
Proof.
  unfold getRegistration. rewrite registrationsOf_register.
  destruct (key_eqb token token'); [apply last_map_Some_app | reflexivity].
Qed.

Lemma getRegistration_cacheInstance c token v token' :
  getRegistration (cacheInstance c token v) token' =
  if key_eqb token token' then option_map (withInstance v) (getRegistration c token)
  else getRegistration c token'.
Proof.
  unfold getRegistration. rewrite registrationsOf_cacheInstance.
  destruct (key_eqb token token'); [|reflexivity].
  destruct (registrationsOf c token) as [|a regs _] using rev_ind; [reflexivity|].
  rewrite setLastInstance_app, !last_map_Some_app. reflexivity.
Qed.

Lemma isRegistered_register c token p l token' :
  isRegistered (register c token p l) token' =
  if key_eqb token token' then true else isRegistered c token'.
Proof.
  unfold isRegistered. rewrite registrationsOf_register.
  destruct (key_eqb token token'); [|reflexivity].
  destruct (registrationsOf c token); reflexivity.
Qed.

Lemma isRegistered_cacheInstance c token v token' :
  isRegistered (cacheInstance c token v) token' = isRegistered c token'.
Proof.
  unfold isRegistered. rewrite registrationsOf_cacheInstance.
  destruct (key_eqb token token') eqn:E; [|reflexivity].
  apply key_eqb_eq in E. subst token'.
  destruct (registrationsOf c token) as [|a regs _] using rev_ind; [reflexivity|].
  rewrite setLastInstance_app. destruct regs; reflexivity.
Qed.

Lemma extends_refl c : extends c c.
Proof. intros token Hreg. exact Hreg. Qed.

Lemma extends_trans c1 c2 c3 : extends c1 c2 -> extends c2 c3 -> extends c1 c3.
Proof. intros H12 H23 token Hreg. auto. Qed.

Lemma extends_register c token p l : extends c (register c token p l).
Proof.
  intros t' Hreg. rewrite isRegistered_register.
  destruct (key_eqb token (TSymbol t')); [reflexivity | exact Hreg].
Qed.

Lemma extends_registerIfAbsent c t P : extends c (registerIfAbsent c t P).
Proof.
  unfold registerIfAbsent. destruct (isRegistered c (TSymbol t)).
  - apply extends_refl.
  - apply extends_register.
Qed.

Lemma isRegistered_registerIfAbsent c t P :
  isRegistered (registerIfAbsent c t P) (TSymbol t) = true.
Proof.
  unfold registerIfAbsent. destruct (isRegistered c (TSymbol t)) eqn:E; [exact E|].
  rewrite isRegistered_register, key_eqb_refl. reflexivity.
Qed.

Lemma extends_cacheInstance c token v : extends c (cacheInstance c token v).
Proof. intros token' Hreg. rewrite isRegistered_cacheInstance. exact Hreg. Qed.

#[local] Hint Resolve extends_refl extends_register extends_registerIfAbsent
  extends_cacheInstance : engine.

(** ** The invariant is kept by every call *)

Lemma tableOk_extends c c' key scope classes :
  extends c c' -> tableOk c key scope classes -> tableOk c' key scope classes.
Proof.
  intros Hext Hok n t Hget. destruct (Hok n t Hget) as (Ht & Hreg & Hcls).
  repeat split; auto.
Qed.

Lemma scopesOk_extends c c' kind scopes classesMap :
  extends c c' -> scopesOk c kind scopes classesMap -> scopesOk c' kind scopes classesMap.
Proof.
  intros Hext Hok sel scope Hget. destruct (Hok sel scope Hget) as (classes & Hcls & Htab).
  exists classes. split; [exact Hcls|]. eapply tableOk_extends; eauto.
Qed.

Lemma instanceBelow_mono next next' o :
  next <= next' -> instanceBelow next o -> instanceBelow next' o.
Proof. destruct o as [[|r cls]|]; simpl; intros; try lia; auto. Qed.

Lemma regOk_mono next next' token reg :
  next <= next' -> regOk next token reg -> regOk next' token reg.
Proof.
  intros Hle [Hp Hi]. split; [exact Hp|]. eapply instanceBelow_mono; eauto.
Qed.

Lemma regsOk_mono next next' c : next <= next' -> regsOk next c -> regsOk next' c.
Proof.
  intros Hle Hok token. eapply Forall_impl; [|apply Hok].
  intros reg. apply regOk_mono. exact Hle.
Qed.

Lemma regsOk_register_class next c t P :
  regsOk next c -> regsOk next (register c (TSymbol t) (UseClass P) Singleton).
Proof.
  intros Hok token. rewrite registrationsOf_register.
  destruct (key_eqb (TSymbol t) token) eqn:E; [|apply Hok].
  apply key_eqb_eq in E. subst token.
  apply Forall_app. split; [apply Hok|].
  constructor; [|constructor]. split; simpl; eauto.
Qed.

Lemma regsOk_registerIfAbsent next c t P :
  regsOk next c -> regsOk next (registerIfAbsent c t P).
Proof.
  unfold registerIfAbsent. destruct (isRegistered c (TSymbol t)); [tauto|].
  apply regsOk_register_class.
Qed.

Lemma Forall_setLastInstance (Q : Registration -> Prop) v regs :
  Forall Q regs -> (forall r, Q r -> Q (withInstance v r)) ->
  Forall Q (setLastInstance v regs).
Proof.
  intros Hall Hq. destruct regs as [|a regs _] using rev_ind; [constructor|].
  rewrite setLastInstance_app. apply Forall_app in Hall. destruct Hall as [H1 H2].
  apply Forall_app. split; [exact H1|].
  inversion H2; subst. constructor; [auto | constructor].
Qed.

Lemma regsOk_cacheInstance next c token cls :
  regsOk next c -> regsOk (S next) (cacheInstance c token (VObject next cls)).
Proof.
  intros Hok token'. rewrite registrationsOf_cacheInstance.
  destruct (key_eqb token token') eqn:E.
  - apply key_eqb_eq in E. subst token'.
    apply Forall_setLastInstance.
    + eapply Forall_impl; [|apply Hok]. intros reg. apply regOk_mono. lia.
    + intros r [Hp _]. split; [exact Hp | simpl; lia].
  - eapply Forall_impl; [|apply Hok]. intros reg. apply regOk_mono. lia.
Qed.

Lemma registerProvider_ok key next scope classes c P scope' classes' c' :
  registerProvider key (scope, classes, c) P = (scope', classes', c') ->
  tableOk c key scope classes -> regsOk next c ->
  tableOk c' key scope' classes' /\ extends c c' /\ regsOk next c'.
Proof.
  unfold registerProvider. destruct (JsMap.has (name P) scope) eqn:Hhas.
  - intros [= <- <- <-] Htab Hregs. auto with engine.
  - intros [= <- <- <-] Htab Hregs. split; [|split].
    + intros n t. rewrite get_set.
      destruct (key_eqb (name P) n) eqn:E.
      * apply key_eqb_eq in E. subst n. intros [= <-].
        split; [reflexivity|]. split; [apply isRegistered_registerIfAbsent|].
        apply has_set_same.
      * intros Hget. destruct (Htab n t Hget) as (Ht & Hreg & Hcls).
        split; [exact Ht|]. split; [apply extends_registerIfAbsent; exact Hreg|].
        apply has_set_mono. exact Hcls.
    + apply extends_registerIfAbsent.
    + apply regsOk_registerIfAbsent. exact Hregs.
Qed.

Lemma registerProviders_ok key next Ps : forall scope classes c scope' classes' c',
  registerProviders key Ps (scope, classes, c) = (scope', classes', c') ->
  tableOk c key scope classes -> regsOk next c ->
  tableOk c' key scope' classes' /\ extends c c' /\ regsOk next c'.
Proof.
  unfold registerProviders.
  induction Ps as [|P Ps IH]; intros scope classes c scope' classes' c'; cbn [fold_left].
  - intros [= <- <- <-]. auto with engine.
  - destruct (registerProvider key (scope, classes, c) P) as [[scope1 classes1] c1] eqn:E1.
    intros Hfold Htab Hregs.
    destruct (registerProvider_ok _ _ _ _ _ _ _ _ _ E1 Htab Hregs) as (Htab1 & Hext1 & Hregs1).
    destruct (IH _ _ _ _ _ _ Hfold Htab1 Hregs1) as (Htab2 & Hext2 & Hregs2).
    split; [exact Htab2|]. split; [eapply extends_trans; eauto | exact Hregs2].
Qed.

Lemma tableOk_empty c key : tableOk c key JsMap.empty JsMap.empty.
Proof. intros n t Hget. discriminate. Qed.

Lemma scopesOk_empty c kind : scopesOk c kind JsMap.empty JsMap.empty.
Proof. intros sel scope Hget. discriminate. Qed.

Lemma scopesOk_set c kind scopes classesMap sel scope classes :
  scopesOk c kind scopes classesMap ->
  tableOk c (kind ++ sel) scope classes ->
  scopesOk c kind (JsMap.set sel scope scopes) (JsMap.set sel classes classesMap).
Proof.
  intros Hok Htab sel' scope'. rewrite !get_set.
  destruct (key_eqb sel sel') eqn:E.
  - apply key_eqb_eq in E. subst sel'. intros [= <-]. eauto.
  - apply Hok.
Qed.

Lemma scopesOk_lookup c kind scopes classesMap sel scope :
  scopesOk c kind scopes classesMap -> JsMap.get sel scopes = Some scope ->
  exists classes, JsMap.get sel classesMap = Some classes
    /\ tableOk c (kind ++ sel) scope classes.
Proof. intros Hok Hget. apply Hok. exact Hget. Qed.

Lemma Inv_getInstance : Inv getInstance.
Proof.
  constructor; simpl.
  - intros token. unfold newDependencyManagement; cbn [container].
    rewrite registrationsOf_register.
    destruct (key_eqb (TString reservedName) token) eqn:E.
    + apply key_eqb_eq in E. subst token. simpl.
      constructor; [|constructor]. split; simpl; eauto.
    + constructor.
  - apply tableOk_empty.
  - apply scopesOk_empty.
  - apply scopesOk_empty.
Qed.

Lemma Inv_with_context w s r :
  Inv w -> Inv (onEngine w (with_context s r (engine w))).
Proof. intros [H1 H2 H3 H4]. constructor; assumption. Qed.

Lemma Inv_setupRootContainer w Entity :
  Inv w -> Inv (onEngine w (setupRootContainer (engine w) Entity)).
Proof.
  intros HI. pose proof HI as [H1 H2 H3 H4]. unfold setupRootContainer.
  destruct (JsMap.has (name Entity) (rootScope (engine w))) eqn:Hhas.
  - destruct w as [this next]. exact HI.
  - pose proof (extends_registerIfAbsent (container (engine w))
                  (getToken (name Entity) "root") Entity) as Hext.
    constructor; cbn.
    + apply regsOk_registerIfAbsent. exact H1.
    + intros n t. rewrite get_set.
      destruct (key_eqb (name Entity) n) eqn:E.
      * apply key_eqb_eq in E. subst n. intros [= <-].
        split; [reflexivity|]. split; [apply isRegistered_registerIfAbsent|].
        apply has_set_same.
      * intros Hget. destruct (H2 n t Hget) as (Ht & Hreg & Hcls).
        split; [exact Ht|]. split; [apply Hext; exact Hreg|].
        apply has_set_mono. exact Hcls.
    + eapply scopesOk_extends; eauto.
    + eapply scopesOk_extends; eauto.
Qed.

Lemma ensureComponentScope_spec w selector :
  Inv w ->
  Inv (onEngine w (ensureComponentScope (engine w) selector)) /\
  exists scope classes,
    JsMap.get selector (componentScopes (ensureComponentScope (engine w) selector)) = Some scope
    /\ JsMap.get selector (componentClasses (ensureComponentScope (engine w) selector)) = Some classes
    /\ tableOk (container (engine w)) ("component:" ++ selector) scope classes.
Proof.
  intros HI. pose proof HI as [H1 H2 H3 H4]. unfold ensureComponentScope.
  destruct (JsMap.has selector (componentScopes (engine w))) eqn:Hhas.
  - split; [destruct w; exact HI|].
    apply has_true_get in Hhas. destruct Hhas as [scope Hscope].
    destruct (H4 _ _ Hscope) as (classes & Hcls & Htab). eauto.
  - split.
    + constructor; cbn; try assumption.
      apply scopesOk_set; [assumption | apply tableOk_empty].
    + exists JsMap.empty, JsMap.empty. cbn. rewrite !get_set_same.
      split; [reflexivity|]. split; [reflexivity|]. apply tableOk_empty.
Qed.

Lemma ensureComponentScope_container this selector :
  container (ensureComponentScope this selector) = container this.
Proof.
  unfold ensureComponentScope. destruct (JsMap.has selector (componentScopes this)); reflexivity.
Qed.

Lemma setupComponentContainer_spec w selector Providers :
  Inv w ->
  Inv (onEngine w (fst (setupComponentContainer (engine w) selector Providers)))
  /\ snd (setupComponentContainer (engine w) selector Providers) = Returned None.
Proof.
  intros HI. destruct (ensureComponentScope_spec w selector HI) as (HI1 & scope & classes & Hs & Hc & Htab).
  unfold setupComponentContainer. rewrite Hs, Hc.
  rewrite <- (ensureComponentScope_container (engine w) selector) in Htab.
  destruct (registerProviders _ Providers _) as [[scope' classes'] c'] eqn:E.
  destruct HI1 as [H1 H2 H3 H4]. cbn [onEngine engine nextRef] in *.
  destruct (registerProviders_ok _ _ _ _ _ _ _ _ _ E Htab H1) as (Htab' & Hext & Hregs').
  split; [|reflexivity]. cbn. constructor; cbn.
  - exact Hregs'.
  - eapply tableOk_extends; eauto.
  - eapply scopesOk_extends; eauto.
  - apply scopesOk_set; [eapply scopesOk_extends; eauto | exact Htab'].
Qed.

Lemma ensureRouterScope_spec w selector :
  Inv w ->
  Inv (onEngine w (ensureRouterScope (engine w) selector)) /\
  exists scope classes,
    JsMap.get selector (routerScopes (ensureRouterScope (engine w) selector)) = Some scope
    /\ JsMap.get selector (routerClasses (ensureRouterScope (engine w) selector)) = Some classes
    /\ tableOk (container (engine w)) ("router:" ++ selector) scope classes.
Proof.
  intros HI. pose proof HI as [H1 H2 H3 H4]. unfold ensureRouterScope.
  destruct (JsMap.has selector (routerScopes (engine w))) eqn:Hhas.
  - split; [destruct w; exact HI|].
    apply has_true_get in Hhas. destruct Hhas as [scope Hscope].
    destruct (H3 _ _ Hscope) as (classes & Hcls & Htab). eauto.
  - split.
    + constructor; cbn; try assumption.
      apply scopesOk_set; [assumption | apply tableOk_empty].
    + exists JsMap.empty, JsMap.empty. cbn. rewrite !get_set_same.
      split; [reflexivity|]. split; [reflexivity|]. apply tableOk_empty.
Qed.

Lemma ensureRouterScope_container this selector :
  container (ensureRouterScope this selector) = container this.
Proof.
  unfold ensureRouterScope. destruct (JsMap.has selector (routerScopes this)); reflexivity.
Qed.

Lemma setupRouterContainer_spec w Components Providers selector :
  Inv w ->
  Inv (onEngine w (fst (setupRouterContainer (engine w) Components Providers selector)))
  /\ snd (setupRouterContainer (engine w) Components Providers selector) = Returned None.
Proof.
  intros HI. destruct (ensureRouterScope_spec w selector HI) as (HI1 & scope & classes & Hs & Hc & Htab).
  unfold setupRouterContainer. rewrite Hs, Hc. cbn [with_membership container routerScopes routerClasses].
  rewrite <- (ensureRouterScope_container (engine w) selector) in Htab.
  destruct (registerProviders _ Providers _) as [[scope' classes'] c'] eqn:E.
  destruct HI1 as [H1 H2 H3 H4]. cbn [onEngine engine nextRef] in *.
  destruct (registerProviders_ok _ _ _ _ _ _ _ _ _ E Htab H1) as (Htab' & Hext & Hregs').
  split; [|reflexivity]. cbn. constructor; cbn.
  - exact Hregs'.
  - eapply tableOk_extends; eauto.
  - apply scopesOk_set; [eapply scopesOk_extends; eauto | exact Htab'].
  - eapply scopesOk_extends; eauto.
Qed.

(** [resolve] hands the token [resolveTarget] computes to the container, and
    answers [undefined] when there is none. *)
Lemma resolve_via_target w className cs rs ccn :
  resolve w className cs rs ccn =
  match resolveTarget (engine w) className cs rs ccn with
  | Some token => resolveToken w token
  | None => (w, Returned None)
  end.
Proof.
  unfold resolve, resolveTarget, componentLookup, routerLookup, parentLookup,
    parentSelector, rootLookup, firstSome.
  destruct (className =? reservedName); [reflexivity|].
  destruct (match truthy cs with Some _ => _ | None => _ end); [reflexivity|].
  destruct (match truthy rs with Some _ => _ | None => _ end); [reflexivity|].
  cbv zeta.
  destruct (match truthy (match truthy ccn with Some _ => _ | None => _ end)
            with Some _ => _ | None => _ end); [reflexivity|].
  destruct (registered (engine w) (JsMap.get className (rootScope (engine w))));
    reflexivity.
Qed.

Lemma with_container_same this : with_container (container this) this = this.
Proof. destruct this; reflexivity. Qed.

Lemma containerResolve_spec c next token c' next' r :
  containerResolve c next token = (c', next', r) ->
  regsOk next c ->
  regsOk next' c' /\ extends c c' /\ next <= next'.
Proof.
  unfold containerResolve. intros Hres Hok.
  destruct (getRegistration c token) as [reg|].
  2:{ injection Hres as <- <- <-. auto with engine. }
  destruct (provider reg) as [v|cls].
  { injection Hres as <- <- <-. auto with engine. }
  destruct (lifecycle reg).
  { injection Hres as <- <- <-. split; [|auto with engine].
    eapply regsOk_mono; [|exact Hok]. lia. }
  destruct (instance reg) as [v|].
  { injection Hres as <- <- <-. auto with engine. }
  injection Hres as <- <- <-. split; [|auto with engine].
  apply regsOk_cacheInstance. exact Hok.
Qed.

Lemma Inv_resolveToken w token : Inv w -> Inv (fst (resolveToken w token)).
Proof.
  intros [H1 H2 H3 H4]. unfold resolveToken.
  destruct (containerResolve _ _ token) as [[c' next'] r] eqn:E.
  destruct (containerResolve_spec _ _ _ _ _ _ E H1) as (Hregs & Hext & Hle).
  constructor; cbn.
  - exact Hregs.
  - eapply tableOk_extends; eauto.
  - eapply scopesOk_extends; eauto.
  - eapply scopesOk_extends; eauto.
Qed.

Lemma Inv_resolve w className cs rs ccn :
  Inv w -> Inv (fst (resolve w className cs rs ccn)).
Proof.
  intros HI. rewrite resolve_via_target.
  destruct (resolveTarget _ _ _ _ _); [apply Inv_resolveToken; exact HI | exact HI].
Qed.

(** *** Replaying the scope tables *)

Lemma reregisterScope_regsOk next scope classes : forall c,
  regsOk next c -> regsOk next (reregisterScope scope classes c).
Proof.
  unfold reregisterScope, JsMap.entries.
  induction scope as [|[n t] scope IH]; intros c Hok; cbn [fold_left]; [exact Hok|].
  apply IH. cbn [fst snd]. destruct (JsMap.get n classes); [|exact Hok].
  apply regsOk_register_class. exact Hok.
Qed.

Lemma reregisterScope_extends scope classes : forall c,
  extends c (reregisterScope scope classes c).
Proof.
  unfold reregisterScope, JsMap.entries.
  induction scope as [|[n t] scope IH]; intros c; cbn [fold_left]; [apply extends_refl|].
  eapply extends_trans; [|apply IH]. cbn [fst snd].
  destruct (JsMap.get n classes); auto with engine.
Qed.

Lemma reregisterScope_registers scope classes n t : forall c,
  In (n, t) (JsMap.entries scope) -> JsMap.has n classes = true ->
  isRegistered (reregisterScope scope classes c) (TSymbol t) = true.
Proof.
  unfold reregisterScope, JsMap.entries.
  induction scope as [|[n' t'] scope IH]; intros c Hin Hhas; [contradiction|].
  cbn [fold_left fst snd]. destruct Hin as [[= -> ->]|Hin].
  - apply has_true_get in Hhas. destruct Hhas as [P HP]. rewrite HP.
    apply (reregisterScope_extends scope classes).
    rewrite isRegistered_register, key_eqb_refl. reflexivity.
  - apply IH; assumption.
Qed.

Lemma reregisterScope_strings scope classes s : forall c,
  registrationsOf (reregisterScope scope classes c) (TString s) = registrationsOf c (TString s).
Proof.
  unfold reregisterScope, JsMap.entries.
  induction scope as [|[n t] scope IH]; intros c; cbn [fold_left]; [reflexivity|].
  rewrite IH. cbn [fst snd]. destruct (JsMap.get n classes); [|reflexivity].
  rewrite registrationsOf_register. reflexivity.
Qed.

Lemma reregisterScopes_regsOk next scopes classesMap : forall c,
  regsOk next c -> regsOk next (reregisterScopes scopes classesMap c).
Proof.
  unfold reregisterScopes, JsMap.entries.
  induction scopes as [|[sel scope] scopes IH]; intros c Hok; cbn [fold_left]; [exact Hok|].
  apply IH. cbn [fst snd]. destruct (JsMap.get sel classesMap); [|exact Hok].
  apply reregisterScope_regsOk. exact Hok.
Qed.

Lemma reregisterScopes_extends scopes classesMap : forall c,
  extends c (reregisterScopes scopes classesMap c).
Proof.
  unfold reregisterScopes, JsMap.entries.
  induction scopes as [|[sel scope] scopes IH]; intros c; cbn [fold_left]; [apply extends_refl|].
  eapply extends_trans; [|apply IH]. cbn [fst snd].
  destruct (JsMap.get sel classesMap); [apply reregisterScope_extends | apply extends_refl].
Qed.

Lemma reregisterScopes_registers scopes classesMap sel scope classes n t : forall c,
  In (sel, scope) (JsMap.entries scopes) -> JsMap.get sel classesMap = Some classes ->
  In (n, t) (JsMap.entries scope) -> JsMap.has n classes = true ->
  isRegistered (reregisterScopes scopes classesMap c) (TSymbol t) = true.
Proof.
  unfold reregisterScopes, JsMap.entries.
  induction scopes as [|[sel' scope'] scopes IH]; intros c Hin Hcls Hent Hhas; [contradiction|].
  cbn [fold_left fst snd]. destruct Hin as [[= -> ->]|Hin].
  - rewrite Hcls. apply (reregisterScopes_extends scopes classesMap).
    apply (reregisterScope_registers scope classes n t); assumption.
  - apply IH; assumption.
Qed.

Lemma reregisterScopes_strings scopes classesMap s : forall c,
  registrationsOf (reregisterScopes scopes classesMap c) (TString s)
  = registrationsOf c (TString s).
Proof.
  unfold reregisterScopes, JsMap.entries.
  induction scopes as [|[sel scope] scopes IH]; intros c; cbn [fold_left]; [reflexivity|].
  rewrite IH. cbn [fst snd]. destruct (JsMap.get sel classesMap); [|reflexivity].
  apply reregisterScope_strings.
Qed.

Lemma regsOk_createChildContainer next : regsOk next createChildContainer.
Proof. intros token. constructor. Qed.


Lemma Inv_resetScope w scope selector :
  Inv w -> Inv (onEngine w (resetScope (engine w) scope selector)).
Proof.
  intros [H1 H2 H3 H4]. unfold resetScope, reregisterAll.
  cbn [with_container container rootScope rootClasses routerScopes routerClasses
       componentScopes componentClasses].
  set (c1 := reregisterScope _ _ createChildContainer).
  set (c2 := reregisterScopes (routerScopes _) _ c1).
  set (c3 := reregisterScopes (componentScopes _) _ c2).
  constructor; cbn.
  - apply reregisterScopes_regsOk, reregisterScopes_regsOk, reregisterScope_regsOk.
    apply regsOk_createChildContainer.
  - intros n t Hget. destruct (H2 n t Hget) as (Ht & _ & Hcls).
    split; [exact Ht|]. split; [|exact Hcls].
    apply (reregisterScopes_extends _ _ c2), (reregisterScopes_extends _ _ c1).
    apply (reregisterScope_registers _ _ n t); [apply get_In; exact Hget | exact Hcls].
  - intros sel sc Hget. destruct (H3 sel sc Hget) as (classes & Hcls & Htab).
    exists classes. split; [exact Hcls|]. intros n t Hnt.
    destruct (Htab n t Hnt) as (Ht & _ & Hhas).
    split; [exact Ht|]. split; [|exact Hhas].
    apply (reregisterScopes_extends _ _ c2).
    apply (reregisterScopes_registers _ _ sel sc classes n t);
      [apply get_In; exact Hget | exact Hcls | apply get_In; exact Hnt | exact Hhas].
  - intros sel sc Hget. destruct (H4 sel sc Hget) as (classes & Hcls & Htab).
    exists classes. split; [exact Hcls|]. intros n t Hnt.
    destruct (Htab n t Hnt) as (Ht & _ & Hhas).
    split; [exact Ht|]. split; [|exact Hhas].
    apply (reregisterScopes_registers _ _ sel sc classes n t);
      [apply get_In; exact Hget | exact Hcls | apply get_In; exact Hnt | exact Hhas].
Qed.

(** *** Clearing the instances *)

Lemma regsOk_symbol_filter next c t :
  regsOk next c ->
  filter (fun r => negb (isValueProvider (provider r))) (registrationsOf c (TSymbol t))
  = registrationsOf c (TSymbol t).
Proof.
  intros Hok. specialize (Hok (TSymbol t)).
  induction (registrationsOf c (TSymbol t)) as [|r regs IH]; [reflexivity|].
  inversion Hok as [|? ? [[[cls Hp] _] _] Hrest]; subst. simpl.
  rewrite Hp. simpl. rewrite IH by exact Hrest. reflexivity.
Qed.

Lemma regsOk_string_filter next c s :
  regsOk next c ->
  filter (fun r => negb (isValueProvider (provider r))) (registrationsOf c (TString s)) = [].
Proof.
  intros Hok. specialize (Hok (TString s)).
  induction (registrationsOf c (TString s)) as [|r regs IH]; [reflexivity|].
  inversion Hok as [|? ? [Hp _] Hrest]; subst. simpl.
  rewrite Hp. simpl. apply IH. exact Hrest.
Qed.

Lemma regsOk_clearInstances next c : regsOk next c -> regsOk next (clearInstances c).
Proof.
  intros Hok token. rewrite registrationsOf_clearInstances.
  apply Forall_map. apply Forall_forall. intros r Hin.
  apply filter_In in Hin. destruct Hin as [Hin _].
  pose proof (proj1 (Forall_forall _ _) (Hok token) r Hin) as [Hp _].
  split; [exact Hp | exact I].
Qed.

Lemma isRegistered_clearInstances next c t :
  regsOk next c ->
  isRegistered (clearInstances c) (TSymbol t) = isRegistered c (TSymbol t).
Proof.
  intros Hok. unfold isRegistered.
  rewrite registrationsOf_clearInstances, (regsOk_symbol_filter next) by exact Hok.
  destruct (registrationsOf c (TSymbol t)); reflexivity.
Qed.

Lemma extends_clearInstances next c : regsOk next c -> extends c (clearInstances c).
Proof.
  intros Hok t Hreg. rewrite (isRegistered_clearInstances next) by exact Hok. exact Hreg.
Qed.

Lemma Inv_resetAll w : Inv w -> Inv (onEngine w (resetAll (engine w))).
Proof.
  intros [H1 H2 H3 H4]. pose proof (extends_clearInstances _ _ H1) as Hext.
  unfold resetAll. constructor; cbn.
  - apply regsOk_clearInstances. exact H1.
  - eapply tableOk_extends; eauto.
  - eapply scopesOk_extends; eauto.
  - eapply scopesOk_extends; eauto.
Qed.

(** *** Every reachable state satisfies the invariant *)

Lemma Inv_call w c : Inv w -> Inv (fst (call w c)).
Proof.
  intros HI. destruct c; cbn [call fst].
  - apply Inv_with_context. exact HI.
  - apply Inv_with_context. exact HI.
  - apply Inv_setupRootContainer. exact HI.
  - pose proof (setupComponentContainer_spec w selector Providers HI) as [HI' _].
    destruct (setupComponentContainer _ _ _). exact HI'.
  - pose proof (setupRouterContainer_spec w Components Providers selector HI) as [HI' _].
    destruct (setupRouterContainer _ _ _ _). exact HI'.
  - apply Inv_resolve. exact HI.
  - apply Inv_resolve. exact HI.
  - apply Inv_resolve. exact HI.
  - apply Inv_resetScope. exact HI.
  - apply (Inv_resetScope w ScopeRoot None). exact HI.
  - apply Inv_resetAll. exact HI.
Qed.

Lemma reachable_Inv w : reachable w -> Inv w.
Proof.
  induction 1 as [|w c Hr IH]; [apply Inv_getInstance | apply Inv_call; exact IH].
Qed.

Lemma reachable_run w calls : reachable w -> reachable (run w calls).
Proof.
  revert w. unfold run. induction calls as [|c calls IH]; intros w Hr; cbn [fold_left].
  - exact Hr.
  - apply IH. apply reachable_call. exact Hr.
Qed.

(** ** Token derivation *)

Lemma tableOk_token c key scope classes n t :
  tableOk c key scope classes -> JsMap.get n scope = Some t -> t = getToken n key.
Proof. intros Hok Hget. apply (Hok n t Hget). Qed.

Lemma scopedToken_ok c kind scopes classesMap sel n t :
  scopesOk c kind scopes classesMap -> scopedToken scopes sel n = Some t ->
  t = getToken n (kind ++ sel) /\ isRegistered c (TSymbol t) = true.
Proof.
  unfold scopedToken. intros Hok Hget.
  destruct (JsMap.get sel scopes) as [scope|] eqn:Hs; [|discriminate].
  destruct (Hok _ _ Hs) as (classes & _ & Htab).
  destruct (Htab n t Hget) as (Ht & Hreg & _). auto.
Qed.

(** C4: token derivation is a function of (provider name, scope key) alone,
    so equal inputs give equal tokens and nothing else is read or written;
    for a fixed provider name distinct scope keys give distinct tokens; and
    in every reachable state of the engine the tokens one name has in the
    root table, in a router table and in a component table are pairwise
    distinct, as are its tokens in the tables of two different routers or of
    two different components. *)
Theorem getToken_deterministic_collision_free :
  (forall n1 n2 s1 s2, n1 = n2 -> s1 = s2 -> getToken n1 s1 = getToken n2 s2)
  /\ (forall className scope1 scope2,
        scope1 <> scope2 -> getToken className scope1 <> getToken className scope2)
  /\ (forall w className r c tRoot tRouter tComponent,
        reachable w ->
        JsMap.get className (rootScope (engine w)) = Some tRoot ->
        scopedToken (routerScopes (engine w)) r className = Some tRouter ->
        scopedToken (componentScopes (engine w)) c className = Some tComponent ->
        tRoot <> tRouter /\ tRoot <> tComponent /\ tRouter <> tComponent)
  /\ (forall w className s1 s2 t1 t2,
        reachable w -> s1 <> s2 ->
        (scopedToken (routerScopes (engine w)) s1 className = Some t1 ->
         scopedToken (routerScopes (engine w)) s2 className = Some t2 -> t1 <> t2)
        /\ (scopedToken (componentScopes (engine w)) s1 className = Some t1 ->
            scopedToken (componentScopes (engine w)) s2 className = Some t2 -> t1 <> t2)).
Proof.
  split; [intros; subst; reflexivity|].
  split; [intros n s1 s2 Hne Heq; apply Hne; eapply getToken_scope_injective; eauto|].
  split.
  - intros w n r c tRoot tRouter tComponent Hr H0 H1 H2.
    apply reachable_Inv in Hr. destruct Hr as [_ I2 I3 I4].
    apply (tableOk_token _ _ _ _ _ _ I2) in H0.
    apply (scopedToken_ok _ _ _ _ _ _ _ I3) in H1. destruct H1 as [H1 _].
    apply (scopedToken_ok _ _ _ _ _ _ _ I4) in H2. destruct H2 as [H2 _].
    subst. repeat split; intros Heq; apply getToken_scope_injective in Heq; discriminate.
  - intros w n s1 s2 t1 t2 Hr Hne.
    apply reachable_Inv in Hr. destruct Hr as [_ I2 I3 I4].
    split; intros H1 H2.
    + apply (scopedToken_ok _ _ _ _ _ _ _ I3) in H1, H2.
      destruct H1 as [-> _], H2 as [-> _]. intros Heq.
      apply getToken_scope_injective, string_append_inv_head in Heq. contradiction.
    + apply (scopedToken_ok _ _ _ _ _ _ _ I4) in H1, H2.
      destruct H1 as [-> _], H2 as [-> _]. intros Heq.
      apply getToken_scope_injective, string_append_inv_head in Heq. contradiction.
Qed.

Lemma getToken_deterministic_collision_free_witness :
  "root" <> "router:feature-A"
  /\ getToken "Logger" "root" <> getToken "Logger" "router:feature-A"
  /\ reachable threeScopes
  /\ getToken "Logger" "root" <> getToken "Logger" "router:main-nav-router".
Proof.
  split; [discriminate|].
  split; [apply (proj1 (proj2 getToken_deterministic_collision_free)); discriminate|].
  assert (Hr : reachable threeScopes) by (apply reachable_run, reachable_getInstance).
  split; [exact Hr|].
  apply (proj1 (proj2 (proj2 getToken_deterministic_collision_free))
           threeScopes "Logger" "main-nav-router" "home-screen"
           (getToken "Logger" "root") (getToken "Logger" "router:main-nav-router")
           (getToken "Logger" "component:home-screen") Hr);
    reflexivity.
Defined.

(** ** Scope creation never fails *)

(** C10: in every reachable state, and for all arguments, the two lookups
    that follow the creation of a component (router) scope both succeed, so
    the branch throwing 'Failed to create component scope' ('Failed to
    create router scope') is never taken: both setup operations return
    normally. *)
Theorem setup_scope_guard_unreachable w selector Components Providers :
  reachable w ->
  (JsMap.get selector (componentScopes (ensureComponentScope (engine w) selector)) <> None
   /\ JsMap.get selector (componentClasses (ensureComponentScope (engine w) selector)) <> None
   /\ snd (setupComponentContainer (engine w) selector Providers) = Returned None)
  /\ (JsMap.get selector (routerScopes (ensureRouterScope (engine w) selector)) <> None
      /\ JsMap.get selector (routerClasses (ensureRouterScope (engine w) selector)) <> None
      /\ snd (setupRouterContainer (engine w) Components Providers selector) = Returned None).
Proof.
  intros Hr. apply reachable_Inv in Hr. split.
  - destruct (ensureComponentScope_spec w selector Hr) as (_ & scope & classes & Hs & Hc & _).
    rewrite Hs, Hc. split; [discriminate|]. split; [discriminate|].
    apply setupComponentContainer_spec. exact Hr.
  - destruct (ensureRouterScope_spec w selector Hr) as (_ & scope & classes & Hs & Hc & _).
    rewrite Hs, Hc. split; [discriminate|]. split; [discriminate|].
    apply setupRouterContainer_spec. exact Hr.
Qed.

Lemma setup_scope_guard_unreachable_witness :
  reachable threeScopes
  /\ snd (setupComponentContainer (engine threeScopes) "profile-screen" [Config]) = Returned None
  /\ snd (setupRouterContainer (engine threeScopes) [ByClass Shared] [Config] "main-nav-router")
     = Returned None.
Proof.
  assert (Hr : reachable threeScopes) by (apply reachable_run, reachable_getInstance).
  split; [exact Hr|].
  split.
  - apply (setup_scope_guard_unreachable threeScopes "profile-screen" [] [Config] Hr).
  - apply (setup_scope_guard_unreachable threeScopes "main-nav-router" [ByClass Shared] [Config] Hr).
Defined.

(** ** Setup is idempotent *)

Lemma registerProvider_has_mono key st P n :
  JsMap.has n (fst (fst st)) = true ->
  JsMap.has n (fst (fst (registerProvider key st P))) = true.
Proof.
  destruct st as [[scope classes] c]. unfold registerProvider. cbn [fst].
  destruct (JsMap.has (name P) scope); cbn [fst]; [tauto|]. apply has_set_mono.
Qed.

Lemma registerProviders_has_mono key Ps n : forall st,
  JsMap.has n (fst (fst st)) = true ->
  JsMap.has n (fst (fst (registerProviders key Ps st))) = true.
Proof.
  unfold registerProviders. induction Ps as [|P Ps IH]; intros st Hhas; cbn [fold_left].
  - exact Hhas.
  - apply IH, registerProvider_has_mono, Hhas.
Qed.

Lemma registerProviders_has key Ps P : forall st,
  In P Ps -> JsMap.has (name P) (fst (fst (registerProviders key Ps st))) = true.
Proof.
  unfold registerProviders. induction Ps as [|Q Ps IH]; intros st Hin; [contradiction|].
  cbn [fold_left]. destruct Hin as [->|Hin]; [|apply IH; exact Hin].
  apply (registerProviders_has_mono key Ps).
  destruct st as [[scope classes] c]. unfold registerProvider.
  destruct (JsMap.has (name P) scope) eqn:E; cbn [fst]; [exact E | apply has_set_same].
Qed.















Lemma provided_registerProviders scopes selector key Providers scope classes c :
  provided (JsMap.set selector (fst (fst (registerProviders key Providers (scope, classes, c)))) scopes)
    selector Providers = true.
Proof.
  unfold provided. apply forallb_forall. intros P HP.
  unfold scopedToken. rewrite get_set_same.
  pose proof (registerProviders_has key Providers P (scope, classes, c) HP) as Hhas.
  unfold JsMap.has in Hhas. destruct (JsMap.get (name P) _); [reflexivity | discriminate].
Qed.


Lemma setupRouterContainer_provided this Components Providers selector :
  match setupRouterContainer this Components Providers selector with
  | (this', Returned _) => provided (routerScopes this') selector Providers = true
  | (_, Thrown _) => True
  end.
Proof.
  unfold setupRouterContainer. set (this1 := ensureRouterScope this selector).
  destruct (JsMap.get selector (routerScopes this1)) as [scope|]; [|exact I].
  destruct (JsMap.get selector (routerClasses this1)) as [classes|]; [|exact I].
  cbn [with_membership container routerScopes routerClasses].
  pose proof (provided_registerProviders (routerScopes this1) selector
                ("router:" ++ selector) Providers scope classes (container this1)) as Hp.
  destruct (registerProviders _ _ _) as [[scope' classes'] c']. exact Hp.
Qed.



(** ** What the container holds for a token *)

Lemma holds_registered c token v : holds c token v -> isRegistered c token = true.
Proof.
  intros (reg & Hreg & _). apply isRegistered_getRegistration. eauto.
Qed.

Lemma containerResolve_holds c next token v :
  holds c token v -> containerResolve c next token = (c, next, Returned (Some v)).
Proof.
  intros (reg & Hreg & Hv). unfold containerResolve. rewrite Hreg.
  destruct (provider reg) as [v'|cls].
  - subst v'. reflexivity.
  - destruct Hv as [-> ->]. reflexivity.
Qed.

Lemma holds_register c token v token' p l :
  isRegistered c token' = false -> holds c token v -> holds (register c token' p l) token v.
Proof.
  intros Hnot Hh. pose proof (holds_registered _ _ _ Hh) as Hreg.
  destruct Hh as (reg & Hget & Hv). exists reg. split; [|exact Hv].
  rewrite getRegistration_register.
  destruct (key_eqb token' token) eqn:E; [|exact Hget].
  apply key_eqb_eq in E. subst token'. congruence.
Qed.

Lemma holds_registerIfAbsent c token v t P :
  holds c token v -> holds (registerIfAbsent c t P) token v.
Proof.
  unfold registerIfAbsent. destruct (isRegistered c (TSymbol t)) eqn:E; [tauto|].
  apply holds_register. exact E.
Qed.

Lemma holds_registerProviders key Ps token v : forall st,
  holds (snd st) token v -> holds (snd (registerProviders key Ps st)) token v.
Proof.
  unfold registerProviders. induction Ps as [|P Ps IH]; intros st Hh; cbn [fold_left].
  - exact Hh.
  - apply IH. destruct st as [[scope classes] c]. unfold registerProvider.
    destruct (JsMap.has (name P) scope); cbn [snd] in *; [exact Hh|].
    apply holds_registerIfAbsent. exact Hh.
Qed.

Lemma holds_cacheInstance c token v token' v' :
  token' <> token -> holds c token v -> holds (cacheInstance c token' v') token v.
Proof.
  intros Hne (reg & Hget & Hv). exists reg. split; [|exact Hv].
  rewrite getRegistration_cacheInstance, key_eqb_neq by exact Hne. exact Hget.
Qed.

Lemma holds_containerResolve c next token v token' :
  holds c token v -> holds (fst (fst (containerResolve c next token'))) token v.
Proof.
  intros Hh. destruct (key_eq_dec token' token) as [->|Hne].
  - rewrite (containerResolve_holds _ _ _ _ Hh). exact Hh.
  - unfold containerResolve. destruct (getRegistration c token') as [reg|]; [|exact Hh].
    destruct (provider reg); [exact Hh|].
    destruct (lifecycle reg); [exact Hh|].
    destruct (instance reg); [exact Hh|].
    cbn [fst]. apply holds_cacheInstance; assumption.
Qed.

Lemma holds_resolveToken w token v token' :
  holds (container (engine w)) token v ->
  holds (container (engine (fst (resolveToken w token')))) token v.
Proof.
  intros Hh. unfold resolveToken.
  pose proof (holds_containerResolve _ (nextRef w) _ _ token' Hh) as Hh'.
  destruct (containerResolve _ _ token') as [[c' next'] r]. exact Hh'.
Qed.

Lemma holds_resolve w token v className cs rs ccn :
  holds (container (engine w)) token v ->
  holds (container (engine (fst (resolve w className cs rs ccn)))) token v.
Proof.
  intros Hh. rewrite resolve_via_target.
  destruct (resolveTarget _ _ _ _ _); [apply holds_resolveToken; exact Hh | exact Hh].
Qed.

Lemma holds_setupRootContainer this token v Entity :
  holds (container this) token v -> holds (container (setupRootContainer this Entity)) token v.
Proof.
  intros Hh. unfold setupRootContainer.
  destruct (JsMap.has (name Entity) (rootScope this)); [exact Hh|].
  cbn [with_container container]. apply holds_registerIfAbsent. exact Hh.
Qed.

Lemma holds_setupComponentContainer this token v selector Providers :
  holds (container this) token v ->
  holds (container (fst (setupComponentContainer this selector Providers))) token v.
Proof.
  intros Hh. unfold setupComponentContainer.
  rewrite <- (ensureComponentScope_container this selector) in Hh.
  set (this1 := ensureComponentScope this selector) in *.
  destruct (JsMap.get selector (componentScopes this1)) as [scope|]; [|exact Hh].
  destruct (JsMap.get selector (componentClasses this1)) as [classes|]; [|exact Hh].
  pose proof (holds_registerProviders ("component:" ++ selector) Providers token v
                (scope, classes, container this1) Hh) as Hh'.
  destruct (registerProviders _ _ _) as [[scope' classes'] c']. exact Hh'.
Qed.

Lemma holds_setupRouterContainer this token v Components Providers selector :
  holds (container this) token v ->
  holds (container (fst (setupRouterContainer this Components Providers selector))) token v.
Proof.
  intros Hh. unfold setupRouterContainer.
  rewrite <- (ensureRouterScope_container this selector) in Hh.
  set (this1 := ensureRouterScope this selector) in *.
  destruct (JsMap.get selector (routerScopes this1)) as [scope|]; [|exact Hh].
  destruct (JsMap.get selector (routerClasses this1)) as [classes|]; [|exact Hh].
  cbn [with_membership container routerScopes routerClasses].
  pose proof (holds_registerProviders ("router:" ++ selector) Providers token v
                (scope, classes, container this1) Hh) as Hh'.
  destruct (registerProviders _ _ _) as [[scope' classes'] c']. exact Hh'.
Qed.

(** A call that is not a reset keeps what the container holds. *)
Lemma holds_call w c token v :
  invalidates c = false ->
  holds (container (engine w)) token v ->
  holds (container (engine (fst (call w c)))) token v.
Proof.
  intros Hinv Hh. destruct c; try discriminate; cbn [call fst].
  - exact Hh.
  - exact Hh.
  - apply holds_setupRootContainer. exact Hh.
  - pose proof (holds_setupComponentContainer _ _ _ selector Providers Hh) as Hh'.
    destruct (setupComponentContainer _ _ _). exact Hh'.
  - pose proof (holds_setupRouterContainer _ _ _ Components Providers selector Hh) as Hh'.
    destruct (setupRouterContainer _ _ _ _). exact Hh'.
  - apply holds_resolve. exact Hh.
  - apply holds_resolve. exact Hh.
  - apply holds_resolve. exact Hh.
Qed.

Lemma holds_run calls token v : forall w,
  existsb invalidates calls = false ->
  holds (container (engine w)) token v ->
  holds (container (engine (run w calls))) token v.
Proof.
  unfold run. induction calls as [|c calls IH]; intros w Hinv Hh; cbn [fold_left].
  - exact Hh.
  - cbn [existsb] in Hinv. apply orb_false_iff in Hinv. destruct Hinv as [Hc Hcalls].
    apply IH; [exact Hcalls|]. apply holds_call; assumption.
Qed.

Lemma resolveToken_holds w token v :
  holds (container (engine w)) token v ->
  resolveToken w token = (w, Returned (Some v)).
Proof.
  intros Hh. unfold resolveToken. rewrite (containerResolve_holds _ _ _ _ Hh).
  rewrite with_container_same. destruct w; reflexivity.
Qed.

Lemma regsOk_current next c token reg :
  regsOk next c -> getRegistration c token = Some reg -> regOk next token reg.
Proof.
  intros Hok Hget. apply last_map_Some_In in Hget.
  exact (proj1 (Forall_forall _ _) (Hok token) reg Hget).
Qed.

(** Under the invariant, an instance [resolveToken] returns is held by the
    container afterwards. *)
Lemma resolveToken_returns_holds w token w1 v :
  Inv w -> resolveToken w token = (w1, Returned (Some v)) ->
  holds (container (engine w1)) token v.
Proof.
  intros [Hok _ _ _]. unfold resolveToken, containerResolve.
  destruct (getRegistration (container (engine w)) token) as [reg|] eqn:Hget;
    [|discriminate].
  pose proof (regsOk_current _ _ _ _ Hok Hget) as [Hp _].
  destruct (provider reg) as [v'|cls] eqn:Hprov.
  - intros [= <- <-]. cbn. exists reg. rewrite Hprov. auto.
  - destruct token as [s|t]; [discriminate|].
    destruct Hp as [_ Hl]. rewrite Hl.
    destruct (instance reg) as [v'|] eqn:Hinst.
    + intros [= <- <-]. cbn. exists reg. rewrite Hprov. auto.
    + intros [= <- <-]. cbn. exists (withInstance (VObject (nextRef w) cls) reg).
      rewrite getRegistration_cacheInstance, key_eqb_refl, Hget. cbn.
      rewrite Hprov. auto.
Qed.

(** ** Singleton identity *)








Lemma registered_Some this o t : registered this o = Some t -> o = Some t.
Proof.
  unfold registered. destruct o as [t'|]; [|discriminate].
  destruct (isRegistered _ _); [tauto | discriminate].
Qed.

(** With the name alone, [resolve] goes to the reserved token or to the root
    table. *)
Lemma resolveTarget_name_only this className :
  resolveTarget this className None None None =
  if className =? reservedName then Some (TString reservedName)
  else option_map TSymbol (rootLookup this className).
Proof.
  unfold resolveTarget, componentLookup, routerLookup, parentLookup, parentSelector.
  destruct (className =? reservedName); reflexivity.
Qed.




(** ** The lookup order *)

Lemma truthy_Some s : s <> "" -> truthy (Some s) = Some s.
Proof.
  intros Hne. unfold truthy. destruct (s =? "") eqn:E; [|reflexivity].
  apply String.eqb_eq in E. contradiction.
Qed.

Lemma truthy_inv o s : truthy o = Some s -> o = Some s.
Proof.
  unfold truthy. destruct o as [x|]; [|discriminate].
  destruct (x =? ""); [discriminate | tauto].
Qed.

Lemma option_string_eqb_eq a b : option_string_eqb a b = true <-> a = b.
Proof.
  destruct a as [x|], b as [y|]; simpl; try (split; congruence).
  rewrite String.eqb_eq. split; congruence.
Qed.







(** ** The parent-router hop *)




(** ** No provider found *)

(** C8, as the code has it: from any state of the engine, a [resolve] call
    for a name other than the reserved 'DependencyManagement' that is in no
    table the call can reach (the component table of the given selector, the
    own and the parent router's table, the root table) returns [undefined],
    does not throw and changes nothing; so does [get] for the ambient
    selectors.  A provider registered in component scope "A" only is the
    witness: queried with component selector "B" it is not found. *)
Theorem unprovided_name_resolves_to_undefined w className :
  className <> reservedName ->
  (forall cs rs ccn,
     unprovided (engine w) className cs rs ccn ->
     resolve w className cs rs ccn = (w, Returned None))
  /\ (unprovided (engine w) className
        (currentSelector (engine w)) (currentRouterSelector (engine w)) None ->
      get w className = (w, Returned None)).
Proof.
  intros Hname. apply String.eqb_neq in Hname.
  assert (Hres : forall cs rs ccn, unprovided (engine w) className cs rs ccn ->
                   resolve w className cs rs ccn = (w, Returned None)).
  { intros cs rs ccn (Hc & Hr & Hp & H0). rewrite resolve_via_target.
    unfold resolveTarget, componentLookup, routerLookup, parentLookup, rootLookup.
    rewrite Hname, H0.
    destruct (truthy cs) as [sel|]; [rewrite (Hc sel eq_refl)|];
    (destruct (truthy rs) as [sel'|]; [rewrite (Hr sel' eq_refl)|]);
    (destruct (truthy (parentSelector (engine w) ccn)) as [p|];
       [rewrite (Hp p eq_refl); destruct (option_string_eqb _ rs)|]);
    reflexivity. }
  split; [exact Hres|]. intros Hu. unfold get. apply Hres. exact Hu.
Qed.

Lemma unprovided_name_resolves_to_undefined_witness :
  "Logger" <> reservedName
  /\ unprovided (engine onlyInA) "Logger" (Some "B") None None
  /\ resolve onlyInA "Logger" (Some "B") None None = (onlyInA, Returned None)
  /\ snd (resolve onlyInA "Logger" (Some "A") None None) = Returned (Some (VObject 0 Logger)).
Proof.
  assert (Hn : "Logger" <> reservedName) by discriminate.
  assert (Hu : unprovided (engine onlyInA) "Logger" (Some "B") None None).
  { split; [intros sel [= <-]; reflexivity|].
    split; [intros sel Hs; discriminate|].
    split; [intros sel Hs; discriminate | reflexivity]. }
  split; [exact Hn|]. split; [exact Hu|]. split; [|reflexivity].
  exact (proj1 (unprovided_name_resolves_to_undefined onlyInA "Logger" Hn)
           (Some "B") None None Hu).
Defined.

(** Counterexample to C8 as stated: the reserved name is in no scope table,
    yet resolving it returns the engine in a fresh process, and throws once
    [resetScope] has replaced the container. *)
Lemma reserved_name_is_not_absent :
  ~ (forall w className cs rs ccn,
       reachable w -> unprovided (engine w) className cs rs ccn ->
       snd (resolve w className cs rs ccn) = Returned None).
Proof.
  intros Hall.
  assert (Hr : reachable afterReset) by (apply reachable_run, reachable_getInstance).
  assert (Hu : unprovided (engine afterReset) "DependencyManagement" None None None).
  { split; [intros sel Hs; discriminate|].
    split; [intros sel Hs; discriminate|].
    split; [intros sel Hs; discriminate | reflexivity]. }
  specialize (Hall afterReset "DependencyManagement" None None None Hr Hu).
  vm_compute in Hall. discriminate.
Qed.

(** ** Resets *)

Lemma registered_scoped c' this kind scopes classesMap sel className :
  c' = container this -> scopesOk c' kind scopes classesMap ->
  registered this (scopedToken scopes sel className) = scopedToken scopes sel className.
Proof.
  intros -> Hok. destruct (scopedToken scopes sel className) as [t|] eqn:E; [|reflexivity].
  destruct (scopedToken_ok _ _ _ _ _ _ _ Hok E) as [_ Hreg].
  unfold registered. rewrite Hreg. reflexivity.
Qed.

(** Under the invariant the target of [resolve] is read off the tables. *)
Lemma resolveTarget_Inv w className cs rs ccn :
  Inv w ->
  resolveTarget (engine w) className cs rs ccn =
  tableTarget (rootScope (engine w)) (routerScopes (engine w))
    (componentScopes (engine w)) (componentToRouter (engine w)) className cs rs ccn.
Proof.
  intros [_ I2 I3 I4].
  unfold resolveTarget, tableTarget, componentLookup, routerLookup, parentLookup,
    parentSelector, rootLookup, getRouterForComponent.
  destruct (className =? reservedName); [reflexivity|]. cbv zeta.
  assert (Hroot : registered (engine w) (JsMap.get className (rootScope (engine w)))
                  = JsMap.get className (rootScope (engine w))).
  { destruct (JsMap.get className (rootScope (engine w))) as [t|] eqn:E; [|reflexivity].
    destruct (I2 _ _ E) as (_ & Hreg & _). unfold registered. rewrite Hreg. reflexivity. }
  rewrite Hroot.
  destruct (truthy cs) as [sc|];
    [rewrite (registered_scoped _ _ _ _ _ sc className eq_refl I4)|];
  (destruct (truthy rs) as [sr|];
    [rewrite (registered_scoped _ _ _ _ _ sr className eq_refl I3)|]);
  (destruct (truthy (match truthy ccn with Some _ => _ | None => _ end)) as [sp|];
    [rewrite (registered_scoped _ _ _ _ _ sp className eq_refl I3)|]);
  reflexivity.
Qed.


Lemma regsOk_zero_clearInstances next c : regsOk next c -> regsOk 0 (clearInstances c).
Proof.
  intros Hok token. rewrite registrationsOf_clearInstances.
  apply Forall_map. apply Forall_forall. intros r Hin.
  apply filter_In in Hin. destruct Hin as [Hin _].
  pose proof (proj1 (Forall_forall _ _) (Hok token) r Hin) as [Hp _].
  split; [exact Hp | exact I].
Qed.

Lemma regsOk_zero_resetScope this scope selector :
  regsOk 0 (container (resetScope this scope selector)).
Proof.
  unfold resetScope, reregisterAll. cbn.
  apply reregisterScopes_regsOk, reregisterScopes_regsOk, reregisterScope_regsOk.
  apply regsOk_createChildContainer.
Qed.




Lemma resolveTarget_symbol_registered this className cs rs ccn t :
  resolveTarget this className cs rs ccn = Some (TSymbol t) ->
  isRegistered (container this) (TSymbol t) = true.
Proof.
  unfold resolveTarget, componentLookup, routerLookup, parentLookup, rootLookup.
  destruct (className =? reservedName); [discriminate|].
  assert (Hreg : forall o, registered this o = Some t ->
                   isRegistered (container this) (TSymbol t) = true).
  { intros [t'|]; unfold registered; [|discriminate].
    destruct (isRegistered (container this) (TSymbol t')) eqn:E; [|discriminate].
    intros [= <-]. exact E. }
  destruct (truthy cs) as [sc|];
    [destruct (registered this (scopedToken (componentScopes this) sc className)) eqn:E1;
       [cbn; intros [= ->]; eapply Hreg; eauto|]|];
  (destruct (truthy rs) as [sr|];
    [destruct (registered this (scopedToken (routerScopes this) sr className)) eqn:E2;
       [cbn; intros [= ->]; eapply Hreg; eauto|]|]);
  (destruct (truthy (parentSelector this ccn)) as [sp|];
    [destruct (option_string_eqb (parentSelector this ccn) rs);
       [|destruct (registered this (scopedToken (routerScopes this) sp className)) eqn:E3;
          [cbn; intros [= ->]; eapply Hreg; eauto|]]|]);
  cbn; destruct (registered this (JsMap.get className (rootScope this))) eqn:E4;
    try discriminate; cbn; intros [= ->]; eapply Hreg; eauto.
Qed.









(** ** The reserved name *)

Lemma resolve_reserved w cs rs ccn :
  resolve w reservedName cs rs ccn = resolveToken w (TString reservedName).
Proof. reflexivity. Qed.

Lemma resolveToken_unregistered w token :
  registrationsOf (container (engine w)) token = [] ->
  resolveToken w token = (w, Thrown (unregisteredMessage token)).
Proof.
  intros Hnone. unfold resolveToken, containerResolve, getRegistration.
  rewrite Hnone. cbn. rewrite with_container_same. destruct w; reflexivity.
Qed.

Lemma registrationsOf_resetScope_string this scope selector s :
  registrationsOf (container (resetScope this scope selector)) (TString s) = [].
Proof.
  unfold resetScope, reregisterAll.
  cbn [with_container container rootScope rootClasses routerScopes routerClasses
       componentScopes componentClasses].
  rewrite !reregisterScopes_strings, reregisterScope_strings. reflexivity.
Qed.

Lemma registrationsOf_resetAll_string next this s :
  regsOk next (container this) ->
  registrationsOf (container (resetAll this)) (TString s) = [].
Proof.
  intros Hok. unfold resetAll. cbn [with_container container].
  rewrite registrationsOf_clearInstances, (regsOk_string_filter next) by exact Hok.
  reflexivity.
Qed.

(** C9: the engine answers to the reserved name 'DependencyManagement' as
    long as no reset has run: in every state reached from a fresh process
    by calls other than the resets, [resolve] of that name returns the
    engine.  In every reachable state, after [resetScope] and after
    [resetClass] the call throws tsyringe's unregistered-token error, the
    replacement container lacking the engine's registration; and after
    [resetAll] it throws the same error, because clearing the instances
    drops the value registration of the engine as well. *)
Theorem reserved_name_after_reset w scope selector resetName cs rs ccn :
  reachable w ->
  (forall calls, existsb invalidates calls = false ->
     resolve (run getInstance calls) reservedName cs rs ccn
     = (run getInstance calls, Returned (Some VEngine)))
  /\ resolve (onEngine w (resetScope (engine w) scope selector)) reservedName cs rs ccn
     = (onEngine w (resetScope (engine w) scope selector),
        Thrown (unregisteredMessage (TString reservedName)))
  /\ resolve (onEngine w (resetClass (engine w) resetName)) reservedName cs rs ccn
     = (onEngine w (resetClass (engine w) resetName),
        Thrown (unregisteredMessage (TString reservedName)))
  /\ resolve (onEngine w (resetAll (engine w))) reservedName cs rs ccn
     = (onEngine w (resetAll (engine w)),
        Thrown (unregisteredMessage (TString reservedName))).
Proof.
  intros Hr. pose proof (reachable_Inv _ Hr) as HI. rewrite !resolve_reserved.
  split; [|split; [|split]].
  - intros calls Hcalls. apply resolveToken_holds, holds_run; [exact Hcalls|].
    eexists. split; [reflexivity | reflexivity].
  - apply resolveToken_unregistered. apply registrationsOf_resetScope_string.
  - apply resolveToken_unregistered.
    apply (registrationsOf_resetScope_string (engine w) ScopeRoot None).
  - apply resolveToken_unregistered.
    apply (registrationsOf_resetAll_string (nextRef w)). apply (inv_regs _ HI).
Qed.

Lemma reserved_name_after_reset_witness :
  reachable getInstance
  /\ resolve getInstance reservedName None None None = (getInstance, Returned (Some VEngine))
  /\ snd (resolve (onEngine getInstance (resetScope (engine getInstance) ScopeRoot None))
            reservedName None None None)
     = Thrown (unregisteredMessage (TString reservedName))
  /\ snd (resolve (onEngine getInstance (resetAll (engine getInstance)))
            reservedName None None None)
     = Thrown (unregisteredMessage (TString reservedName)).
Proof.
  pose proof (reserved_name_after_reset getInstance ScopeRoot None "Logger" None None None
                reachable_getInstance) as (H0 & H1 & _ & H3).
  split; [exact reachable_getInstance|].
  split; [exact (H0 [] eq_refl)|].
  split; [rewrite H1; reflexivity | rewrite H3; reflexivity].
Defined.

(** ** Empty selectors *)

(** A selector counts as given only when it is a non-empty string: the
    component scope set up under the empty selector is skipped by [resolve],
    the empty string being falsy, and the router's instance is returned. *)
Lemma empty_selector_is_not_given :
  reachable emptySelector
  /\ scopedToken (componentScopes (engine emptySelector)) "" "Logger"
     = Some (getToken "Logger" "component:")
  /\ resolve emptySelector "Logger" (Some "") (Some "r") None
     = resolveToken emptySelector (TSymbol (getToken "Logger" "router:r"))
  /\ ~ favorsInnerScopes emptySelector "Logger" "" "r".
Proof.
  split; [apply reachable_run, reachable_getInstance|].
  split; [reflexivity|]. split; [reflexivity|].
  intros Hf.
  destruct (Hf (getToken "Logger" "component:") (getToken "Logger" "router:r")
              (getToken "Logger" "root") eq_refl eq_refl eq_refl) as [H1 _].
  destruct (H1 None) as [Heq _]. vm_compute in Heq. discriminate.
Qed.

(** * Further properties of the engine *)

(** ** What a setup call changes *)

Lemma setupComponentContainer_shape this selector Providers :
  let r := setupComponentContainer this selector Providers in
  (rootScope (fst r) = rootScope this /\ rootClasses (fst r) = rootClasses this
   /\ routerScopes (fst r) = routerScopes this /\ routerClasses (fst r) = routerClasses this
   /\ componentToRouter (fst r) = componentToRouter this
   /\ currentSelector (fst r) = currentSelector this
   /\ currentRouterSelector (fst r) = currentRouterSelector this)
  /\ ((snd r = Returned None
       /\ exists scope' classes',
            componentScopes (fst r) = JsMap.set selector scope' (componentScopes this)
            /\ componentClasses (fst r) = JsMap.set selector classes' (componentClasses this))
      \/ (fst r = this /\ exists msg, snd r = Thrown msg)).
Proof.
  unfold setupComponentContainer, ensureComponentScope.
  destruct (JsMap.has selector (componentScopes this)) eqn:Hhas.
  - destruct (JsMap.get selector (componentScopes this)) as [scope|];
      [|cbn; split; [tauto | right; eauto]].
    destruct (JsMap.get selector (componentClasses this)) as [classes|];
      [|cbn; split; [tauto | right; eauto]].
    destruct (registerProviders _ _ _) as [[scope' classes'] c']. cbn.
    split; [tauto|]. left. repeat split; try reflexivity.
    exists scope', classes'. split; reflexivity.
  - cbn [with_component componentScopes componentClasses container].
    rewrite !get_set_same.
    destruct (registerProviders _ _ _) as [[scope' classes'] c']. cbn.
    split; [tauto|]. left. rewrite !set_set. repeat split; try reflexivity.
    exists scope', classes'. split; reflexivity.
Qed.

Lemma setupRouterContainer_shape this Components Providers selector :
  let r := setupRouterContainer this Components Providers selector in
  (rootScope (fst r) = rootScope this /\ rootClasses (fst r) = rootClasses this
   /\ componentScopes (fst r) = componentScopes this
   /\ componentClasses (fst r) = componentClasses this
   /\ currentSelector (fst r) = currentSelector this
   /\ currentRouterSelector (fst r) = currentRouterSelector this)
  /\ ((snd r = Returned None
       /\ componentToRouter (fst r)
          = trackMembership selector Components (componentToRouter this)
       /\ exists scope' classes',
            routerScopes (fst r) = JsMap.set selector scope' (routerScopes this)
            /\ routerClasses (fst r) = JsMap.set selector classes' (routerClasses this))
      \/ (fst r = this /\ exists msg, snd r = Thrown msg)).
Proof.
  unfold setupRouterContainer, ensureRouterScope.
  destruct (JsMap.has selector (routerScopes this)) eqn:Hhas.
  - destruct (JsMap.get selector (routerScopes this)) as [scope|];
      [|cbn; split; [tauto | right; eauto]].
    destruct (JsMap.get selector (routerClasses this)) as [classes|];
      [|cbn; split; [tauto | right; eauto]].
    cbn [with_membership container routerScopes routerClasses componentToRouter].
    destruct (registerProviders _ _ _) as [[scope' classes'] c']. cbn.
    split; [tauto|]. left. repeat split; try reflexivity.
    exists scope', classes'. split; reflexivity.
  - cbn [with_router with_membership routerScopes routerClasses container componentToRouter].
    rewrite !get_set_same.
    cbn [with_router with_membership routerScopes routerClasses container componentToRouter].
    destruct (registerProviders _ _ _) as [[scope' classes'] c']. cbn.
    split; [tauto|]. left. rewrite !set_set. repeat split; try reflexivity.
    exists scope', classes'. split; reflexivity.
Qed.

(** [resolve] touches the container only. *)
Lemma resolveToken_engine w token :
  exists c', engine (fst (resolveToken w token)) = with_container c' (engine w).
Proof.
  unfold resolveToken. destruct (containerResolve _ _ _) as [[c next] r]. cbn. eauto.
Qed.

Lemma resolve_engine w className cs rs ccn :
  exists c', engine (fst (resolve w className cs rs ccn)) = with_container c' (engine w).
Proof.
  rewrite resolve_via_target. destruct (resolveTarget _ _ _ _ _).
  - apply resolveToken_engine.
  - exists (container (engine w)). cbn. rewrite with_container_same. reflexivity.
Qed.

(** ** Membership *)

Lemma trackMembership_get selector Components n : forall m,
  JsMap.get n (trackMembership selector Components m)
  = if listsComponent Components n then Some selector else JsMap.get n m.
Proof.
  unfold trackMembership, listsComponent.
  induction Components as [|C Cs IH]; intros m; cbn [fold_left existsb]; [reflexivity|].
  rewrite IH, get_set. cbn [key_eqb EqKey_string].
  destruct (existsb _ Cs); [rewrite orb_true_r; reflexivity|].
  rewrite orb_false_r. reflexivity.
Qed.

Lemma componentToRouter_resolve w className cs rs ccn :
  componentToRouter (engine (fst (resolve w className cs rs ccn)))
  = componentToRouter (engine w).
Proof. destruct (resolve_engine w className cs rs ccn) as [c' ->]. reflexivity. Qed.

Lemma routerScopes_resolve w className cs rs ccn :
  routerScopes (engine (fst (resolve w className cs rs ccn))) = routerScopes (engine w).
Proof. destruct (resolve_engine w className cs rs ccn) as [c' ->]. reflexivity. Qed.

Lemma componentScopes_resolve w className cs rs ccn :
  componentScopes (engine (fst (resolve w className cs rs ccn)))
  = componentScopes (engine w).
Proof. destruct (resolve_engine w className cs rs ccn) as [c' ->]. reflexivity. Qed.

Lemma getRouterForComponent_call w c n :
  reachable w ->
  getRouterForComponent (engine (fst (call w c))) n =
  match c with
  | CallSetupRouter Components _ selector =>
      if listsComponent Components n then Some selector
      else getRouterForComponent (engine w) n
  | _ => getRouterForComponent (engine w) n
  end.
Proof.
  intros Hr. apply reachable_Inv in Hr. unfold getRouterForComponent.
  destruct c; cbn [call fst onEngine engine]; try reflexivity.
  - unfold setupRootContainer.
    destruct (JsMap.has (name Entity) (rootScope (engine w))); reflexivity.
  - pose proof (setupComponentContainer_shape (engine w) selector Providers)
      as [(_ & _ & _ & _ & E & _) _].
    destruct (setupComponentContainer _ _ _). cbn [fst onEngine engine] in *.
    rewrite E. reflexivity.
  - pose proof (setupRouterContainer_shape (engine w) Components Providers selector)
      as [_ [(_ & E & _)|(_ & msg & Hmsg)]].
    + destruct (setupRouterContainer _ _ _ _). cbn [fst onEngine engine] in *.
      rewrite E. apply trackMembership_get.
    + destruct (setupRouterContainer_spec w Components Providers selector Hr) as [_ Hret].
      congruence.
  - rewrite componentToRouter_resolve. reflexivity.
  - unfold get. rewrite componentToRouter_resolve. reflexivity.
  - unfold resolveFromScopes. rewrite componentToRouter_resolve. reflexivity.
Qed.


(** X1: the membership tracker is written by [setupRouterContainer] alone,
    last write wins, and nothing ever removes a record.  In a reachable
    state, after any call, [getRouterForComponent] answers the selector of
    the call when the call is a [setupRouterContainer] whose component list
    carries the name (as a string or as the name of a class), and answers
    what it answered before in every other case, the three resets
    included. *)
Theorem membership_last_write_wins w c n :
  reachable w ->
  getRouterForComponent (engine (fst (call w c))) n =
  match c with
  | CallSetupRouter Components _ selector =>
      if listsComponent Components n then Some selector
      else getRouterForComponent (engine w) n
  | _ => getRouterForComponent (engine w) n
  end.
Proof.
  intros Hr. pose proof (reachable_Inv _ Hr) as HI. unfold getRouterForComponent.
  destruct c; cbn [call fst onEngine engine];
    try reflexivity;
    try (unfold get, resolveFromScopes; rewrite componentToRouter_resolve; reflexivity).
  - unfold setupRootContainer.
    destruct (JsMap.has (name Entity) (rootScope (engine w))); reflexivity.
  - pose proof (setupComponentContainer_shape (engine w) selector Providers)
      as [(_ & _ & _ & _ & E & _) _].
    destruct (setupComponentContainer _ _ _). cbn [fst onEngine engine] in *.
    rewrite E. reflexivity.
  - pose proof (setupRouterContainer_shape (engine w) Components Providers selector)
      as [_ [(_ & E & _)|(_ & msg & Hmsg)]].
    + destruct (setupRouterContainer _ _ _ _). cbn [fst onEngine engine] in *.
      rewrite E. apply trackMembership_get.
    + destruct (setupRouterContainer_spec w Components Providers selector HI) as [_ Hret].
      congruence.
Qed.

Lemma membership_last_write_wins_witness :
  reachable nestedRouters
  /\ getRouterForComponent (engine nestedRouters) "R2" = Some "R1"
  /\ getRouterForComponent
       (engine (fst (call nestedRouters (CallSetupRouter [ByClass Logger; ByName "R2"] [] "R3"))))
       "R2" = Some "R3"
  /\ getRouterForComponent
       (engine (fst (call nestedRouters (CallResetScope ScopeRouter (Some "R1")))))
       "R2" = Some "R1".
Proof.
  assert (Hr : reachable nestedRouters) by (apply reachable_run, reachable_getInstance).
  split; [exact Hr|]. split; [reflexivity|]. split.
  - exact (membership_last_write_wins nestedRouters
             (CallSetupRouter [ByClass Logger; ByName "R2"] [] "R3") "R2" Hr).
  - exact (membership_last_write_wins nestedRouters
             (CallResetScope ScopeRouter (Some "R1")) "R2" Hr).
Defined.

(** ** Scopes are never removed *)

Lemma routerScopes_has_call w c sel :
  JsMap.has sel (routerScopes (engine w)) = true ->
  JsMap.has sel (routerScopes (engine (fst (call w c)))) = true.
Proof.
  intros Hhas. destruct c; cbn [call fst onEngine engine]; try exact Hhas.
  - unfold setupRootContainer.
    destruct (JsMap.has (name Entity) (rootScope (engine w))); exact Hhas.
  - pose proof (setupComponentContainer_shape (engine w) selector Providers)
      as [(_ & _ & E & _) _].
    destruct (setupComponentContainer _ _ _). cbn [fst onEngine engine] in *.
    rewrite E. exact Hhas.
  - pose proof (setupRouterContainer_shape (engine w) Components Providers selector)
      as [_ [(_ & _ & scope' & classes' & E & _)|(E & _)]];
      destruct (setupRouterContainer _ _ _ _); cbn [fst onEngine engine] in *; rewrite E.
    + apply has_set_mono. exact Hhas.
    + exact Hhas.
  - rewrite routerScopes_resolve. exact Hhas.
  - unfold get. rewrite routerScopes_resolve. exact Hhas.
  - unfold resolveFromScopes. rewrite routerScopes_resolve. exact Hhas.
Qed.

Lemma componentScopes_has_call w c sel :
  JsMap.has sel (componentScopes (engine w)) = true ->
  JsMap.has sel (componentScopes (engine (fst (call w c)))) = true.
Proof.
  intros Hhas. destruct c; cbn [call fst onEngine engine]; try exact Hhas.
  - unfold setupRootContainer.
    destruct (JsMap.has (name Entity) (rootScope (engine w))); exact Hhas.
  - pose proof (setupComponentContainer_shape (engine w) selector Providers)
      as [_ [(_ & scope' & classes' & E & _)|(E & _)]];
      destruct (setupComponentContainer _ _ _); cbn [fst onEngine engine] in *; rewrite E.
    + apply has_set_mono. exact Hhas.
    + exact Hhas.
  - pose proof (setupRouterContainer_shape (engine w) Components Providers selector)
      as [(_ & _ & E & _) _].
    destruct (setupRouterContainer _ _ _ _). cbn [fst onEngine engine] in *.
    rewrite E. exact Hhas.
  - rewrite componentScopes_resolve. exact Hhas.
  - unfold get. rewrite componentScopes_resolve. exact Hhas.
  - unfold resolveFromScopes. rewrite componentScopes_resolve. exact Hhas.
Qed.

Lemma setupComponentContainer_has w selector Providers :
  Inv w ->
  JsMap.has selector
    (componentScopes (fst (setupComponentContainer (engine w) selector Providers))) = true.
Proof.
  intros HI.
  pose proof (setupComponentContainer_shape (engine w) selector Providers)
    as [_ [(_ & scope' & classes' & E & _)|(_ & msg & Hmsg)]].
  - rewrite E. apply has_set_same.
  - destruct (setupComponentContainer_spec w selector Providers HI) as [_ Hret]. congruence.
Qed.

Lemma setupRouterContainer_has w Components Providers selector :
  Inv w ->
  JsMap.has selector
    (routerScopes (fst (setupRouterContainer (engine w) Components Providers selector))) = true.
Proof.
  intros HI.
  pose proof (setupRouterContainer_shape (engine w) Components Providers selector)
    as [_ [(_ & _ & scope' & classes' & E & _)|(_ & msg & Hmsg)]].
  - rewrite E. apply has_set_same.
  - destruct (setupRouterContainer_spec w Components Providers selector HI) as [_ Hret].
    congruence.
Qed.

(** X3: the scope of a selector exists from its first setup on, for good.
    In a fresh process [getComponentContainer] and [getRouterContainer]
    answer [undefined] for every selector; in a reachable state they answer
    the engine's container right after the setup call for the selector; and
    from any state, once they answer a container for a selector they do so
    after every further call, resets included, always with the one
    container the engine has at that moment. *)
Theorem scope_containers_persist selector :
  (getComponentContainer (engine getInstance) selector = None
   /\ getRouterContainer (engine getInstance) selector = None)
  /\ (forall w Components Providers,
        reachable w ->
        getComponentContainer
          (engine (fst (call w (CallSetupComponent selector Providers)))) selector
        = Some (container (engine (fst (call w (CallSetupComponent selector Providers)))))
        /\ getRouterContainer
             (engine (fst (call w (CallSetupRouter Components Providers selector)))) selector
           = Some (container
                     (engine (fst (call w (CallSetupRouter Components Providers selector))))))
  /\ (forall w c,
        (getComponentContainer (engine w) selector <> None ->
         getComponentContainer (engine (fst (call w c))) selector
         = Some (container (engine (fst (call w c)))))
        /\ (getRouterContainer (engine w) selector <> None ->
            getRouterContainer (engine (fst (call w c))) selector
            = Some (container (engine (fst (call w c)))))).
Proof.
  split; [split; reflexivity|]. split.
  - intros w Components Providers Hr. apply reachable_Inv in Hr.
    unfold getComponentContainer, getRouterContainer. cbn [call].
    pose proof (setupComponentContainer_has w selector Providers Hr) as Hc.
    pose proof (setupRouterContainer_has w Components Providers selector Hr) as Hro.
    destruct (setupComponentContainer _ _ _), (setupRouterContainer _ _ _ _).
    cbn [fst onEngine engine] in *. rewrite Hc, Hro. split; reflexivity.
  - intros w c. unfold getComponentContainer, getRouterContainer. split; intros Hdef.
    + destruct (JsMap.has selector (componentScopes (engine w))) eqn:Hhas;
        [|contradiction Hdef; reflexivity].
      rewrite (componentScopes_has_call w c selector Hhas). reflexivity.
    + destruct (JsMap.has selector (routerScopes (engine w))) eqn:Hhas;
        [|contradiction Hdef; reflexivity].
      rewrite (routerScopes_has_call w c selector Hhas). reflexivity.
Qed.

Lemma scope_containers_persist_witness :
  reachable threeScopes
  /\ getComponentContainer (engine threeScopes) "home-screen" <> None
  /\ getComponentContainer
       (engine (fst (call threeScopes (CallResetScope ScopeComponent (Some "home-screen")))))
       "home-screen"
     = Some (container
               (engine (fst (call threeScopes
                               (CallResetScope ScopeComponent (Some "home-screen"))))))
  /\ getRouterContainer
       (engine (fst (call threeScopes (CallSetupRouter [] [] "other"))))
       "other"
     = Some (container (engine (fst (call threeScopes (CallSetupRouter [] [] "other"))))).
Proof.
  assert (Hr : reachable threeScopes) by (apply reachable_run, reachable_getInstance).
  assert (Hdef : getComponentContainer (engine threeScopes) "home-screen" <> None)
    by discriminate.
  split; [exact Hr|]. split; [exact Hdef|]. split.
  - exact (proj1 (proj2 (proj2 (scope_containers_persist "home-screen")) threeScopes
                    (CallResetScope ScopeComponent (Some "home-screen"))) Hdef).
  - exact (proj2 (proj1 (proj2 (scope_containers_persist "other")) threeScopes [] [] Hr)).
Defined.

(** ** Membership points at existing router scopes *)

Lemma membership_scope_exists w :
  reachable w ->
  forall n sel, getRouterForComponent (engine w) n = Some sel ->
    JsMap.has sel (routerScopes (engine w)) = true.
Proof.
  induction 1 as [|w c Hr IH]; intros n sel; [discriminate|].
  rewrite (getRouterForComponent_call w c n Hr).
  assert (Hold : getRouterForComponent (engine w) n = Some sel ->
                 JsMap.has sel (routerScopes (engine (fst (call w c)))) = true).
  { intros Hget. apply routerScopes_has_call. eapply IH; eauto. }
  destruct c; try exact Hold.
  destruct (listsComponent Components n); [|exact Hold].
  intros [= <-]. cbn [call].
  pose proof (setupRouterContainer_has w Components Providers selector (reachable_Inv _ Hr)) as Hh.
  destruct (setupRouterContainer _ _ _ _). exact Hh.
Qed.

(** X2: in every reachable state a membership record points at a router
    scope that exists: [getRouterContainer] answers the container for the
    selector [getRouterForComponent] gives.  So [fetchFromRouterContainer]
    answers the container exactly for the classes whose name has a
    membership record with a non-empty selector; with no record, or with a
    record under the empty selector, it answers [undefined]. *)
Theorem fetchFromRouterContainer_follows_membership w :
  reachable w ->
  (forall n sel, getRouterForComponent (engine w) n = Some sel ->
     getRouterContainer (engine w) sel = Some (container (engine w)))
  /\ (forall Entity,
        fetchFromRouterContainer (engine w) Entity =
        match truthy (getRouterForComponent (engine w) (name Entity)) with
        | Some _ => Some (container (engine w))
        | None => None
        end).
Proof.
  intros Hr. split.
  - intros n sel Hget. unfold getRouterContainer.
    rewrite (membership_scope_exists w Hr n sel Hget). reflexivity.
  - intros Entity. unfold fetchFromRouterContainer.
    destruct (truthy (getRouterForComponent (engine w) (name Entity))) as [sel|] eqn:E;
      [|reflexivity].
    apply truthy_inv in E. rewrite (membership_scope_exists w Hr _ sel E). reflexivity.
Qed.

Lemma fetchFromRouterContainer_follows_membership_witness :
  reachable nestedRouters
  /\ fetchFromRouterContainer (engine nestedRouters) {| name := "R2"; ctor_id := 7 |}
     = Some (container (engine nestedRouters))
  /\ fetchFromRouterContainer (engine nestedRouters) Logger = None.
Proof.
  assert (Hr : reachable nestedRouters) by (apply reachable_run, reachable_getInstance).
  split; [exact Hr|]. split.
  - exact (proj2 (fetchFromRouterContainer_follows_membership nestedRouters Hr)
             {| name := "R2"; ctor_id := 7 |}).
  - exact (proj2 (fetchFromRouterContainer_follows_membership nestedRouters Hr) Logger).
Defined.

(** ** The legacy maps *)

Lemma has_keys {V : Type} (sel : string) (scopes : JsMap.t string V) :
  JsMap.has sel scopes = existsb (fun k => k =? sel) (JsMap.keys scopes).
Proof.
  unfold JsMap.has, JsMap.keys.
  induction scopes as [|[k v] scopes IH]; cbn [JsMap.get map existsb fst]; [reflexivity|].
  cbn [key_eqb EqKey_string]. rewrite (String.eqb_sym sel k).
  destruct (k =? sel); [reflexivity | exact IH].
Qed.

Lemma get_fold_set (c : DependencyContainer) (sel : string) (ks : list string) :
  forall m0 : JsMap.t string DependencyContainer,
  JsMap.get sel (fold_left (fun legacy selector => JsMap.set selector c legacy) ks m0)
  = if existsb (fun k => k =? sel) ks then Some c else JsMap.get sel m0.
Proof.
  induction ks as [|k ks IH]; intros m0; cbn [fold_left existsb]; [reflexivity|].
  rewrite IH, get_set. cbn [key_eqb EqKey_string].
  destruct (existsb _ ks); [rewrite orb_true_r; reflexivity|].
  rewrite orb_false_r. reflexivity.
Qed.

Lemma get_legacyMap {V : Type} (scopes : JsMap.t string V) c sel :
  JsMap.get sel (legacyMap scopes c) = if JsMap.has sel scopes then Some c else None.
Proof.
  unfold legacyMap. rewrite get_fold_set, <- has_keys. reflexivity.
Qed.

(** X4: the legacy [component] and [router] maps agree with the accessors:
    looking a selector up in the map the getter builds gives what
    [getComponentContainer] ([getRouterContainer]) gives for it, the one
    container for a selector that has been set up and [undefined]
    otherwise. *)
Theorem legacy_maps_agree_with_accessors this selector :
  JsMap.get selector (component this) = getComponentContainer this selector
  /\ JsMap.get selector (router this) = getRouterContainer this selector.
Proof.
  unfold component, router, getComponentContainer, getRouterContainer.
  rewrite !get_legacyMap.
  destruct (JsMap.has selector (componentScopes this)),
           (JsMap.has selector (routerScopes this)); split; reflexivity.
Qed.

(** ** [resolveFromScopes] *)

Lemma firstSelector_set {V : Type} (scopes : JsMap.t string V) k v s :
  firstSelector true scopes = Some s ->
  firstSelector true (JsMap.set k v scopes) = Some s.
Proof.
  unfold firstSelector, JsMap.entries. destruct scopes as [|[k0 v0] scopes]; [discriminate|].
  cbn [JsMap.set]. destruct (key_eqb k k0); tauto.
Qed.

Lemma firstSelector_componentScopes_call w c s :
  firstSelector true (componentScopes (engine w)) = Some s ->
  firstSelector true (componentScopes (engine (fst (call w c)))) = Some s.
Proof.
  intros Hf. destruct c; cbn [call fst onEngine engine]; try exact Hf.
  - unfold setupRootContainer.
    destruct (JsMap.has (name Entity) (rootScope (engine w))); exact Hf.
  - pose proof (setupComponentContainer_shape (engine w) selector Providers)
      as [_ [(_ & scope' & classes' & E & _)|(E & _)]];
      destruct (setupComponentContainer _ _ _); cbn [fst onEngine engine] in *; rewrite E.
    + apply firstSelector_set. exact Hf.
    + exact Hf.
  - pose proof (setupRouterContainer_shape (engine w) Components Providers selector)
      as [(_ & _ & E & _) _].
    destruct (setupRouterContainer _ _ _ _). cbn [fst onEngine engine] in *.
    rewrite E. exact Hf.
  - rewrite componentScopes_resolve. exact Hf.
  - unfold get. rewrite componentScopes_resolve. exact Hf.
  - unfold resolveFromScopes. rewrite componentScopes_resolve. exact Hf.
Qed.

Lemma firstSelector_routerScopes_call w c s :
  firstSelector true (routerScopes (engine w)) = Some s ->
  firstSelector true (routerScopes (engine (fst (call w c)))) = Some s.
Proof.
  intros Hf. destruct c; cbn [call fst onEngine engine]; try exact Hf.
  - unfold setupRootContainer.
    destruct (JsMap.has (name Entity) (rootScope (engine w))); exact Hf.
  - pose proof (setupComponentContainer_shape (engine w) selector Providers)
      as [(_ & _ & E & _) _].
    destruct (setupComponentContainer _ _ _). cbn [fst onEngine engine] in *.
    rewrite E. exact Hf.
  - pose proof (setupRouterContainer_shape (engine w) Components Providers selector)
      as [_ [(_ & _ & scope' & classes' & E & _)|(E & _)]];
      destruct (setupRouterContainer _ _ _ _); cbn [fst onEngine engine] in *; rewrite E.
    + apply firstSelector_set. exact Hf.
    + exact Hf.
  - rewrite routerScopes_resolve. exact Hf.
  - unfold get. rewrite routerScopes_resolve. exact Hf.
  - unfold resolveFromScopes. rewrite routerScopes_resolve. exact Hf.
Qed.

Lemma firstSelector_run {V : Type} (field : DependencyManagement -> JsMap.t string V) calls s :
  (forall w c, firstSelector true (field (engine w)) = Some s ->
               firstSelector true (field (engine (fst (call w c)))) = Some s) ->
  forall w, firstSelector true (field (engine w)) = Some s ->
            firstSelector true (field (engine (run w calls))) = Some s.
Proof.
  intros Hstep. unfold run.
  induction calls as [|c calls IH]; intros w Hf; cbn [fold_left]; [exact Hf|].
  apply IH, Hstep, Hf.
Qed.

(** X5: [resolveFromScopes] looks in the oldest scopes.  A container
    argument only says whether a selector is wanted; the selector used is
    the first key of the scope map, and the scope set up first keeps that
    place whatever calls follow, so with both containers passed the call is
    [resolve] with the first component selector and the first router
    selector ever set up, and no owner.  Without container arguments it is
    [resolve] with the name alone, and a container passed while no scope of
    its kind exists is ignored. *)
Theorem resolveFromScopes_uses_first_scopes w calls EntityName :
  (forall s r,
     firstSelector true (componentScopes (engine w)) = Some s ->
     firstSelector true (routerScopes (engine w)) = Some r ->
     resolveFromScopes (run w calls) EntityName true true
     = resolve (run w calls) EntityName (Some s) (Some r) None)
  /\ resolveFromScopes w EntityName false false = resolve w EntityName None None None
  /\ resolveFromScopes getInstance EntityName true true
     = resolve getInstance EntityName None None None.
Proof.
  split; [|split; reflexivity].
  intros s r Hs Hr. unfold resolveFromScopes.
  rewrite (firstSelector_run componentScopes calls s
             (fun w c => firstSelector_componentScopes_call w c s) w Hs).
  rewrite (firstSelector_run routerScopes calls r
             (fun w c => firstSelector_routerScopes_call w c r) w Hr).
  reflexivity.
Qed.

Lemma resolveFromScopes_uses_first_scopes_witness :
  let calls := [CallSetupComponent "profile-screen" [Logger];
                CallSetupRouter [] [Config] "other-router";
                CallResetAll] in
  firstSelector true (componentScopes (engine threeScopes)) = Some "home-screen"
  /\ firstSelector true (routerScopes (engine threeScopes)) = Some "main-nav-router"
  /\ resolveFromScopes (run threeScopes calls) "Logger" true true
     = resolve (run threeScopes calls) "Logger"
         (Some "home-screen") (Some "main-nav-router") None.
Proof.
  intros calls. split; [reflexivity|]. split; [reflexivity|].
  exact (proj1 (resolveFromScopes_uses_first_scopes threeScopes calls "Logger")
           "home-screen" "main-nav-router" eq_refl eq_refl).
Defined.

(** ** The root scope is shared *)


Lemma reachable_resolve w className cs rs ccn :
  reachable w -> reachable (fst (resolve w className cs rs ccn)).
Proof. intros Hr. apply (reachable_call w (CallResolve className cs rs ccn) Hr). Qed.




(** ** Construction is lazy *)





(** ** Setting up one component scope leaves the others alone *)

Lemma settled_registerIfAbsent c t P token :
  settled c token ->
  getRegistration (registerIfAbsent c t P) token = getRegistration c token
  /\ settled (registerIfAbsent c t P) token.
Proof.
  intros Hs. unfold registerIfAbsent.
  destruct (isRegistered c (TSymbol t)) eqn:E; [tauto|].
  assert (Hne : key_eqb (TSymbol t) token = false).
  { apply key_eqb_neq. intros <-. destruct Hs as [Hreg|[s Hs]]; congruence. }
  split.
  - rewrite getRegistration_register, Hne. reflexivity.
  - destruct Hs as [Hreg|Hs]; [left | right; exact Hs].
    rewrite isRegistered_register, Hne. exact Hreg.
Qed.

Lemma settled_registerProviders key Ps token : forall st,
  settled (snd st) token ->
  getRegistration (snd (registerProviders key Ps st)) token = getRegistration (snd st) token.
Proof.
  unfold registerProviders. induction Ps as [|P Ps IH]; intros st Hs; cbn [fold_left].
  - reflexivity.
  - destruct st as [[scope classes] c]. unfold registerProvider at 2.
    destruct (JsMap.has (name P) scope); [apply IH; exact Hs|].
    cbn [snd] in *.
    destruct (settled_registerIfAbsent c (getToken (name P) key) P token Hs) as [E Hs'].
    rewrite IH by exact Hs'. exact E.
Qed.

Lemma settled_setupComponentContainer this selector Providers token :
  settled (container this) token ->
  getRegistration (container (fst (setupComponentContainer this selector Providers))) token
  = getRegistration (container this) token.
Proof.
  intros Hs. unfold setupComponentContainer.
  rewrite <- (ensureComponentScope_container this selector) in Hs |- *.
  set (this1 := ensureComponentScope this selector) in *.
  destruct (JsMap.get selector (componentScopes this1)) as [scope|]; [|reflexivity].
  destruct (JsMap.get selector (componentClasses this1)) as [classes|]; [|reflexivity].
  pose proof (settled_registerProviders ("component:" ++ selector) Providers token
                (scope, classes, container this1) Hs) as E.
  destruct (registerProviders _ _ _) as [[scope' classes'] c']. exact E.
Qed.

Lemma resolveToken_outcome w w' token :
  getRegistration (container (engine w')) token = getRegistration (container (engine w)) token ->
  nextRef w' = nextRef w ->
  snd (resolveToken w' token) = snd (resolveToken w token).
Proof.
  intros Hreg Hnext. unfold resolveToken, containerResolve. rewrite Hreg, Hnext.
  destruct (getRegistration (container (engine w)) token) as [reg|]; [|reflexivity].
  destruct (provider reg); [reflexivity|].
  destruct (lifecycle reg); [reflexivity|].
  destruct (instance reg); reflexivity.
Qed.

Lemma resolveTarget_settled this className cs rs ccn token :
  resolveTarget this className cs rs ccn = Some token -> settled (container this) token.
Proof.
  intros Ht. destruct token as [s|t]; [right; eauto | left].
  eapply resolveTarget_symbol_registered; eauto.
Qed.

(** X7: component scopes are isolated from one another's setup.  In a
    reachable state, setting up the scope of component selector [a], with
    any providers, does not change the outcome of any [resolve] call that
    is not made with [a] as its component selector: the same instance, the
    same [undefined] or the same exception as without the setup. *)
Theorem component_setup_is_isolated w a Providers className cs rs ccn :
  reachable w ->
  truthy cs <> Some a ->
  snd (resolve (fst (call w (CallSetupComponent a Providers))) className cs rs ccn)
  = snd (resolve w className cs rs ccn).
Proof.
  intros Hr Hcs. pose proof (reachable_Inv _ Hr) as HI.
  set (w' := fst (call w (CallSetupComponent a Providers))).
  assert (HI' : Inv w') by (apply Inv_call; exact HI).
  assert (Hnext : nextRef w' = nextRef w).
  { unfold w'. cbn [call]. destruct (setupComponentContainer _ _ _). reflexivity. }
  assert (Heng : engine w' = fst (setupComponentContainer (engine w) a Providers)).
  { unfold w'. cbn [call]. destruct (setupComponentContainer _ _ _). reflexivity. }
  pose proof (setupComponentContainer_shape (engine w) a Providers)
    as [(E1 & _ & E2 & _ & E3 & _) Hcomp].
  rewrite <- Heng in E1, E2, E3, Hcomp.
  assert (Ht : resolveTarget (engine w') className cs rs ccn
               = resolveTarget (engine w) className cs rs ccn).
  { rewrite !resolveTarget_Inv by assumption. rewrite E1, E2, E3.
    unfold tableTarget. destruct (className =? reservedName); [reflexivity|].
    destruct (truthy cs) as [sel|] eqn:Ecs; [|reflexivity].
    destruct Hcomp as [(_ & scope' & classes' & Ec & _)|(Ec & _)]; rewrite Ec.
    - unfold scopedToken. rewrite get_set_other; [reflexivity|]. congruence.
    - reflexivity. }
  rewrite !resolve_via_target, Ht.
  destruct (resolveTarget (engine w) className cs rs ccn) as [token|] eqn:Etok;
    [|reflexivity].
  apply resolveToken_outcome; [|exact Hnext].
  rewrite Heng. apply settled_setupComponentContainer.
  eapply resolveTarget_settled; eauto.
Qed.

Lemma component_setup_is_isolated_witness :
  reachable threeScopes
  /\ truthy (Some "home-screen") <> Some "profile-screen"
  /\ snd (resolve (fst (call threeScopes (CallSetupComponent "profile-screen" [Logger; Config])))
            "Logger" (Some "home-screen") None None)
     = Returned (Some (VObject 0 Logger))
  /\ snd (resolve (fst (call threeScopes (CallSetupComponent "profile-screen" [Logger; Config])))
            "Config" (Some "home-screen") None None)
     = Returned None.
Proof.
  assert (Hr : reachable threeScopes) by (apply reachable_run, reachable_getInstance).
  assert (Hne : truthy (Some "home-screen") <> Some "profile-screen") by discriminate.
  split; [exact Hr|]. split; [exact Hne|]. split.
  - rewrite (component_setup_is_isolated threeScopes "profile-screen" [Logger; Config]
               "Logger" (Some "home-screen") None None Hr Hne). reflexivity.
  - rewrite (component_setup_is_isolated threeScopes "profile-screen" [Logger; Config]
               "Config" (Some "home-screen") None None Hr Hne). reflexivity.
Defined.

(** ** The ambient context *)

Lemma resolveTarget_with_context this s r className cs rs ccn :
  resolveTarget (with_context s r this) className cs rs ccn
  = resolveTarget this className cs rs ccn.
Proof. reflexivity. Qed.

Lemma resolve_with_context w s r className cs rs ccn :
  resolve (onEngine w (with_context s r (engine w))) className cs rs ccn
  = (onEngine (fst (resolve w className cs rs ccn))
       (with_context s r (engine (fst (resolve w className cs rs ccn)))),
     snd (resolve w className cs rs ccn)).
Proof.
  rewrite !resolve_via_target. cbn [onEngine engine].
  rewrite resolveTarget_with_context.
  destruct (resolveTarget (engine w) className cs rs ccn) as [token|]; [|reflexivity].
  unfold resolveToken. cbn [onEngine engine nextRef with_context container].
  destruct (containerResolve _ _ _) as [[c next] o]. reflexivity.
Qed.

Lemma context_resolve w className cs rs ccn :
  currentSelector (engine (fst (resolve w className cs rs ccn))) = currentSelector (engine w)
  /\ currentRouterSelector (engine (fst (resolve w className cs rs ccn)))
     = currentRouterSelector (engine w).
Proof. destruct (resolve_engine w className cs rs ccn) as [c' ->]. split; reflexivity. Qed.

(** X11: the ambient context is what [get] resolves with, and nothing else
    reads or changes it.  After [setContext(s, r)], [get(name)] has the
    outcome of [resolve(name, s, r)] without owner, whatever context was set
    before; after [clearContext()] it has the outcome of [resolve(name)];
    the outcome of [resolve] itself does not depend on the context; and
    every call other than [setContext] and [clearContext], the resets
    included, leaves both selectors of the context as they are. *)
Theorem context_drives_get_only w s r className :
  snd (get (onEngine w (setContext (engine w) s r)) className)
    = snd (resolve w className s r None)
  /\ snd (get (onEngine w (clearContext (engine w))) className)
     = snd (resolve w className None None None)
  /\ (forall cs rs ccn,
        snd (resolve (onEngine w (setContext (engine w) s r)) className cs rs ccn)
        = snd (resolve w className cs rs ccn))
  /\ (forall c,
        match c with
        | CallSetContext s' r' =>
            getCurrentSelector (engine (fst (call w c))) = s'
            /\ getCurrentRouterSelector (engine (fst (call w c))) = r'
        | CallClearContext =>
            getCurrentSelector (engine (fst (call w c))) = None
            /\ getCurrentRouterSelector (engine (fst (call w c))) = None
        | _ =>
            getCurrentSelector (engine (fst (call w c))) = getCurrentSelector (engine w)
            /\ getCurrentRouterSelector (engine (fst (call w c)))
               = getCurrentRouterSelector (engine w)
        end).
Proof.
  unfold get, setContext, clearContext, getCurrentSelector, getCurrentRouterSelector.
  split; [|split; [|split]].
  - cbn [onEngine engine with_context currentSelector currentRouterSelector].
    rewrite resolve_with_context. reflexivity.
  - cbn [onEngine engine with_context currentSelector currentRouterSelector].
    rewrite resolve_with_context. reflexivity.
  - intros cs rs ccn. rewrite resolve_with_context. reflexivity.
  - intros c. destruct c; cbn [call fst onEngine engine]; try (split; reflexivity).
    + unfold setupRootContainer.
      destruct (JsMap.has (name Entity) (rootScope (engine w))); split; reflexivity.
    + pose proof (setupComponentContainer_shape (engine w) selector Providers)
        as [(_ & _ & _ & _ & _ & E1 & E2) _].
      destruct (setupComponentContainer _ _ _). cbn [fst onEngine engine] in *. auto.
    + pose proof (setupRouterContainer_shape (engine w) Components Providers selector)
        as [(_ & _ & _ & _ & E1 & E2) _].
      destruct (setupRouterContainer _ _ _ _). cbn [fst onEngine engine] in *. auto.
    + apply context_resolve.
    + apply context_resolve.
    + apply context_resolve.
Qed.

(** ** What [resolve] leaves alone *)

Lemma registeredAs_cacheInstance c token v token' :
  registeredAs (cacheInstance c token v) token' = registeredAs c token'.
Proof.
  unfold registeredAs. rewrite getRegistration_cacheInstance.
  destruct (key_eqb token token') eqn:E; [|reflexivity].
  apply key_eqb_eq in E. subst token'.
  destruct (getRegistration c token); reflexivity.
Qed.

Lemma containerResolve_registrations c next token token' :
  registeredAs (fst (fst (containerResolve c next token))) token' = registeredAs c token'
  /\ isRegistered (fst (fst (containerResolve c next token))) token' = isRegistered c token'.
Proof.
  unfold containerResolve. destruct (getRegistration c token) as [reg|]; [|tauto].
  destruct (provider reg); [tauto|].
  destruct (lifecycle reg); [tauto|].
  destruct (instance reg); [tauto|]. cbn [fst].
  split; [apply registeredAs_cacheInstance | apply isRegistered_cacheInstance].
Qed.

(** X14: [resolve] (and so [get] and [resolveFromScopes]) only ever caches
    an instance.  From any state, whatever the arguments and the outcome,
    the call leaves the scope tables, the class tables, the membership
    records and the ambient context unchanged, and every token stays
    registered or unregistered as it was, with the same provider and
    lifecycle. *)
Theorem resolve_only_caches w className cs rs ccn :
  let this' := engine (fst (resolve w className cs rs ccn)) in
  (rootScope this' = rootScope (engine w)
   /\ routerScopes this' = routerScopes (engine w)
   /\ componentScopes this' = componentScopes (engine w)
   /\ rootClasses this' = rootClasses (engine w)
   /\ routerClasses this' = routerClasses (engine w)
   /\ componentClasses this' = componentClasses (engine w)
   /\ componentToRouter this' = componentToRouter (engine w)
   /\ currentSelector this' = currentSelector (engine w)
   /\ currentRouterSelector this' = currentRouterSelector (engine w))
  /\ forall token,
       isRegistered (container this') token = isRegistered (container (engine w)) token
       /\ registeredAs (container this') token = registeredAs (container (engine w)) token.
Proof.
  cbv zeta. split.
  - destruct (resolve_engine w className cs rs ccn) as [c' ->]. repeat split.
  - intros token. rewrite resolve_via_target.
    destruct (resolveTarget _ _ _ _ _) as [target|]; [|tauto].
    unfold resolveToken.
    pose proof (containerResolve_registrations (container (engine w)) (nextRef w)
                  target token) as [H1 H2].
    destruct (containerResolve _ _ _) as [[c next] o]. cbn in *. tauto.
Qed.

(** ** The scope tables and the container stay in step *)

(** X12: in every reachable state each entry of a scope table holds the
    token derived from its scope key and name, that token is registered in
    the container, and the class table of the scope has the class for the
    name; and whatever is registered under a symbol token is a class with
    the singleton lifecycle. *)
Theorem scope_tables_stay_registered w :
  reachable w ->
  (forall n t, JsMap.get n (rootScope (engine w)) = Some t ->
     t = getToken n "root"
     /\ isRegistered (container (engine w)) (TSymbol t) = true
     /\ JsMap.has n (rootClasses (engine w)) = true)
  /\ (forall sel scope n t,
        JsMap.get sel (routerScopes (engine w)) = Some scope ->
        JsMap.get n scope = Some t ->
        t = getToken n ("router:" ++ sel)
        /\ isRegistered (container (engine w)) (TSymbol t) = true
        /\ exists classes, JsMap.get sel (routerClasses (engine w)) = Some classes
             /\ JsMap.has n classes = true)
  /\ (forall sel scope n t,
        JsMap.get sel (componentScopes (engine w)) = Some scope ->
        JsMap.get n scope = Some t ->
        t = getToken n ("component:" ++ sel)
        /\ isRegistered (container (engine w)) (TSymbol t) = true
        /\ exists classes, JsMap.get sel (componentClasses (engine w)) = Some classes
             /\ JsMap.has n classes = true)
  /\ (forall t, isRegistered (container (engine w)) (TSymbol t) = true ->
        exists cls, registeredAs (container (engine w)) (TSymbol t)
                    = Some (UseClass cls, Singleton)).
Proof.
  intros Hr. apply reachable_Inv in Hr. destruct Hr as [I1 I2 I3 I4].
  split; [exact I2|]. split; [|split].
  - intros sel scope n t Hs Hn. destruct (I3 _ _ Hs) as (classes & Hc & Htab).
    destruct (Htab _ _ Hn) as (Ht & Hreg & Hhas). eauto 6.
  - intros sel scope n t Hs Hn. destruct (I4 _ _ Hs) as (classes & Hc & Htab).
    destruct (Htab _ _ Hn) as (Ht & Hreg & Hhas). eauto 6.
  - intros t Hreg. apply isRegistered_getRegistration in Hreg. destruct Hreg as [reg Hget].
    pose proof (regsOk_current _ _ _ _ I1 Hget) as [[[cls Hp] Hl] _].
    exists cls. unfold registeredAs. rewrite Hget. cbn. rewrite Hp, Hl. reflexivity.
Qed.

Lemma scope_tables_stay_registered_witness :
  reachable threeScopes
  /\ isRegistered (container (engine threeScopes))
       (TSymbol (getToken "Logger" "router:main-nav-router")) = true
  /\ exists cls, registeredAs (container (engine threeScopes))
                   (TSymbol (getToken "Logger" "root")) = Some (UseClass cls, Singleton).
Proof.
  assert (Hr : reachable threeScopes) by (apply reachable_run, reachable_getInstance).
  pose proof (scope_tables_stay_registered threeScopes Hr) as (_ & H2 & _ & H4).
  split; [exact Hr|]. split.
  - exact (proj1 (proj2 (H2 "main-nav-router" _ "Logger" _ eq_refl eq_refl))).
  - apply H4. reflexivity.
Defined.

(** ** Different scopes, different instances *)

Lemma distinct_register c token p l :
  distinctInstances c -> distinctInstances (register c token p l).
Proof.
  intros Hd t1 t2 r1 r2 v. rewrite !getRegistration_register.
  destruct (key_eqb token (TSymbol t1)); [intros [= <-] _ Hi; discriminate|].
  destruct (key_eqb token (TSymbol t2)); [intros _ [= <-] _ Hi; discriminate|].
  apply Hd.
Qed.

Lemma distinct_registerIfAbsent c t P :
  distinctInstances c -> distinctInstances (registerIfAbsent c t P).
Proof.
  unfold registerIfAbsent. destruct (isRegistered c (TSymbol t)); [tauto|].
  apply distinct_register.
Qed.

Lemma distinct_registerProviders key Ps : forall st,
  distinctInstances (snd st) -> distinctInstances (snd (registerProviders key Ps st)).
Proof.
  unfold registerProviders. induction Ps as [|P Ps IH]; intros st Hd; cbn [fold_left].
  - exact Hd.
  - apply IH. destruct st as [[scope classes] c]. unfold registerProvider.
    destruct (JsMap.has (name P) scope); cbn [snd] in *; [exact Hd|].
    apply distinct_registerIfAbsent. exact Hd.
Qed.

Lemma distinct_setupRootContainer this Entity :
  distinctInstances (container this) ->
  distinctInstances (container (setupRootContainer this Entity)).
Proof.
  intros Hd. unfold setupRootContainer.
  destruct (JsMap.has (name Entity) (rootScope this)); [exact Hd|].
  cbn [with_container container]. apply distinct_registerIfAbsent. exact Hd.
Qed.

Lemma distinct_setupComponentContainer this selector Providers :
  distinctInstances (container this) ->
  distinctInstances (container (fst (setupComponentContainer this selector Providers))).
Proof.
  intros Hd. unfold setupComponentContainer.
  rewrite <- (ensureComponentScope_container this selector) in Hd.
  set (this1 := ensureComponentScope this selector) in *.
  destruct (JsMap.get selector (componentScopes this1)) as [scope|]; [|exact Hd].
  destruct (JsMap.get selector (componentClasses this1)) as [classes|]; [|exact Hd].
  pose proof (distinct_registerProviders ("component:" ++ selector) Providers
                (scope, classes, container this1) Hd) as Hd'.
  destruct (registerProviders _ _ _) as [[scope' classes'] c']. exact Hd'.
Qed.

Lemma distinct_setupRouterContainer this Components Providers selector :
  distinctInstances (container this) ->
  distinctInstances
    (container (fst (setupRouterContainer this Components Providers selector))).
Proof.
  intros Hd. unfold setupRouterContainer.
  rewrite <- (ensureRouterScope_container this selector) in Hd.
  set (this1 := ensureRouterScope this selector) in *.
  destruct (JsMap.get selector (routerScopes this1)) as [scope|]; [|exact Hd].
  destruct (JsMap.get selector (routerClasses this1)) as [classes|]; [|exact Hd].
  cbn [with_membership container routerScopes routerClasses].
  pose proof (distinct_registerProviders ("router:" ++ selector) Providers
                (scope, classes, container this1) Hd) as Hd'.
  destruct (registerProviders _ _ _) as [[scope' classes'] c']. exact Hd'.
Qed.

Lemma distinct_cacheInstance next c token cls :
  regsOk next c -> distinctInstances c ->
  distinctInstances (cacheInstance c token (VObject next cls)).
Proof.
  intros Hok Hd t1 t2 r1 r2 v. rewrite !getRegistration_cacheInstance.
  assert (Hold : forall t r, getRegistration c (TSymbol t) = Some r ->
                   instance r <> Some (VObject next cls)).
  { intros t r Hget Hi. pose proof (regsOk_current _ _ _ _ Hok Hget) as [_ Hb].
    rewrite Hi in Hb. cbn in Hb. lia. }
  destruct (key_eqb token (TSymbol t1)) eqn:E1, (key_eqb token (TSymbol t2)) eqn:E2.
  - apply key_eqb_eq in E1, E2. congruence.
  - destruct (getRegistration c token) as [r|]; [|discriminate].
    intros [= <-] H2 [= <-] Hi2. exfalso. eapply Hold; eauto.
  - destruct (getRegistration c token) as [r|]; [|discriminate].
    intros H1 [= <-] Hi1 [= Hv]. subst v. exfalso. eapply Hold; eauto.
  - apply Hd.
Qed.

Lemma distinct_containerResolve next c token :
  regsOk next c -> distinctInstances c ->
  distinctInstances (fst (fst (containerResolve c next token))).
Proof.
  intros Hok Hd. unfold containerResolve.
  destruct (getRegistration c token) as [reg|]; [|exact Hd].
  destruct (provider reg); [exact Hd|].
  destruct (lifecycle reg); [exact Hd|].
  destruct (instance reg); [exact Hd|].
  cbn [fst]. apply distinct_cacheInstance; assumption.
Qed.

Lemma distinct_resolve w className cs rs ccn :
  Inv w -> distinctInstances (container (engine w)) ->
  distinctInstances (container (engine (fst (resolve w className cs rs ccn)))).
Proof.
  intros HI Hd. rewrite resolve_via_target.
  destruct (resolveTarget _ _ _ _ _) as [token|]; [|exact Hd].
  unfold resolveToken.
  pose proof (distinct_containerResolve (nextRef w) _ token (inv_regs _ HI) Hd) as Hd'.
  destruct (containerResolve _ _ _) as [[c next] o]. exact Hd'.
Qed.

Lemma distinct_no_instances c :
  regsOk 0 c -> distinctInstances c.
Proof.
  intros Hok t1 t2 r1 r2 v H1 _ Hi _.
  pose proof (regsOk_current _ _ _ _ Hok H1) as [_ Hb].
  rewrite Hi in Hb. destruct v; cbn in Hb; [contradiction | lia].
Qed.

Lemma reachable_distinctInstances w :
  reachable w -> distinctInstances (container (engine w)).
Proof.
  induction 1 as [|w c Hr IH].
  - apply distinct_register. apply distinct_no_instances, regsOk_createChildContainer.
  - pose proof (reachable_Inv _ Hr) as HI. destruct c; cbn [call fst onEngine engine].
    + exact IH.
    + exact IH.
    + apply distinct_setupRootContainer. exact IH.
    + pose proof (distinct_setupComponentContainer _ selector Providers IH) as Hd.
      destruct (setupComponentContainer _ _ _). exact Hd.
    + pose proof (distinct_setupRouterContainer _ Components Providers selector IH) as Hd.
      destruct (setupRouterContainer _ _ _ _). exact Hd.
    + apply distinct_resolve; assumption.
    + apply distinct_resolve; assumption.
    + apply distinct_resolve; assumption.
    + apply distinct_no_instances, regsOk_zero_resetScope.
    + apply distinct_no_instances, (regsOk_zero_resetScope (engine w) ScopeRoot None).
    + apply distinct_no_instances. unfold resetAll. cbn [with_container container].
      apply (regsOk_zero_clearInstances (nextRef w)), (inv_regs _ HI).
Qed.

(** X13: scopes never share an instance.  In every reachable state two
    different scope tokens hold different instances; so a name provided in
    two scopes (root and a router, two components, ...) resolves to two
    objects that are not reference-equal, a provider re-registered in an
    inner scope getting an instance of its own. *)
Theorem scopes_never_share_an_instance w t1 t2 v1 v2 :
  reachable w ->
  holds (container (engine w)) (TSymbol t1) v1 ->
  holds (container (engine w)) (TSymbol t2) v2 ->
  t1 <> t2 -> v1 <> v2.
Proof.
  intros Hr (r1 & H1 & Hv1) (r2 & H2 & Hv2) Hne Heq. subst v2.
  pose proof (reachable_Inv _ Hr) as [Hok _ _ _].
  pose proof (regsOk_current _ _ _ _ Hok H1) as [[[c1 Hp1] _] _].
  pose proof (regsOk_current _ _ _ _ Hok H2) as [[[c2 Hp2] _] _].
  rewrite Hp1 in Hv1. rewrite Hp2 in Hv2.
  destruct Hv1 as [_ Hi1], Hv2 as [_ Hi2].
  apply Hne. exact (reachable_distinctInstances w Hr t1 t2 r1 r2 v1 H1 H2 Hi1 Hi2).
Qed.

Lemma scopes_never_share_an_instance_witness :
  let w := run threeScopes
             [CallResolve "Logger" None None None;
              CallResolve "Logger" (Some "home-screen") None None] in
  reachable w
  /\ holds (container (engine w)) (TSymbol (getToken "Logger" "root")) (VObject 0 Logger)
  /\ holds (container (engine w)) (TSymbol (getToken "Logger" "component:home-screen"))
       (VObject 1 Logger)
  /\ VObject 0 Logger <> VObject 1 Logger.
Proof.
  intros w.
  assert (Hr : reachable w) by (apply reachable_run, reachable_run, reachable_getInstance).
  assert (H1 : holds (container (engine w)) (TSymbol (getToken "Logger" "root"))
                 (VObject 0 Logger)).
  { exists (withInstance (VObject 0 Logger) (newRegistration (UseClass Logger) Singleton)).
    split; [vm_compute; reflexivity | split; reflexivity]. }
  assert (H2 : holds (container (engine w))
                 (TSymbol (getToken "Logger" "component:home-screen")) (VObject 1 Logger)).
  { exists (withInstance (VObject 1 Logger) (newRegistration (UseClass Logger) Singleton)).
    split; [vm_compute; reflexivity | split; reflexivity]. }
  split; [exact Hr|]. split; [exact H1|]. split; [exact H2|].
  apply (scopes_never_share_an_instance w _ _ _ _ Hr H1 H2). discriminate.
Defined.

(** ** How the resets compose *)

Lemma clearRegistration_fresh r : instance r = None -> clearRegistration r = r.
Proof. destruct r as [p l i]. cbn. intros ->. reflexivity. Qed.

Lemma freshList_clear regs :
  freshList regs ->
  map clearRegistration (filter (fun r => negb (isValueProvider (provider r))) regs) = regs.
Proof.
  induction 1 as [|r regs [Hp Hi] _ IH]; [reflexivity|].
  cbn [filter]. rewrite Hp. cbn [negb map]. rewrite IH, clearRegistration_fresh by exact Hi.
  reflexivity.
Qed.

Lemma freshList_cleared regs :
  freshList (map clearRegistration
               (filter (fun r => negb (isValueProvider (provider r))) regs)).
Proof.
  induction regs as [|r regs IH]; [constructor|].
  cbn [filter]. destruct (isValueProvider (provider r)) eqn:E; cbn [negb]; [exact IH|].
  cbn [map]. constructor; [|exact IH]. split; [exact E | reflexivity].
Qed.

Lemma clearInstances_fresh c : freshRegistry c -> clearInstances c = c.
Proof.
  destruct c as [reg]. unfold freshRegistry, clearInstances. cbn [registry].
  intros Hf. f_equal. induction Hf as [|[k regs] reg Hk _ IH]; [reflexivity|].
  cbn [map fst snd] in *. rewrite IH, freshList_clear by exact Hk. reflexivity.
Qed.

Lemma freshRegistry_clearInstances c : freshRegistry (clearInstances c).
Proof.
  destruct c as [reg]. unfold freshRegistry, clearInstances. cbn [registry].
  induction reg as [|[k regs] reg IH]; [constructor|].
  cbn [map fst snd]. constructor; [apply freshList_cleared | exact IH].
Qed.

Lemma freshRegistry_registrationsOf c token :
  freshRegistry c -> freshList (registrationsOf c token).
Proof.
  unfold freshRegistry, registrationsOf. intros Hf.
  induction Hf as [|[k regs] reg Hk _ IH]; [constructor|].
  cbn [JsMap.get]. destruct (key_eqb token k); [exact Hk | exact IH].
Qed.

Lemma Forall_values_set {K V : Type} `{EqKey K} (Q : V -> Prop) (k : K) (v : V)
    (m : JsMap.t K V) :
  Forall (fun e => Q (snd e)) m -> Q v -> Forall (fun e => Q (snd e)) (JsMap.set k v m).
Proof.
  intros Hm Hv. induction Hm as [|[k' v'] m Hk Hm' IH]; cbn [JsMap.set].
  - constructor; [exact Hv | constructor].
  - destruct (key_eqb k k'); constructor; auto.
Qed.

Lemma freshRegistry_register_class c token P :
  freshRegistry c -> freshRegistry (register c token (UseClass P) Singleton).
Proof.
  intros Hf. unfold freshRegistry, register. cbn [registry].
  apply Forall_values_set; [exact Hf|].
  apply Forall_app. split; [apply freshRegistry_registrationsOf; exact Hf|].
  constructor; [split; reflexivity | constructor].
Qed.

Lemma freshRegistry_reregisterScope scope classes : forall c,
  freshRegistry c -> freshRegistry (reregisterScope scope classes c).
Proof.
  unfold reregisterScope, JsMap.entries.
  induction scope as [|[n t] scope IH]; intros c Hf; cbn [fold_left]; [exact Hf|].
  apply IH. cbn [fst snd]. destruct (JsMap.get n classes); [|exact Hf].
  apply freshRegistry_register_class. exact Hf.
Qed.

Lemma freshRegistry_reregisterScopes scopes classesMap : forall c,
  freshRegistry c -> freshRegistry (reregisterScopes scopes classesMap c).
Proof.
  unfold reregisterScopes, JsMap.entries.
  induction scopes as [|[sel scope] scopes IH]; intros c Hf; cbn [fold_left]; [exact Hf|].
  apply IH. cbn [fst snd]. destruct (JsMap.get sel classesMap); [|exact Hf].
  apply freshRegistry_reregisterScope. exact Hf.
Qed.

Lemma freshRegistry_resetScope this scope selector :
  freshRegistry (container (resetScope this scope selector)).
Proof.
  unfold resetScope, reregisterAll.
  cbn [with_container container rootScope rootClasses routerScopes routerClasses
       componentScopes componentClasses].
  apply freshRegistry_reregisterScopes, freshRegistry_reregisterScopes,
    freshRegistry_reregisterScope. constructor.
Qed.

Lemma with_container_twice c c' this :
  with_container c (with_container c' this) = with_container c this.
Proof. reflexivity. Qed.

(** X9: the resets ignore their arguments and compose as expected.  From
    any state: [resetScope] with any scope kind and selector, and
    [resetClass] with any class name, all do the same thing; doing a full
    reset twice is doing it once; [resetAll] twice is [resetAll] once;
    [resetAll] after a full reset changes nothing; and a full reset after
    [resetAll] is the full reset. *)
Theorem resets_compose this scope selector scope' selector' className :
  resetScope this scope' selector' = resetScope this scope selector
  /\ resetClass this className = resetScope this scope selector
  /\ resetScope (resetScope this scope selector) scope' selector'
     = resetScope this scope selector
  /\ resetAll (resetAll this) = resetAll this
  /\ resetAll (resetScope this scope selector) = resetScope this scope selector
  /\ resetScope (resetAll this) scope selector = resetScope this scope selector.
Proof.
  split; [reflexivity|]. split; [reflexivity|]. split; [reflexivity|].
  split; [|split; [|reflexivity]].
  - unfold resetAll. cbn [with_container container].
    rewrite clearInstances_fresh by apply freshRegistry_clearInstances. reflexivity.
  - unfold resetAll.
    rewrite clearInstances_fresh by apply freshRegistry_resetScope.
    apply with_container_same.
Qed.

(** ** [Injectable] *)




(** ** The owner argument of a component's dependencies *)

(** X16: a component never receives a dependency through the parent-router
    hop.  The component wrapper resolves each dependency with its own
    selector, with the router [getRouterForComponent] gives for its class
    name, and with that class name as owner; in such a call the owner's
    router is the router selector of the call, so the hop is skipped: the
    call is the same, state and outcome, as the call without owner. *)
Theorem component_dependencies_skip_parent_hop w className componentSelector ownerName :
  resolve w className componentSelector
    (getRouterForComponent (engine w) ownerName) (Some ownerName)
  = resolve w className componentSelector
      (getRouterForComponent (engine w) ownerName) None.
Proof.
  rewrite !resolve_via_target. unfold resolveTarget.
  replace (parentLookup (engine w) className (getRouterForComponent (engine w) ownerName)
             (Some ownerName))
    with (parentLookup (engine w) className (getRouterForComponent (engine w) ownerName) None);
    [reflexivity|].
  unfold parentLookup, parentSelector. cbn [truthy].
  destruct (ownerName =? ""); [reflexivity|].
  destruct (truthy (getRouterForComponent (engine w) ownerName)); [|reflexivity].
  replace (option_string_eqb _ _) with true; [reflexivity|].
  symmetry. apply option_string_eqb_eq. reflexivity.
Qed.

(** ** The decorators' registries *)

Lemma ctor_eqb_eq (a b : Ctor) : ctor_eqb a b = true <-> a = b.
Proof.
  unfold ctor_eqb. destruct a as [n i], b as [n' i']. cbn [name ctor_id].
  rewrite andb_true_iff, String.eqb_eq, Nat.eqb_eq. split.
  - intros [-> ->]. reflexivity.
  - intros [= -> ->]. auto.
Qed.

#[export] Instance EqKeyLaws_Ctor : EqKeyLaws Ctor.
Proof. constructor. exact ctor_eqb_eq. Qed.

(** X17: the component registry is a round trip keyed by class name.
    After the decoration of [Entity], [Component.$provider] answers the
    wrapped component of that decoration for every class of the same name
    (the last decoration of a name wins, a homonymous class included) and
    what it answered before for every other name; [getComponentClassName]
    of the wrapped component answers the name of the class; and with
    nothing decorated [Component.$provider] throws its 'not found' error. *)
Theorem ComponentProvider_round_trip params reg wrappedComponent Entity Other :
  let reg' := fst (Decorators.Component params reg wrappedComponent Entity) in
  snd (Decorators.Component params reg wrappedComponent Entity) = Entity
  /\ Decorators.ComponentProvider reg' Other
     = (if name Entity =? name Other then Decorators.Ok wrappedComponent
        else Decorators.ComponentProvider reg Other)
  /\ Decorators.getComponentClassName reg' wrappedComponent = Some (name Entity)
  /\ Decorators.ComponentProvider Decorators.noRegistries Other
     = Decorators.Throws
         ("Component " ++ name Other
          ++ " not found. Make sure to apply @Component decorator first.").
Proof.
  cbv zeta. unfold Decorators.Component, Decorators.ComponentProvider,
    Decorators.getComponentClassName.
  cbn [fst snd Decorators.componentRegistry Decorators.componentReverseRegistry].
  split; [reflexivity|]. split; [|split; [apply get_set_same | reflexivity]].
  rewrite get_set. cbn [key_eqb EqKey_string].
  destruct (name Entity =? name Other); reflexivity.
Qed.

Lemma listsComponent_ByName names n :
  listsComponent (map ByName names) n = true <-> In n names.
Proof.
  unfold listsComponent. rewrite existsb_exists. split.
  - intros (C & HC & Hn). apply in_map_iff in HC. destruct HC as (m & <- & Hm).
    cbn in Hn. apply String.eqb_eq in Hn. subst m. exact Hm.
  - intros Hin. exists (ByName n). split; [apply in_map; exact Hin|].
    cbn. apply String.eqb_refl.
Qed.

Lemma In_componentClassNames reg comps n :
  In n (Decorators.componentClassNames reg comps)
  <-> exists comp, In comp comps /\ Decorators.componentClassName reg comp = Some n.
Proof.
  unfold Decorators.componentClassNames. rewrite in_flat_map. split.
  - intros (comp & Hc & Hn). exists comp. split; [exact Hc|].
    destruct (Decorators.componentClassName reg comp) as [m|]; [|contradiction].
    destruct Hn as [->|[]]. reflexivity.
  - intros (comp & Hc & Hn). exists comp. split; [exact Hc|]. rewrite Hn. left. reflexivity.
Qed.

(** X18: what the [Router] decoration does to the engine and the
    registries.  In a reachable state the decoration does not throw and
    returns the class.  Every element of [params.components] is tracked as
    a member of the router's selector under the name the registries give
    it (the class name behind a wrapped component or a wrapped router, else
    the element's own non-empty name), and names no element yields keep the
    router they had.  The router scope then provides every class of
    [params.providers] and the router class itself.  [Router.$provider]
    answers the wrapped component, which the reverse registry maps back to
    the class name.  And listing the wrapped component a [Component]
    decoration made for a class with a non-empty name is tracking that
    class name. *)
Theorem Router_decoration_tracks_members w params reg wrappedComponent Entity :
  reachable w ->
  let d := Decorators.Router params reg (engine w) wrappedComponent Entity in
  snd d = Decorators.Ok Entity
  /\ (forall comp n,
        In comp (Decorators.components params) ->
        Decorators.componentClassName reg comp = Some n ->
        getRouterForComponent (snd (fst d)) n = Some (Decorators.selector params))
  /\ (forall n,
        (forall comp, In comp (Decorators.components params) ->
                      Decorators.componentClassName reg comp <> Some n) ->
        getRouterForComponent (snd (fst d)) n = getRouterForComponent (engine w) n)
  /\ provided (routerScopes (snd (fst d))) (Decorators.selector params)
       (Decorators.providersOf params ++ [Entity]) = true
  /\ Decorators.RouterProvider (fst (fst d)) Entity = Decorators.Ok wrappedComponent
  /\ Decorators.getRouterClassName (fst (fst d)) wrappedComponent = Some (name Entity)
  /\ (forall cparams C wrapped,
        name C <> "" ->
        Decorators.componentClassName
          (fst (Decorators.Component cparams reg wrapped C)) wrapped = Some (name C)).
Proof.
  intros Hr. pose proof (reachable_Inv _ Hr) as HI. cbv zeta. unfold Decorators.Router.
  set (names := Decorators.componentClassNames reg (Decorators.components params)).
  pose proof (setupRouterContainer_spec w (map ByName names)
                (Decorators.providersOf params ++ [Entity])
                (Decorators.selector params) HI) as [_ Hret].
  pose proof (setupRouterContainer_shape (engine w) (map ByName names)
                (Decorators.providersOf params ++ [Entity])
                (Decorators.selector params)) as [_ Hshape].
  pose proof (setupRouterContainer_provided (engine w) (map ByName names)
                (Decorators.providersOf params ++ [Entity])
                (Decorators.selector params)) as Hprov.
  destruct (setupRouterContainer _ _ _ _) as [this' o]. cbn [fst snd] in *. subst o.
  cbn [fst snd]. destruct Hshape as [(_ & Hm & _)|(_ & msg & Hmsg)]; [|discriminate].
  assert (Hget : forall n, getRouterForComponent this' n
                   = if listsComponent (map ByName names) n
                     then Some (Decorators.selector params)
                     else getRouterForComponent (engine w) n).
  { intros n. unfold getRouterForComponent. rewrite Hm. apply trackMembership_get. }
  split; [reflexivity|]. split; [|split; [|split; [exact Hprov|]]].
  - intros comp n Hin Hn. rewrite Hget.
    replace (listsComponent (map ByName names) n) with true; [reflexivity|].
    symmetry. apply listsComponent_ByName, In_componentClassNames. eauto.
  - intros n Hnone. rewrite Hget.
    destruct (listsComponent (map ByName names) n) eqn:E; [|reflexivity].
    apply listsComponent_ByName, In_componentClassNames in E.
    destruct E as (comp & Hin & Hn). exfalso. exact (Hnone comp Hin Hn).
  - unfold Decorators.RouterProvider, Decorators.getRouterClassName.
    cbn [Decorators.routerRegistry Decorators.routerReverseRegistry].
    rewrite !get_set_same. split; [reflexivity|]. split; [reflexivity|].
    intros cparams C wrapped HC.
    unfold Decorators.componentClassName, Decorators.getComponentClassName,
      Decorators.Component.
    cbn [fst Decorators.componentReverseRegistry]. rewrite get_set_same.
    rewrite (truthy_Some (name C) HC). reflexivity.
Qed.

Lemma Router_decoration_tracks_members_witness :
  let reg := fst (Decorators.Component
                    {| Decorators.componentSelector := "home-screen";
                       Decorators.componentProviders := None |}
                    Decorators.noRegistries HomeScreenWrapper HomeScreen) in
  let params := {| Decorators.selector := "main-nav-router";
                   Decorators.components := [HomeScreenWrapper; Shared];
                   Decorators.providers := Some [Logger] |} in
  let d := Decorators.Router params reg (engine getInstance)
             MainNavRouterWrapper MainNavRouter in
  reachable getInstance
  /\ snd d = Decorators.Ok MainNavRouter
  /\ getRouterForComponent (snd (fst d)) "HomeScreen" = Some "main-nav-router"
  /\ getRouterForComponent (snd (fst d)) "Shared" = Some "main-nav-router"
  /\ provided (routerScopes (snd (fst d))) "main-nav-router" [Logger; MainNavRouter] = true.
Proof.
  intros reg params d.
  pose proof (Router_decoration_tracks_members getInstance params reg
                MainNavRouterWrapper MainNavRouter reachable_getInstance)
    as (H1 & H2 & _ & H4 & _).
  split; [exact reachable_getInstance|]. split; [exact H1|]. split; [|split; [|exact H4]].
  - apply (H2 HomeScreenWrapper "HomeScreen"); [left; reflexivity | reflexivity].
  - apply (H2 Shared "Shared"); [right; left; reflexivity | reflexivity].
Defined.

(** ** The class behind a root name *)

Lemma In_set {K V : Type} `{EqKeyLaws K} (k k' : K) (v v' : V) (m : JsMap.t K V) :
  In (k', v') (JsMap.set k v m) -> (k' = k /\ v' = v) \/ In (k', v') m.
Proof.
  induction m as [|[k0 v0] m IH]; cbn [JsMap.set].
  - intros [[= <- <-]|[]]. left. split; reflexivity.
  - destruct (key_eqb k k0) eqn:E.
    + apply key_eqb_eq in E. subst k0.
      intros [[= <- <-]|Hin]; [left; split; reflexivity | right; right; exact Hin].
    + intros [Heq|Hin]; [right; left; exact Heq|].
      destruct (IH Hin) as [Hk|Hm]; [left; exact Hk | right; right; exact Hm].
Qed.

Lemma getToken_name_injective n n' key : getToken n key = getToken n' key -> n = n'.
Proof.
  unfold getToken. intros [= Heq].
  apply string_append_inv_head in Heq. injection Heq as Heq. exact Heq.
Qed.

Lemma root_token_not_router n n' sel :
  getToken n "root" <> getToken n' ("router:" ++ sel).
Proof. unfold getToken. cbn. discriminate. Qed.

Lemma root_token_not_component n n' sel :
  getToken n "root" <> getToken n' ("component:" ++ sel).
Proof. unfold getToken. cbn. discriminate. Qed.

Lemma entriesDerived_registerProviders key Ps : forall scope classes c,
  entriesDerived key scope ->
  entriesDerived key (fst (fst (registerProviders key Ps (scope, classes, c)))).
Proof.
  unfold registerProviders.
  induction Ps as [|P Ps IH]; intros scope classes c Hd; cbn [fold_left]; [exact Hd|].
  unfold registerProvider at 2. destruct (JsMap.has (name P) scope); [apply IH; exact Hd|].
  apply IH. intros n t Hin. apply In_set in Hin.
  destruct Hin as [[-> ->]|Hin]; [reflexivity | apply Hd; exact Hin].
Qed.

Lemma scopesDerived_set kind scopes sel scope :
  scopesDerived kind scopes -> entriesDerived (kind ++ sel) scope ->
  scopesDerived kind (JsMap.set sel scope scopes).
Proof.
  intros Hs Hd sel' scope' Hin. apply In_set in Hin.
  destruct Hin as [[-> ->]|Hin]; [exact Hd | apply Hs; exact Hin].
Qed.

Lemma registerIfAbsent_other c t P token :
  token <> TSymbol t ->
  registrationsOf (registerIfAbsent c t P) token = registrationsOf c token.
Proof.
  intros Hne. unfold registerIfAbsent. destruct (isRegistered c (TSymbol t)); [reflexivity|].
  rewrite registrationsOf_register, key_eqb_neq by congruence. reflexivity.
Qed.

Lemma registerProviders_other key Ps token : forall st,
  (forall n, token <> TSymbol (getToken n key)) ->
  registrationsOf (snd (registerProviders key Ps st)) token = registrationsOf (snd st) token.
Proof.
  unfold registerProviders. induction Ps as [|P Ps IH]; intros st Hne; cbn [fold_left].
  - reflexivity.
  - rewrite IH by exact Hne. destruct st as [[scope classes] c]. unfold registerProvider.
    destruct (JsMap.has (name P) scope); [reflexivity|]. cbn [snd].
    apply registerIfAbsent_other. apply Hne.
Qed.

Lemma instancesMatch_register c token p l :
  instancesMatch c -> instancesMatch (register c token p l).
Proof.
  intros Hm token' r v. rewrite registrationsOf_register.
  destruct (key_eqb token token'); [|apply Hm].
  intros Hin Hi. apply in_app_or in Hin. destruct Hin as [Hin|[<-|[]]].
  - eapply Hm; eauto.
  - discriminate.
Qed.

Lemma instancesMatch_registerIfAbsent c t P :
  instancesMatch c -> instancesMatch (registerIfAbsent c t P).
Proof.
  unfold registerIfAbsent. destruct (isRegistered c (TSymbol t)); [tauto|].
  apply instancesMatch_register.
Qed.

Lemma instancesMatch_registerProviders key Ps : forall st,
  instancesMatch (snd st) -> instancesMatch (snd (registerProviders key Ps st)).
Proof.
  unfold registerProviders. induction Ps as [|P Ps IH]; intros st Hm; cbn [fold_left].
  - exact Hm.
  - apply IH. destruct st as [[scope classes] c]. unfold registerProvider.
    destruct (JsMap.has (name P) scope); cbn [snd] in *; [exact Hm|].
    apply instancesMatch_registerIfAbsent. exact Hm.
Qed.

Lemma In_setLastInstance v regs r :
  In r (setLastInstance v regs) ->
  In r regs \/ exists r0, last (map Some regs) None = Some r0 /\ r = withInstance v r0.
Proof.
  destruct regs as [|a regs _] using rev_ind; [intros []|].
  rewrite setLastInstance_app, last_map_Some_app. intros Hin.
  apply in_app_or in Hin. destruct Hin as [Hin|[<-|[]]].
  - left. apply in_or_app. left. exact Hin.
  - right. eauto.
Qed.

Lemma containerResolve_registrationsOf c next token token' r :
  In r (registrationsOf (fst (fst (containerResolve c next token))) token') ->
  In r (registrationsOf c token')
  \/ exists r0 cls, In r0 (registrationsOf c token') /\ provider r0 = UseClass cls
       /\ r = withInstance (VObject next cls) r0.
Proof.
  unfold containerResolve.
  destruct (getRegistration c token) as [reg|] eqn:Hget; [|tauto].
  destruct (provider reg) as [v|cls] eqn:Hp; [tauto|].
  destruct (lifecycle reg); [tauto|].
  destruct (instance reg); [tauto|]. cbn [fst].
  rewrite registrationsOf_cacheInstance.
  destruct (key_eqb token token') eqn:E; [|tauto].
  apply key_eqb_eq in E. subst token'. intros Hin.
  apply In_setLastInstance in Hin. destruct Hin as [Hin|(r0 & Hlast & ->)]; [tauto|].
  unfold getRegistration in Hget. rewrite Hget in Hlast. injection Hlast as <-.
  right. exists reg, cls. split; [|split; [exact Hp | reflexivity]].
  apply last_map_Some_In. exact Hget.
Qed.

Lemma instancesMatch_containerResolve c next token :
  instancesMatch c -> instancesMatch (fst (fst (containerResolve c next token))).
Proof.
  intros Hm token' r v Hin Hi.
  apply containerResolve_registrationsOf in Hin.
  destruct Hin as [Hin|(r0 & cls & Hin & Hp & ->)]; [eapply Hm; eauto|].
  cbn in Hi. injection Hi as <-. exists next, cls. split; [exact Hp | reflexivity].
Qed.

Lemma In_cleared r regs :
  In r (map clearRegistration
          (filter (fun r => negb (isValueProvider (provider r))) regs)) ->
  instance r = None /\ exists r0, In r0 regs /\ provider r = provider r0.
Proof.
  intros Hin. apply in_map_iff in Hin. destruct Hin as (r0 & <- & Hin).
  apply filter_In in Hin. destruct Hin as [Hin _]. split; [reflexivity | eauto].
Qed.

Lemma reregisterScope_origin scope classes token r : forall c,
  In r (registrationsOf (reregisterScope scope classes c) token) ->
  In r (registrationsOf c token)
  \/ exists n t P, In (n, t) (JsMap.entries scope) /\ token = TSymbol t
       /\ JsMap.get n classes = Some P /\ r = newRegistration (UseClass P) Singleton.
Proof.
  unfold reregisterScope, JsMap.entries.
  induction scope as [|[n t] scope IH]; intros c Hin; cbn [fold_left] in Hin; [tauto|].
  apply IH in Hin. destruct Hin as [Hin|(n' & t' & P & Hin & Hrest)].
  2:{ right. exists n', t', P. split; [right; exact Hin | exact Hrest]. }
  cbn [fst snd] in Hin. destruct (JsMap.get n classes) as [P|] eqn:HP; [|tauto].
  rewrite registrationsOf_register in Hin.
  destruct (key_eqb (TSymbol t) token) eqn:E; [|tauto].
  apply key_eqb_eq in E. apply in_app_or in Hin. destruct Hin as [Hin|[<-|[]]].
  - left. subst token. exact Hin.
  - right. exists n, t, P. split; [left; reflexivity|]. auto.
Qed.

Lemma reregisterScopes_origin scopes classesMap token r : forall c,
  In r (registrationsOf (reregisterScopes scopes classesMap c) token) ->
  In r (registrationsOf c token)
  \/ exists sel scope n t,
       In (sel, scope) (JsMap.entries scopes) /\ In (n, t) (JsMap.entries scope)
       /\ token = TSymbol t /\ instance r = None.
Proof.
  unfold reregisterScopes, JsMap.entries at 1.
  induction scopes as [|[sel scope] scopes IH]; intros c Hin; cbn [fold_left] in Hin; [tauto|].
  apply IH in Hin. destruct Hin as [Hin|(sel' & scope' & n & t & Hin & Hrest)].
  2:{ right. exists sel', scope', n, t. split; [right; exact Hin | exact Hrest]. }
  cbn [fst snd] in Hin. destruct (JsMap.get sel classesMap) as [classes|]; [|tauto].
  apply reregisterScope_origin in Hin.
  destruct Hin as [Hin|(n & t & P & Hin & Htok & _ & ->)]; [tauto|].
  right. exists sel, scope, n, t. split; [left; reflexivity|]. auto.
Qed.

Lemma instancesMatch_zero c : regsOk 0 c -> instancesMatch c.
Proof.
  intros Hok token r v Hin Hi.
  pose proof (proj1 (Forall_forall _ _) (Hok token) r Hin) as [_ Hb].
  rewrite Hi in Hb. destruct v; cbn in Hb; [contradiction | lia].
Qed.

Lemma setupComponentContainer_container this selector Providers :
  container (fst (setupComponentContainer this selector Providers)) = container this
  \/ exists scope classes,
       JsMap.get selector (componentScopes (ensureComponentScope this selector)) = Some scope
       /\ container (fst (setupComponentContainer this selector Providers))
          = snd (registerProviders ("component:" ++ selector) Providers
                   (scope, classes, container this))
       /\ componentScopes (fst (setupComponentContainer this selector Providers))
          = JsMap.set selector
              (fst (fst (registerProviders ("component:" ++ selector) Providers
                           (scope, classes, container this))))
              (componentScopes (ensureComponentScope this selector)).
Proof.
  unfold setupComponentContainer.
  rewrite <- (ensureComponentScope_container this selector).
  set (this1 := ensureComponentScope this selector).
  destruct (JsMap.get selector (componentScopes this1)) as [scope|]; [|left; reflexivity].
  destruct (JsMap.get selector (componentClasses this1)) as [classes|]; [|left; reflexivity].
  right. exists scope, classes.
  destruct (registerProviders _ _ _) as [[scope' classes'] c'].
  split; [reflexivity|]. split; reflexivity.
Qed.

Lemma setupRouterContainer_container this Components Providers selector :
  container (fst (setupRouterContainer this Components Providers selector)) = container this
  \/ exists scope classes,
       JsMap.get selector (routerScopes (ensureRouterScope this selector)) = Some scope
       /\ container (fst (setupRouterContainer this Components Providers selector))
          = snd (registerProviders ("router:" ++ selector) Providers
                   (scope, classes, container this))
       /\ routerScopes (fst (setupRouterContainer this Components Providers selector))
          = JsMap.set selector
              (fst (fst (registerProviders ("router:" ++ selector) Providers
                           (scope, classes, container this))))
              (routerScopes (ensureRouterScope this selector)).
Proof.
  unfold setupRouterContainer.
  rewrite <- (ensureRouterScope_container this selector).
  set (this1 := ensureRouterScope this selector).
  destruct (JsMap.get selector (routerScopes this1)) as [scope|]; [|left; reflexivity].
  destruct (JsMap.get selector (routerClasses this1)) as [classes|]; [|left; reflexivity].
  right. exists scope, classes.
  cbn [with_membership container routerScopes routerClasses].
  destruct (registerProviders _ _ _) as [[scope' classes'] c'].
  split; [reflexivity|]. split; reflexivity.
Qed.

Lemma scopesDerived_ensure kind scopes sel :
  scopesDerived kind scopes ->
  scopesDerived kind (if JsMap.has sel scopes then scopes
                      else JsMap.set sel JsMap.empty scopes).
Proof.
  intros Hs. destruct (JsMap.has sel scopes); [exact Hs|].
  apply scopesDerived_set; [exact Hs|]. intros n t [].
Qed.

Lemma scopesDerived_get kind scopes sel scope :
  scopesDerived kind scopes -> JsMap.get sel scopes = Some scope ->
  entriesDerived (kind ++ sel) scope.
Proof. intros Hs Hget. apply Hs. apply get_In. exact Hget. Qed.

Lemma componentScopes_ensure this selector :
  componentScopes (ensureComponentScope this selector)
  = if JsMap.has selector (componentScopes this) then componentScopes this
    else JsMap.set selector JsMap.empty (componentScopes this).
Proof.
  unfold ensureComponentScope. destruct (JsMap.has selector (componentScopes this)); reflexivity.
Qed.

Lemma routerScopes_ensure this selector :
  routerScopes (ensureRouterScope this selector)
  = if JsMap.has selector (routerScopes this) then routerScopes this
    else JsMap.set selector JsMap.empty (routerScopes this).
Proof.
  unfold ensureRouterScope. destruct (JsMap.has selector (routerScopes this)); reflexivity.
Qed.

Lemma ClassInv_getInstance : ClassInv (engine getInstance).
Proof.
  constructor; cbn.
  - intros n t [].
  - intros sel scope [].
  - intros sel scope [].
  - apply instancesMatch_register, instancesMatch_zero, regsOk_createChildContainer.
  - split; [reflexivity|]. intros n r Hin. cbn in Hin. contradiction.
Qed.

Lemma ClassInv_setupRootContainer this Entity :
  ClassInv this -> ClassInv (setupRootContainer this Entity).
Proof.
  intros [D1 D2 D3 Hm [Hhas Hcls]]. unfold setupRootContainer.
  destruct (JsMap.has (name Entity) (rootScope this)) eqn:E; [constructor; try split; auto|].
  constructor; cbn [with_container with_root container rootScope rootClasses routerScopes
                    componentScopes].
  - intros n t Hin. apply In_set in Hin.
    destruct Hin as [[-> ->]|Hin]; [reflexivity | apply D1; exact Hin].
  - exact D2.
  - exact D3.
  - apply instancesMatch_registerIfAbsent. exact Hm.
  - unfold rootClassesOk.
    cbn [with_container with_root container rootScope rootClasses]. split.
    + intros n. unfold JsMap.has. rewrite !get_set.
      destruct (key_eqb (name Entity) n); [reflexivity | apply Hhas].
    + intros n r Hin. destruct (key_eq_dec n (name Entity)) as [->|Hne].
      * rewrite get_set_same.
        assert (Hnone : registrationsOf (container this)
                          (TSymbol (getToken (name Entity) "root")) = []).
        { destruct (registrationsOf (container this)
                      (TSymbol (getToken (name Entity) "root"))) as [|r0 regs] eqn:Hr;
            [reflexivity|].
          destruct (Hcls (name Entity) r0) as (P & HP & _); [rewrite Hr; left; reflexivity|].
          specialize (Hhas (name Entity)). unfold JsMap.has in Hhas at 1.
          rewrite HP, E in Hhas. discriminate. }
        unfold registerIfAbsent, isRegistered in Hin. rewrite Hnone in Hin.
        rewrite registrationsOf_register, key_eqb_refl, Hnone in Hin.
        destruct Hin as [<-|[]]. exists Entity. split; reflexivity.
      * rewrite registerIfAbsent_other in Hin.
        2:{ intros [= Heq]. apply Hne.
            apply (getToken_name_injective n (name Entity) "root").
            unfold getToken. congruence. }
        rewrite get_set_other by congruence. apply Hcls. exact Hin.
Qed.

Lemma ClassInv_setupComponentContainer this selector Providers :
  ClassInv this -> ClassInv (fst (setupComponentContainer this selector Providers)).
Proof.
  intros [D1 D2 D3 Hm [Hhas Hcls]].
  pose proof (setupComponentContainer_shape this selector Providers)
    as [(E1 & E2 & E3 & _) Hcase].
  pose proof (setupComponentContainer_container this selector Providers) as Hcont.
  pose proof (scopesDerived_ensure "component:" (componentScopes this) selector D3) as D3'.
  rewrite <- componentScopes_ensure in D3'.
  constructor.
  - rewrite E1. exact D1.
  - rewrite E3. exact D2.
  - destruct Hcont as [_|(scope & classes & Hs & _ & ->)].
    + destruct Hcase as [(Hret & _)|(-> & _)]; [|exact D3].
      unfold setupComponentContainer in *.
      destruct (JsMap.get selector (componentScopes (ensureComponentScope this selector)))
        as [scope|] eqn:Hs; [|discriminate].
      destruct (JsMap.get selector (componentClasses (ensureComponentScope this selector)))
        as [classes|] eqn:Hc; [|discriminate].
      destruct (registerProviders _ _ _) as [[scope' classes'] c'] eqn:Er. cbn.
      apply scopesDerived_set; [exact D3'|].
      pose proof (entriesDerived_registerProviders ("component:" ++ selector) Providers
                    scope classes (container (ensureComponentScope this selector))
                    (scopesDerived_get _ _ _ _ D3' Hs)) as Hd.
      rewrite Er in Hd. exact Hd.
    + apply scopesDerived_set; [exact D3'|].
      apply entriesDerived_registerProviders. eapply scopesDerived_get; eauto.
  - destruct Hcont as [->|(scope & classes & _ & -> & _)]; [exact Hm|].
    apply instancesMatch_registerProviders. exact Hm.
  - split; [rewrite E1, E2; exact Hhas|].
    intros n r. rewrite E2.
    destruct Hcont as [->|(scope & classes & _ & -> & _)]; [apply Hcls|].
    rewrite registerProviders_other; [apply Hcls|].
    intros n' Heq. apply (root_token_not_component n n' selector). congruence.
Qed.

Lemma ClassInv_setupRouterContainer this Components Providers selector :
  ClassInv this -> ClassInv (fst (setupRouterContainer this Components Providers selector)).
Proof.
  intros [D1 D2 D3 Hm [Hhas Hcls]].
  pose proof (setupRouterContainer_shape this Components Providers selector)
    as [(E1 & E2 & E3 & _) Hcase].
  pose proof (setupRouterContainer_container this Components Providers selector) as Hcont.
  pose proof (scopesDerived_ensure "router:" (routerScopes this) selector D2) as D2'.
  rewrite <- routerScopes_ensure in D2'.
  constructor.
  - rewrite E1. exact D1.
  - destruct Hcont as [_|(scope & classes & Hs & _ & ->)].
    + destruct Hcase as [(Hret & _)|(-> & _)]; [|exact D2].
      unfold setupRouterContainer in *.
      destruct (JsMap.get selector (routerScopes (ensureRouterScope this selector)))
        as [scope|] eqn:Hs; [|discriminate].
      destruct (JsMap.get selector (routerClasses (ensureRouterScope this selector)))
        as [classes|] eqn:Hc; [|discriminate].
      cbn [with_membership container routerScopes routerClasses] in *.
      destruct (registerProviders _ _ _) as [[scope' classes'] c'] eqn:Er. cbn.
      apply scopesDerived_set; [exact D2'|].
      pose proof (entriesDerived_registerProviders ("router:" ++ selector) Providers
                    scope classes (container (ensureRouterScope this selector))
                    (scopesDerived_get _ _ _ _ D2' Hs)) as Hd.
      rewrite Er in Hd. exact Hd.
    + apply scopesDerived_set; [exact D2'|].
      apply entriesDerived_registerProviders. eapply scopesDerived_get; eauto.
  - rewrite E3. exact D3.
  - destruct Hcont as [->|(scope & classes & _ & -> & _)]; [exact Hm|].
    apply instancesMatch_registerProviders. exact Hm.
  - split; [rewrite E1, E2; exact Hhas|].
    intros n r. rewrite E2.
    destruct Hcont as [->|(scope & classes & _ & -> & _)]; [apply Hcls|].
    rewrite registerProviders_other; [apply Hcls|].
    intros n' Heq. apply (root_token_not_router n n' selector). congruence.
Qed.

Lemma resolve_container w className cs rs ccn :
  exists c', engine (fst (resolve w className cs rs ccn)) = with_container c' (engine w)
    /\ (c' = container (engine w)
        \/ exists token,
             c' = fst (fst (containerResolve (container (engine w)) (nextRef w) token))).
Proof.
  rewrite resolve_via_target. destruct (resolveTarget _ _ _ _ _) as [token|].
  - unfold resolveToken.
    destruct (containerResolve (container (engine w)) (nextRef w) token)
      as [[c next] o] eqn:E.
    exists c. cbn. split; [reflexivity|]. right. exists token. rewrite E. reflexivity.
  - exists (container (engine w)). cbn. rewrite with_container_same. auto.
Qed.

Lemma ClassInv_with_container this c' :
  ClassInv this -> instancesMatch c' ->
  (forall n r, In r (registrationsOf c' (TSymbol (getToken n "root"))) ->
     exists r0, In r0 (registrationsOf (container this) (TSymbol (getToken n "root")))
                /\ provider r = provider r0) ->
  ClassInv (with_container c' this).
Proof.
  intros [D1 D2 D3 Hm [Hhas Hcls]] Hm' Hprov. constructor; try assumption.
  split; [exact Hhas|]. intros n r Hin. cbn [with_container container rootClasses] in *.
  destruct (Hprov n r Hin) as (r0 & Hin0 & Hp). rewrite Hp. apply Hcls. exact Hin0.
Qed.

Lemma ClassInv_resolve w className cs rs ccn :
  ClassInv (engine w) -> ClassInv (engine (fst (resolve w className cs rs ccn))).
Proof.
  intros HC. destruct (resolve_container w className cs rs ccn) as (c' & -> & Hc').
  destruct Hc' as [->|(token & ->)].
  - rewrite with_container_same. exact HC.
  - apply ClassInv_with_container; [exact HC | |].
    + apply instancesMatch_containerResolve. apply (cinv_instances _ HC).
    + intros n r Hin. apply containerResolve_registrationsOf in Hin.
      destruct Hin as [Hin|(r0 & cls & Hin & _ & ->)]; eauto.
Qed.

Lemma ClassInv_resetScope this scope selector :
  ClassInv this -> ClassInv (resetScope this scope selector).
Proof.
  intros [D1 D2 D3 Hm [Hhas Hcls]].
  constructor; try assumption.
  - apply instancesMatch_zero, regsOk_zero_resetScope.
  - split; [exact Hhas|]. intros n r. unfold resetScope, reregisterAll.
    cbn [with_container container rootScope rootClasses routerScopes routerClasses
         componentScopes componentClasses].
    intros Hin. apply reregisterScopes_origin in Hin.
    destruct Hin as [Hin|(sel & sc & n' & t' & Hs & Hn & Htok & _)].
    2:{ exfalso. injection Htok as Htok. rewrite (D3 _ _ Hs _ _ Hn) in Htok.
        exact (root_token_not_component _ _ _ Htok). }
    apply reregisterScopes_origin in Hin.
    destruct Hin as [Hin|(sel & sc & n' & t' & Hs & Hn & Htok & _)].
    2:{ exfalso. injection Htok as Htok. rewrite (D2 _ _ Hs _ _ Hn) in Htok.
        exact (root_token_not_router _ _ _ Htok). }
    apply reregisterScope_origin in Hin.
    destruct Hin as [[]|(n' & t' & P & Hn & Htok & HP & ->)].
    injection Htok as Htok. rewrite (D1 _ _ Hn) in Htok.
    apply getToken_name_injective in Htok. subst n'. exists P. split; [exact HP | reflexivity].
Qed.

Lemma ClassInv_resetAll this next :
  regsOk next (container this) -> ClassInv this -> ClassInv (resetAll this).
Proof.
  intros Hok HC. unfold resetAll. apply ClassInv_with_container; [exact HC | |].
  - apply instancesMatch_zero, (regsOk_zero_clearInstances next), Hok.
  - intros n r. rewrite registrationsOf_clearInstances. intros Hin.
    apply In_cleared in Hin. destruct Hin as [_ Hr0]. exact Hr0.
Qed.

Lemma reachable_ClassInv w : reachable w -> ClassInv (engine w).
Proof.
  induction 1 as [|w c Hr IH]; [apply ClassInv_getInstance|].
  destruct c; cbn [call fst onEngine engine].
  - destruct IH as [D1 D2 D3 Hm HC]. constructor; assumption.
  - destruct IH as [D1 D2 D3 Hm HC]. constructor; assumption.
  - apply ClassInv_setupRootContainer. exact IH.
  - pose proof (ClassInv_setupComponentContainer _ selector Providers IH) as HC.
    destruct (setupComponentContainer _ _ _). exact HC.
  - pose proof (ClassInv_setupRouterContainer _ Components Providers selector IH) as HC.
    destruct (setupRouterContainer _ _ _ _). exact HC.
  - apply ClassInv_resolve. exact IH.
  - apply ClassInv_resolve. exact IH.
  - apply ClassInv_resolve. exact IH.
  - apply ClassInv_resetScope. exact IH.
  - apply (ClassInv_resetScope _ ScopeRoot None). exact IH.
  - apply (ClassInv_resetAll _ (nextRef w)); [apply reachable_Inv; exact Hr | exact IH].
Qed.

Lemma rootClasses_call w c n P :
  reachable w ->
  JsMap.get n (rootClasses (engine w)) = Some P ->
  JsMap.get n (rootClasses (engine (fst (call w c)))) = Some P.
Proof.
  intros Hr Hget. pose proof (reachable_ClassInv w Hr) as [_ _ _ _ [Hhas _]].
  destruct c; cbn [call fst onEngine engine]; try exact Hget.
  - unfold setupRootContainer.
    destruct (JsMap.has (name Entity) (rootScope (engine w))) eqn:E; [exact Hget|].
    cbn [with_container with_root rootClasses]. rewrite get_set.
    destruct (key_eqb (name Entity) n) eqn:Ek; [|exact Hget].
    apply key_eqb_eq in Ek. subst n. specialize (Hhas (name Entity)).
    unfold JsMap.has in Hhas at 1. rewrite Hget, E in Hhas. discriminate.
  - pose proof (setupComponentContainer_shape (engine w) selector Providers)
      as [(_ & E & _) _].
    destruct (setupComponentContainer _ _ _). cbn [fst onEngine engine] in *.
    rewrite E. exact Hget.
  - pose proof (setupRouterContainer_shape (engine w) Components Providers selector)
      as [(_ & E & _) _].
    destruct (setupRouterContainer _ _ _ _). cbn [fst onEngine engine] in *.
    rewrite E. exact Hget.
  - destruct (resolve_engine w className componentSelector routerSelector componentClassName)
      as [c' ->]. exact Hget.
  - unfold get. destruct (resolve_engine w className (currentSelector (engine w))
                            (currentRouterSelector (engine w)) None) as [c' ->]. exact Hget.
  - unfold resolveFromScopes.
    destruct (resolve_engine w EntityName
                (firstSelector componentContainer (componentScopes (engine w)))
                (firstSelector routerContainer (routerScopes (engine w))) None) as [c' ->].
    exact Hget.
Qed.

Lemma rootClasses_run calls n P : forall w,
  reachable w ->
  JsMap.get n (rootClasses (engine w)) = Some P ->
  JsMap.get n (rootClasses (engine (run w calls))) = Some P.
Proof.
  unfold run. induction calls as [|c calls IH]; intros w Hr Hget; cbn [fold_left].
  - exact Hget.
  - apply IH; [apply reachable_call; exact Hr | apply rootClasses_call; assumption].
Qed.

(** X8: the first class registered at root under a name owns the name.
    In a reachable state where the root class table has the class [P] for a
    name, it keeps [P] whatever calls follow: a later [setupRootContainer]
    with another class of that name is ignored and the resets replay [P].
    And every instance a [resolve] of the name alone ever returns, when the
    name is not the reserved one, is an object of class [P]. *)
Theorem root_name_keeps_first_class w n P calls :
  reachable w ->
  JsMap.get n (rootClasses (engine w)) = Some P ->
  JsMap.get n (rootClasses (engine (run w calls))) = Some P
  /\ (n <> reservedName ->
      forall w1 v,
        resolve (run w calls) n None None None = (w1, Returned (Some v)) ->
        exists ref, v = VObject ref P).
Proof.
  intros Hr Hget. pose proof (rootClasses_run calls n P w Hr Hget) as Hget2.
  split; [exact Hget2|]. intros Hname w1 v Hres.
  set (w2 := run w calls) in *.
  assert (Hr2 : reachable w2) by (apply reachable_run; exact Hr).
  pose proof (reachable_Inv _ Hr2) as HI2.
  assert (Hr1 : reachable w1).
  { replace w1 with (fst (resolve w2 n None None None)) by (rewrite Hres; reflexivity).
    apply reachable_resolve. exact Hr2. }
  assert (Hcls1 : JsMap.get n (rootClasses (engine w1)) = Some P).
  { replace w1 with (fst (resolve w2 n None None None)) by (rewrite Hres; reflexivity).
    destruct (resolve_engine w2 n None None None) as [c' ->]. exact Hget2. }
  rewrite resolve_via_target, resolveTarget_name_only in Hres.
  apply String.eqb_neq in Hname. rewrite Hname in Hres.
  destruct (rootLookup (engine w2) n) as [t|] eqn:Hroot; [|discriminate].
  cbn [option_map] in Hres. apply registered_Some in Hroot.
  destruct (inv_root _ HI2 _ _ Hroot) as (-> & _).
  apply (resolveToken_returns_holds _ _ _ _ HI2) in Hres.
  destruct Hres as (reg & Hreg & Hv).
  apply last_map_Some_In in Hreg.
  pose proof (reachable_ClassInv w1 Hr1) as [_ _ _ Hm [_ Hc]].
  destruct (Hc n reg Hreg) as (P' & HP' & Hp). rewrite Hcls1 in HP'. injection HP' as <-.
  rewrite Hp in Hv. destruct Hv as [_ Hi].
  destruct (Hm _ reg v Hreg Hi) as (ref & cls & Hp' & ->).
  rewrite Hp in Hp'. injection Hp' as <-. eauto.
Qed.

Lemma root_name_keeps_first_class_witness :
  let w := run getInstance [CallSetupRoot AuthService] in
  let calls := [CallSetupRoot OtherAuthService; CallResolve "AuthService" None None None;
                CallResetClass "AuthService"] in
  reachable w
  /\ JsMap.get "AuthService" (rootClasses (engine w)) = Some AuthService
  /\ JsMap.get "AuthService" (rootClasses (engine (run w calls))) = Some AuthService
  /\ resolve (run w calls) "AuthService" None None None
     = (fst (resolve (run w calls) "AuthService" None None None),
        Returned (Some (VObject 1 AuthService)))
  /\ exists ref, VObject 1 AuthService = VObject ref AuthService.
Proof.
  intros w calls.
  assert (Hr : reachable w) by (apply reachable_run, reachable_getInstance).
  assert (Hget : JsMap.get "AuthService" (rootClasses (engine w)) = Some AuthService)
    by reflexivity.
  assert (Hn : "AuthService" <> reservedName) by discriminate.
  assert (Hres : resolve (run w calls) "AuthService" None None None
                 = (fst (resolve (run w calls) "AuthService" None None None),
                    Returned (Some (VObject 1 AuthService)))) by reflexivity.
  pose proof (root_name_keeps_first_class w "AuthService" AuthService calls Hr Hget)
    as [H1 H2].
  split; [exact Hr|]. split; [exact Hget|]. split; [exact H1|]. split; [exact Hres|].
  exact (H2 Hn _ _ Hres).
Defined.
